(** * copilot-cli: environment records, environment initialisation and
      workload template options

    A shallow embedding of three Go packages of the repository:
    - [config]   (environment records kept in the SSM parameter store),
    - [template] (workload template options and their derived values),
    - [cli]      (the [env init] command: validation, questions, execution).

    Go values are modelled as follows.  A [string] is a Rocq [string] (a
    sequence of bytes, compared bytewise).  A pointer that may be nil is an
    [option].  A slice, whose nil and empty values the code tells apart, is a
    [slice]: [None] is the nil slice.  A [map[string]string] is a
    [gmap string string].  An [error] is a value of the inductive type
    [error]; a nil error is [None].  Calls on injected interfaces are answered
    by a handler over an arbitrary world and are written to a log. *)

From Stdlib Require Import String Ascii List Bool Arith Lia Sorted.
From stdpp Require Import gmap strings list fin_maps.

Local Open Scope string_scope.
Local Open Scope list_scope.
Local Open Scope nat_scope.

(** ** Go runtime: slices, fmt, errors *)

(** A Go slice: [None] is nil, [Some l] a non-nil slice with elements [l]. *)
Definition slice (A : Type) : Type := option (list A).

Definition len {A : Type} (s : slice A) : nat :=
  match s with
  | None => 0
  | Some l => length l
  end.

Definition isNil {A : Type} (s : slice A) : bool :=
  match s with
  | None => true
  | Some _ => false
  end.

(** aws.StringValue: the value of a string pointer, or the empty string. *)
Definition StringValue (p : option string) : string :=
  match p with
  | None => ""
  | Some s => s
  end.

Module fmt.

Definition joinExtra (args : list string) : string :=
  String.concat ", " (map (fun a => "string=" +:+ a) args).

(** fmt.Sprintf restricted to string operands and to the verbs the modelled
    code uses on them: [%s] and the literal [%%].  A verb without an operand
    prints [%!s(MISSING)], operands left over are reported in [%!(EXTRA ...)],
    as the Go library does. *)
Fixpoint Sprintf (format : string) (args : list string) : string :=
  match format with
  | EmptyString =>
      match args with
      | [] => ""
      | _ :: _ => "%!(EXTRA " +:+ joinExtra args +:+ ")"
      end
  | String c rest =>
      if Ascii.eqb c "%" then
        match rest with
        | EmptyString => "%!(NOVERB)"
        | String v rest' =>
            if Ascii.eqb v "s" then
              match args with
              | [] => "%!s(MISSING)" +:+ Sprintf rest' []
              | a :: args' => a +:+ Sprintf rest' args'
              end
            else if Ascii.eqb v "%" then String "%" (Sprintf rest' args)
            else String c (String v (Sprintf rest' args))
        end
      else String c (Sprintf rest args)
  end.

End fmt.

(** Go error values.  [Errorf_w] is [fmt.Errorf] with a [%w] verb: it keeps
    the format, the string operands and the wrapped error.  [Errorf_v] is
    [fmt.Errorf] that prints an error with [%v] and does not wrap it. *)
Inductive error : Type :=
| errorString (s : string)
| Errorf_w (format : string) (args : list string) (err : error)
| Errorf_v (format : string) (args : list string) (err : error)
| awserr (code : string) (message : string)
| ErrNoSuchEnvironment (ApplicationName EnvironmentName : string)
| ErrStackAlreadyExists (stackName : string)
| ErrVPCNotFound
| ErrSubnetsNotFound.

Inductive Result (A : Type) : Type :=
| Ok (a : A)
| Err (e : error).

Arguments Ok {A} a.
Arguments Err {A} e.

Module errors.

Definition New (s : string) : error := errorString s.

Definition Unwrap (e : error) : option error :=
  match e with
  | Errorf_w _ _ inner => Some inner
  | _ => None
  end.

Definition isSubnetsNotFound (e : error) : bool :=
  match e with
  | ErrSubnetsNotFound => true
  | _ => false
  end.

Definition isVPCNotFound (e : error) : bool :=
  match e with
  | ErrVPCNotFound => true
  | _ => false
  end.

(** errors.Is(err, selector.ErrSubnetsNotFound): the chain of wrapped errors
    is searched for the sentinel. *)
Fixpoint Is_SubnetsNotFound (e : error) : bool :=
  match e with
  | ErrSubnetsNotFound => true
  | Errorf_w _ _ inner => Is_SubnetsNotFound inner
  | _ => false
  end.

(** errors.As(err, &existsErr) for *cloudformation.ErrStackAlreadyExists. *)
Fixpoint As_StackAlreadyExists (e : error) : bool :=
  match e with
  | ErrStackAlreadyExists _ => true
  | Errorf_w _ _ inner => As_StackAlreadyExists inner
  | _ => false
  end.

(** errors.As(err, &errNoSuchEnvironment) for *config.ErrNoSuchEnvironment. *)
Fixpoint As_NoSuchEnvironment (e : error) : bool :=
  match e with
  | ErrNoSuchEnvironment _ _ => true
  | Errorf_w _ _ inner => As_NoSuchEnvironment inner
  | _ => false
  end.

End errors.

(** ** Go standard library: sort.SliceStable

    [sort.SliceStable(x, less)] runs [stable_func] of package sort on the
    slice: insertion sort on blocks of 20 elements, then rounds of in-place
    merging ([symMerge_func]) of neighbouring blocks.  The comparison is a
    closure over the slice being sorted, so it reads the elements that stand
    at the two indices at the moment it is called; here it takes the current
    contents as its first argument.  Indices are machine integers in Go; the
    slices of this program are far shorter than any wrap-around, so they are
    natural numbers here, and [int(uint(i+j) >> 1)] is [(i + j) / 2]. *)
Module sort.

Section Stable.

Context {A : Type}.

Variable less : list A -> nat -> nat -> bool.

(** data.Swap(i, j) *)
Definition Swap (data : list A) (i j : nat) : list A :=
  match data !! i, data !! j with
  | Some x, Some y => <[j:=x]> (<[i:=y]> data)
  | _, _ => data
  end.

(** for j := i; j > a && data.Less(j, j-1); j-- { data.Swap(j, j-1) } *)
Fixpoint insertionShift (a j : nat) (data : list A) : list A :=
  match j with
  | 0 => data
  | S j' =>
      if (a <? j) && less data j j'
      then insertionShift a j' (Swap data j j')
      else data
  end.

(** for i := ...; i < b; i++ { the loop above }, [n] bounds the iterations. *)
Fixpoint insertionLoop (n a b i : nat) (data : list A) : list A :=
  match n with
  | 0 => data
  | S n' =>
      if i <? b
      then insertionLoop n' a b (S i) (insertionShift a i data)
      else data
  end.

Definition insertionSort_func (data : list A) (a b : nat) : list A :=
  insertionLoop (b - a) a b (a + 1) data.

(** for i := 0; i < n; i++ { data.Swap(a+i, b+i) } *)
Fixpoint swapRangeLoop (k a b i : nat) (data : list A) : list A :=
  match k with
  | 0 => data
  | S k' => swapRangeLoop k' a b (S i) (Swap data (a + i) (b + i))
  end.

Definition swapRange_func (data : list A) (a b n : nat) : list A :=
  swapRangeLoop n a b 0 data.

(** for i != j { if i > j {...; i -= j} else {...; j -= i} }, then the last
    swapRange; returns the data and the final [i]. *)
Fixpoint rotateLoop (fuel m i j : nat) (data : list A) : list A * nat :=
  match fuel with
  | 0 => (data, i)
  | S fuel' =>
      if i =? j then (data, i)
      else if j <? i
           then rotateLoop fuel' m (i - j) j (swapRange_func data (m - i) m j)
           else rotateLoop fuel' m i (j - i) (swapRange_func data (m - i) (m + j - i) i)
  end.

Definition rotate_func (data : list A) (a m b : nat) : list A :=
  let '(data', i) := rotateLoop (b - a) m (m - a) (b - m) data in
  swapRange_func data' (m - i) m i.

(** Binary search of symMerge when the left part has one element:
    for i < j { h := (i+j)/2; if less(h, a) { i = h+1 } else { j = h } } *)
Fixpoint searchLeft (fuel a i j : nat) (data : list A) : nat :=
  match fuel with
  | 0 => i
  | S fuel' =>
      if i <? j then
        let h := (i + j) / 2 in
        if less data h a then searchLeft fuel' a (h + 1) j data
        else searchLeft fuel' a i h data
      else i
  end.

(** Binary search of symMerge when the right part has one element:
    for i < j { h := (i+j)/2; if !less(m, h) { i = h+1 } else { j = h } } *)
Fixpoint searchRight (fuel m i j : nat) (data : list A) : nat :=
  match fuel with
  | 0 => i
  | S fuel' =>
      if i <? j then
        let h := (i + j) / 2 in
        if negb (less data m h) then searchRight fuel' m (h + 1) j data
        else searchRight fuel' m i h data
      else i
  end.

(** for k := a; k < i-1; k++ { data.Swap(k, k+1) } *)
Fixpoint bubbleUp (cnt k : nat) (data : list A) : list A :=
  match cnt with
  | 0 => data
  | S cnt' => bubbleUp cnt' (S k) (Swap data k (k + 1))
  end.

(** for k := m; k > i; k-- { data.Swap(k, k-1) } *)
Fixpoint bubbleDown (cnt k : nat) (data : list A) : list A :=
  match cnt with
  | 0 => data
  | S cnt' => bubbleDown cnt' (k - 1) (Swap data k (k - 1))
  end.

(** for start < r { c := (start+r)/2; if !less(p-c, c) { start = c+1 } else { r = c } } *)
Fixpoint searchSym (fuel p start r : nat) (data : list A) : nat :=
  match fuel with
  | 0 => start
  | S fuel' =>
      if start <? r then
        let c := (start + r) / 2 in
        if negb (less data (p - c) c) then searchSym fuel' p (c + 1) r data
        else searchSym fuel' p start c data
      else start
  end.

(** symMerge_func(data, a, m, b); every recursive call is on a strictly
    shorter range, so [b - a] bounds the depth. *)
Fixpoint symMerge_fuel (fuel : nat) (data : list A) (a m b : nat) : list A :=
  match fuel with
  | 0 => data
  | S fuel' =>
      if m - a =? 1 then
        let i := searchLeft (b - m) a m b data in
        bubbleUp (i - 1 - a) a data
      else if b - m =? 1 then
        let i := searchRight (m - a) m a m data in
        bubbleDown (m - i) m data
      else
        let mid := (a + b) / 2 in
        let n := mid + m in
        let '(start, r) := if mid <? m then (n - b, mid) else (a, m) in
        let p := n - 1 in
        let start := searchSym (r - start) p start r data in
        let end_ := n - start in
        let data :=
          if (start <? m) && (m <? end_) then rotate_func data start m end_ else data in
        let data :=
          if (a <? start) && (start <? mid) then symMerge_fuel fuel' data a start mid else data in
        if (mid <? end_) && (end_ <? b) then symMerge_fuel fuel' data mid end_ b else data
  end.

Definition symMerge_func (data : list A) (a m b : nat) : list A :=
  symMerge_fuel (b - a) data a m b.

(** for b <= n { insertionSort_func(data, a, b); a = b; b += blockSize };
    returns the data and the final [a]. *)
Fixpoint blocksLoop (fuel blockSize n a b : nat) (data : list A) : list A * nat :=
  match fuel with
  | 0 => (data, a)
  | S fuel' =>
      if b <=? n
      then blocksLoop fuel' blockSize n b (b + blockSize) (insertionSort_func data a b)
      else (data, a)
  end.

(** for b <= n { symMerge_func(data, a, a+blockSize, b); a = b; b += 2*blockSize } *)
Fixpoint mergeLoop (fuel blockSize n a b : nat) (data : list A) : list A * nat :=
  match fuel with
  | 0 => (data, a)
  | S fuel' =>
      if b <=? n
      then mergeLoop fuel' blockSize n b (b + 2 * blockSize)
             (symMerge_func data a (a + blockSize) b)
      else (data, a)
  end.

(** for blockSize < n { ...; blockSize *= 2 } *)
Fixpoint roundsLoop (fuel blockSize n : nat) (data : list A) : list A :=
  match fuel with
  | 0 => data
  | S fuel' =>
      if blockSize <? n then
        let '(data, a) := mergeLoop n blockSize n 0 (2 * blockSize) data in
        let m := a + blockSize in
        let data := if m <? n then symMerge_func data a m n else data in
        roundsLoop fuel' (blockSize * 2) n data
      else data
  end.

Definition stable_func (data : list A) (n : nat) : list A :=
  let blockSize := 20 in
  let '(data, a) := blocksLoop n blockSize n 0 blockSize data in
  let data := insertionSort_func data a n in
  roundsLoop n blockSize n data.

Definition SliceStable (x : list A) : list A :=
  stable_func x (length x).

End Stable.

End sort.

(** ** AWS Systems Manager parameter store

    The service behind [Store.ssmClient], as an in-memory table from
    parameter names to values.  PutParameter refuses to replace an existing
    parameter unless the request sets Overwrite; GetParameter and
    DeleteParameter report a missing name. *)
Module ssm.

Definition ErrCodeParameterAlreadyExists : string := "ParameterAlreadyExists".
Definition ErrCodeParameterNotFound : string := "ParameterNotFound".
Definition ParameterTypeString : string := "String".

Record PutParameterInput : Type := {
  Name : string;
  Description : string;
  Type_ : string;
  Value : string;
  Overwrite : option bool   (* a *bool; nil when the request leaves it out *)
}.

Definition PutParameter (input : PutParameterInput) (params : gmap string string)
  : option error * gmap string string :=
  match params !! Name input, Overwrite input with
  | Some _, (None | Some false) =>
      (Some (awserr ErrCodeParameterAlreadyExists "The parameter already exists."), params)
  | _, _ => (None, <[Name input := Value input]> params)
  end.

Definition GetParameter (name : string) (params : gmap string string) : Result string :=
  match params !! name with
  | Some v => Ok v
  | None => Err (awserr ErrCodeParameterNotFound "Parameter not found.")
  end.

Definition DeleteParameter (name : string) (params : gmap string string)
  : option error * gmap string string :=
  match params !! name with
  | Some _ => (None, delete name params)
  | None => (Some (awserr ErrCodeParameterNotFound "Parameter not found."), params)
  end.

End ssm.

(** ** Package config: environment records *)
Module config.

(** ImportVPC holds the fields to import VPC resources. *)
Record ImportVPC : Type := {
  ID : string;
  PublicSubnetIDs : slice string;
  PrivateSubnetIDs : slice string
}.

(** AdjustVPC holds the fields to adjust default VPC resources. *)
Record AdjustVPC : Type := {
  CIDR : string;
  AZs : slice string;
  PublicSubnetCIDRs : slice string;
  PrivateSubnetCIDRs : slice string
}.

(** CustomizeEnv represents the custom environment config.  The Go fields
    are named ImportVPC and VPCConfig; the first carries the struct's name
    as a prefix here because the type already has that name. *)
Record CustomizeEnv : Type := {
  CustomizeEnv_ImportVPC : option ImportVPC;
  VPCConfig : option AdjustVPC
}.

(** Environment represents a deployment environment in an application. *)
Record Environment : Type := {
  App : string;
  Name : string;
  Region : string;
  AccountID : string;
  Prod : bool;
  RegistryURL : string;
  ExecutionRoleARN : string;
  ManagerRoleARN : string;
  CustomConfig : option CustomizeEnv
}.

(** The fields of config.Application that the modelled code reads (the
    struct is declared outside the files at hand). *)
Record Application : Type := {
  Application_Name : string;
  Application_AccountID : string;
  Application_Domain : string;
  Application_Tags : gmap string string
}.

(** NewCustomizeEnv returns a new CustomizeEnv struct. *)
Definition NewCustomizeEnv (importVPC : option ImportVPC) (adjustVPC : option AdjustVPC)
  : option CustomizeEnv :=
  match importVPC, adjustVPC with
  | None, None => None
  | _, _ => Some {| CustomizeEnv_ImportVPC := importVPC; VPCConfig := adjustVPC |}
  end.

(** What the store's methods use and the files at hand do not define: the
    two path formats, the application lookup, the listing of the values
    under a path, and the JSON encoding of an environment. *)
Class StoreDeps : Type := {
  fmtEnvParamPath : string;
  rootEnvParamPath : string;
  GetApplication : gmap string string -> string -> Result Application;
  listParams : gmap string string -> string -> Result (list string);
  marshal : Environment -> Result string;
  Unmarshal : string -> Result Environment
}.

Section Store.

Context `{StoreDeps}.

(** CreateEnvironment instantiates a new environment within an existing App.
    Skip if the environment already exists in the App.  The store is the
    state of its SSM client; the result is the error and the new state. *)
Definition CreateEnvironment (environment : Environment) (s : gmap string string)
  : option error * gmap string string :=
  match GetApplication s (App environment) with
  | Err err => (Some err, s)
  | Ok _ =>
      let environmentPath :=
        fmt.Sprintf fmtEnvParamPath [App environment; Name environment] in
      match marshal environment with
      | Err err =>
          (Some (Errorf_w "serializing environment %s: %w" [Name environment] err), s)
      | Ok data =>
          let '(err, s') :=
            ssm.PutParameter
              {| ssm.Name := environmentPath;
                 ssm.Description :=
                   fmt.Sprintf "The %s deployment stage" [Name environment];
                 ssm.Type_ := ssm.ParameterTypeString;
                 ssm.Value := data;
                 ssm.Overwrite := None |} s in
          match err with
          | Some err =>
              match err with
              | awserr code _ =>
                  if String.eqb code ssm.ErrCodeParameterAlreadyExists
                  then (None, s')
                  else (Some (Errorf_w "create environment %s in application %s: %w"
                                [Name environment; App environment] err), s')
              | _ =>
                  (Some (Errorf_w "create environment %s in application %s: %w"
                           [Name environment; App environment] err), s')
              end
          | None => (None, s')
          end
      end
  end.

(** GetEnvironment gets an environment belonging to a particular application
    by name. *)
Definition GetEnvironment (appName environmentName : string) (s : gmap string string)
  : Result Environment :=
  let environmentPath := fmt.Sprintf fmtEnvParamPath [appName; environmentName] in
  match ssm.GetParameter environmentPath s with
  | Err err =>
      match err with
      | awserr code _ =>
          if String.eqb code ssm.ErrCodeParameterNotFound
          then Err (ErrNoSuchEnvironment appName environmentName)
          else Err (Errorf_w "get environment %s in application %s: %w"
                      [environmentName; appName] err)
      | _ => Err (Errorf_w "get environment %s in application %s: %w"
                    [environmentName; appName] err)
      end
  | Ok value =>
      match Unmarshal value with
      | Err err =>
          Err (Errorf_w "read configuration for environment %s in application %s: %w"
                 [environmentName; appName] err)
      | Ok env => Ok env
      end
  end.

(** The loop of ListEnvironments: decode each value and append it, stopping
    at the first value that does not decode. *)
Fixpoint decodeEnvs (appName : string) (serializedEnvs : list string)
  (environments : list Environment) : Result (list Environment) :=
  match serializedEnvs with
  | [] => Ok environments
  | serializedEnv :: rest =>
      match Unmarshal serializedEnv with
      | Err err =>
          Err (Errorf_w "read environment configuration for application %s: %w"
                 [appName] err)
      | Ok env => decodeEnvs appName rest (environments ++ [env])
      end
  end.

(** func(i, j int) bool { return environments[i].Name < environments[j].Name } *)
Definition lessName (environments : list Environment) (i j : nat) : bool :=
  match environments !! i, environments !! j with
  | Some ei, Some ej => String.ltb (Name ei) (Name ej)
  | _, _ => false
  end.

(** func(i, j int) bool { return !environments[i].Prod } *)
Definition lessNotProd (environments : list Environment) (i j : nat) : bool :=
  match environments !! i with
  | Some ei => negb (Prod ei)
  | None => false
  end.

(** ListEnvironments returns all environments belonging to a particular
    application. *)
Definition ListEnvironments (appName : string) (s : gmap string string)
  : Result (list Environment) :=
  let environmentsPath := fmt.Sprintf rootEnvParamPath [appName] in
  match listParams s environmentsPath with
  | Err err => Err (Errorf_w "list environments for application %s: %w" [appName] err)
  | Ok serializedEnvs =>
      match decodeEnvs appName serializedEnvs [] with
      | Err err => Err err
      | Ok environments =>
          let environments := sort.SliceStable lessName environments in
          let environments := sort.SliceStable lessNotProd environments in
          Ok environments
      end
  end.

(** DeleteEnvironment removes an environment from SSM. *)
Definition DeleteEnvironment (appName environmentName : string) (s : gmap string string)
  : option error * gmap string string :=
  let paramName := fmt.Sprintf fmtEnvParamPath [appName; environmentName] in
  let '(err, s') := ssm.DeleteParameter paramName s in
  match err with
  | Some err =>
      match err with
      | awserr code _ =>
          if String.eqb code ssm.ErrCodeParameterNotFound
          then (None, s')
          else (Some (Errorf_w "delete environment %s from application %s: %w"
                        [environmentName; appName] err), s')
      | _ => (Some (Errorf_w "delete environment %s from application %s: %w"
                      [environmentName; appName] err), s')
      end
  | None => (None, s')
  end.

End Store.

End config.

(** ** Package template: workload options and template parsing *)
Module template.

(** Paths of workload cloudformation templates under templates/workloads/. *)
Definition fmtWkldCFTemplatePath : string := "workloads/%s/%s/cf.yml".
Definition fmtWkldPartialsCFTemplatePath : string := "workloads/partials/cf/%s.yml".

(** Directories under templates/workloads/. *)
Definition servicesDirName : string := "services".
Definition jobDirName : string := "jobs".

(** Names of workload templates. *)
Definition lbWebSvcTplName : string := "lb-web".
Definition rdWebSvcTplName : string := "rd-web".
Definition backendSvcTplName : string := "backend".
Definition workerSvcTplName : string := "worker".
Definition scheduledJobTplName : string := "scheduled-job".

(** AWS VPC networking configuration. *)
Definition EnablePublicIP : string := "ENABLED".
Definition DisablePublicIP : string := "DISABLED".
Definition PublicSubnetsPlacement : string := "PublicSubnets".
Definition PrivateSubnetsPlacement : string := "PrivateSubnets".

(** RuntimePlatform configuration. *)
Definition OSLinux : string := "LINUX".
Definition OSWindowsServerFull : string := "WINDOWS_SERVER_2019_FULL".
Definition OSWindowsServerCore : string := "WINDOWS_SERVER_2019_CORE".
Definition ArchX86 : string := "X86_64".
Definition ArchARM : string := "ARM".
Definition ArchARM64 : string := "ARM64".

(** Constants for ARN options. *)
Definition snsARNPattern : string := "arn:%s:sns:%s:%s:%s-%s-%s-%s".

(** Template names under "workloads/partials/cf/". *)
Definition partialsWorkloadCFTemplateNames : list string :=
  [ "loggroup";
    "envvars-container";
    "envvars-common";
    "secrets";
    "executionrole";
    "taskrole";
    "workload-container";
    "fargate-taskdef-base-properties";
    "service-base-properties";
    "servicediscovery";
    "addons";
    "sidecars";
    "logconfig";
    "autoscaling";
    "eventrule";
    "state-machine";
    "state-machine-definition.json";
    "efs-access-point";
    "env-controller";
    "mount-points";
    "volumes";
    "image-overrides";
    "instancerole";
    "accessrole";
    "publish";
    "subscribe";
    "nlb";
    "vpc-connector" ].

(** Operating systems to determine Fargate platform versions. *)
Definition osFamiliesForPV100 : list string :=
  [OSWindowsServerFull; OSWindowsServerCore].

(** WorkloadNestedStackOpts holds configuration that's needed if the
    workload stack has a nested stack. *)
Record WorkloadNestedStackOpts : Type := {
  StackName : string;
  VariableOutputs : slice string;
  SecretOutputs : slice string;
  PolicyOutputs : slice string;
  SecurityGroupOutputs : slice string
}.

(** ManagedVolumeCreationInfo holds information about how to create
    Copilot-managed access points. *)
Record ManagedVolumeCreationInfo : Type := {
  ManagedVolumeCreationInfo_Name : option string;
  DirName : option string;
  UID : option N;
  GID : option N
}.

(** StorageOpts: the field that the functions below read.  Ephemeral,
    Volumes, MountPoints and EFSPerms are only read by the templates. *)
Record StorageOpts : Type := {
  ManagedVolumeInfo : option ManagedVolumeCreationInfo
}.

(** requiresEFSCreation returns true if managed volume information is
    specified; false otherwise. *)
Definition requiresEFSCreation (s : StorageOpts) : bool :=
  match ManagedVolumeInfo s with
  | Some _ => true
  | None => false
  end.

(** DeadLetterQueue, SQSQueue and TopicSubscription. *)
Record DeadLetterQueue : Type := {
  Tries : option N
}.

Record SQSQueue : Type := {
  Retention : option Z;
  Delay : option Z;
  Timeout : option Z;
  DeadLetter : option DeadLetterQueue
}.

Record TopicSubscription : Type := {
  TopicSubscription_Name : option string;
  Service : option string;
  TopicSubscription_Queue : option SQSQueue
}.

(** SubscribeOpts holds configuration needed if the service has
    subscriptions. *)
Record SubscribeOpts : Type := {
  SubscribeOpts_Topics : list TopicSubscription;
  Queue : option SQSQueue
}.

(** HasTopicQueues returns true if any individual subscription has a
    dedicated queue. *)
Fixpoint anyTopicQueue (topics : list TopicSubscription) : bool :=
  match topics with
  | [] => false
  | t :: rest =>
      match TopicSubscription_Queue t with
      | Some _ => true
      | None => anyTopicQueue rest
      end
  end.

Definition HasTopicQueues (s : SubscribeOpts) : bool :=
  anyTopicQueue (SubscribeOpts_Topics s).

(** Topic holds information needed to render a SNSTopic in a container
    definition. *)
Record Topic : Type := {
  Name : option string;
  Region : string;
  Partition : string;
  AccountID : string;
  App : string;
  Env : string;
  Svc : string
}.

(** NetworkOpts holds AWS networking configuration for the workloads. *)
Record NetworkOpts : Type := {
  AssignPublicIP : string;
  SubnetsType : string;
  SecurityGroups : slice string
}.

(** RuntimePlatformOpts holds configuration needed for Platform
    configuration. *)
Record RuntimePlatformOpts : Type := {
  OS : string;
  Arch : string
}.

Definition isEmpty (p : RuntimePlatformOpts) : bool :=
  String.eqb (OS p) "" && String.eqb (Arch p) "".

(** IsDefault returns true if the platform matches the default docker image
    platform of "linux/amd64". *)
Definition IsDefault (p : RuntimePlatformOpts) : bool :=
  if isEmpty p then true
  else if String.eqb (OS p) OSLinux && String.eqb (Arch p) ArchX86 then true
  else false.

(** Version returns the Fargate platform version based on the selected os
    family. *)
Fixpoint versionLoop (families : list string) (p : RuntimePlatformOpts) : string :=
  match families with
  | [] => "LATEST"
  | os :: rest => if String.eqb (OS p) os then "1.0.0" else versionLoop rest p
  end.

Definition Version (p : RuntimePlatformOpts) : string :=
  versionLoop osFamiliesForPV100 p.

(** WorkloadOpts holds optional data that can be provided to enable features
    in a workload stack template.  The record has the fields that the
    functions of the package read; the remaining fields of the Go struct are
    read by the template text only. *)
Record WorkloadOpts : Type := {
  Secrets : gmap string string;
  NestedStack : option WorkloadNestedStackOpts;
  Storage : option StorageOpts;
  Network : NetworkOpts;
  Platform : RuntimePlatformOpts;
  Subscribe : option SubscribeOpts;
  WorkloadType : string
}.

Definition hasSecrets (opts : WorkloadOpts) : bool :=
  if 0 <? size (Secrets opts) then true
  else
    match NestedStack opts with
    | Some ns => if 0 <? len (SecretOutputs ns) then true else false
    | None => false
    end.

(** envControllerParameters determines which parameters to include in the
    EnvController template. *)
Definition envControllerParameters (o : WorkloadOpts) : list string :=
  let parameters := [] in
  let parameters :=
    if String.eqb (WorkloadType o) "Load Balanced Web Service"
    then parameters ++ ["ALBWorkloads,"; "Aliases,"]
    else parameters in
  let parameters :=
    if String.eqb (SubnetsType (Network o)) PrivateSubnetsPlacement
    then parameters ++ ["NATWorkloads,"]
    else parameters in
  let parameters :=
    match Storage o with
    | Some s =>
        if requiresEFSCreation s then parameters ++ ["EFSWorkloads,"] else parameters
    | None => parameters
    end in
  parameters.

Fixpoint contains (list_ : list string) (s : string) : bool :=
  match list_ with
  | [] => false
  | item :: rest => if String.eqb item s then true else contains rest s
  end.

(** ARN determines the arn for a topic using the SNSTopic name and account
    information. *)
Definition ARN (t : Topic) : string :=
  fmt.Sprintf snsARNPattern
    [Partition t; Region t; AccountID t; App t; Env t; Svc t; StringValue (Name t)].

(** A parsing option; withSvcParsingFuncs registers the named functions. *)
Inductive ParseOption : Type :=
| Funcs (names : list string).

Definition withSvcParsingFuncs : ParseOption :=
  Funcs [ "toSnakeCase"; "hasSecrets"; "fmtSlice"; "quoteSlice"; "randomUUID";
          "jsonMountPoints"; "jsonSNSTopics"; "jsonQueueURIs"; "envControllerParams";
          "logicalIDSafe"; "wordSeries"; "pluralWord"; "contains" ].

(** Content represents the parsed template: the buffer that was written. *)
Record Content : Type := {
  Buffer : string
}.

(** What parseWkld calls and the files at hand do not define: [Template.parse]
    (it reads a template file and parses it under a name) and, from
    text/template, the parse tree of a template, AddParseTree (it changes the
    receiver) and Execute (it writes to the buffer, also when it fails). *)
Class Engine (Tpl Tree Data : Type) : Type := {
  parse : string -> string -> list ParseOption -> Result Tpl;
  Tree_of : Tpl -> Tree;
  AddParseTree : Tpl -> string -> Tree -> option error * Tpl;
  Execute : Tpl -> Data -> string * option error
}.

(** The calls parseWkld makes, in order, each with its outcome. *)
Inductive Event : Type :=
| EvParse (name path : string) (ok : bool)
| EvAddParseTree (name : string) (ok : bool)
| EvExecute (ok : bool).

Definition succeeded {A : Type} (r : Result A) : bool :=
  match r with
  | Ok _ => true
  | Err _ => false
  end.

Definition isNilErr (e : option error) : bool :=
  match e with
  | None => true
  | Some _ => false
  end.

Section Parse.

Context {Tpl Tree Data : Type} `{Engine Tpl Tree Data}.

(** fmt.Sprintf(fmtWkldPartialsCFTemplatePath, templateName) *)
Definition partialPath (templateName : string) : string :=
  fmt.Sprintf fmtWkldPartialsCFTemplatePath [templateName].

(** for _, templateName := range partialsWorkloadCFTemplateNames { ... } :
    returns the error that ended the loop, if any, the base template and the
    calls made. *)
Fixpoint attachPartials (names : list string) (options : list ParseOption) (tpl : Tpl)
  : option error * Tpl * list Event :=
  match names with
  | [] => (None, tpl, [])
  | templateName :: rest =>
      let path := partialPath templateName in
      let r := parse templateName path options in
      match r with
      | Err err => (Some err, tpl, [EvParse templateName path false])
      | Ok nestedTpl =>
          let '(err, tpl') := AddParseTree tpl templateName (Tree_of nestedTpl) in
          match err with
          | Some err =>
              (Some (Errorf_w "add parse tree of %s to base template: %w" [templateName] err),
               tpl',
               [EvParse templateName path true; EvAddParseTree templateName false])
          | None =>
              let '(e, tpl'', evs) := attachPartials rest options tpl' in
              (e, tpl'',
               EvParse templateName path true :: EvAddParseTree templateName true :: evs)
          end
      end
  end.

Definition parseWkld (name wkldDirName : string) (data : Data) (options : list ParseOption)
  : Result Content * list Event :=
  let path := fmt.Sprintf fmtWkldCFTemplatePath [wkldDirName; name] in
  match parse "base" path options with
  | Err err => (Err err, [EvParse "base" path false])
  | Ok tpl =>
      let '(err, tpl, evs) := attachPartials partialsWorkloadCFTemplateNames options tpl in
      match err with
      | Some err => (Err err, EvParse "base" path true :: evs)
      | None =>
          let '(buf, err) := Execute tpl data in
          match err with
          | Some err =>
              (Err (Errorf_w "execute template %s with data %v: %w" [name] err),
               EvParse "base" path true :: evs ++ [EvExecute false])
          | None =>
              (Ok {| Buffer := buf |},
               EvParse "base" path true :: evs ++ [EvExecute true])
          end
      end
  end.

(** parseSvc parses a service's CloudFormation template with the specified
    data object and returns its content. *)
Definition parseSvc (name : string) (data : Data) (options : list ParseOption)
  : Result Content * list Event :=
  parseWkld name servicesDirName data options.

(** parseJob parses a job's Cloudformation template with the specified data
    object and returns its content. *)
Definition parseJob (name : string) (data : Data) (options : list ParseOption)
  : Result Content * list Event :=
  parseWkld name jobDirName data options.

Definition ParseLoadBalancedWebService (data : Data) : Result Content * list Event :=
  parseSvc lbWebSvcTplName data [withSvcParsingFuncs].

Definition ParseRequestDrivenWebService (data : Data) : Result Content * list Event :=
  parseSvc rdWebSvcTplName data [withSvcParsingFuncs].

Definition ParseBackendService (data : Data) : Result Content * list Event :=
  parseSvc backendSvcTplName data [withSvcParsingFuncs].

Definition ParseWorkerService (data : Data) : Result Content * list Event :=
  parseSvc workerSvcTplName data [withSvcParsingFuncs].

Definition ParseScheduledJob (data : Data) : Result Content * list Event :=
  parseJob scheduledJobTplName data [withSvcParsingFuncs].

End Parse.

End template.

(** ** Types of the packages that package cli calls *)

Module identity.

(** identity.Caller: the account and the root user ARN of the caller. *)
Record Caller : Type := {
  Account : string;
  RootUserARN : string
}.

End identity.

Module deploy.

(** deploy.AppInformation *)
Record AppInformation : Type := {
  AppInformation_Name : string;
  DNSName : string;
  AccountPrincipalARN : string
}.

(** deploy.CreateEnvironmentInput *)
Record CreateEnvironmentInput : Type := {
  Name : string;
  App : AppInformation;
  Prod : bool;
  AdditionalTags : gmap string string;
  CustomResourcesURLs : gmap string string;
  AdjustVPCConfig : option config.AdjustVPC;
  ImportVPCConfig : option config.ImportVPC;
  Version : string
}.

End deploy.

Module deploycfn.

(** deploycfn.AddEnvToAppOpts *)
Record AddEnvToAppOpts : Type := {
  App : config.Application;
  EnvName : string;
  EnvRegion : string;
  EnvAccountID : string
}.

End deploycfn.

Module selector.

(** selector.SubnetsInput *)
Record SubnetsInput : Type := {
  Msg : string;
  Help : string;
  VPCID : string;
  IsPublic : bool
}.

End selector.

Module strings.

(** strings.Split(s, sep) for a separator of one byte. *)
Fixpoint splitByte (sep : ascii) (s : string) (cur : string) : list string :=
  match s with
  | EmptyString => [cur]
  | String c rest =>
      if Ascii.eqb c sep
      then cur :: splitByte sep rest ""
      else splitByte sep rest (cur +:+ String c "")
  end.

Definition Split (s : string) (sep : ascii) : list string := splitByte sep s "".

End strings.

(** ** Package cli: the env init command *)
Module cli.

Definition envInitAppNameHelpPrompt : string :=
  "An environment will be created in the selected application.".
Definition envInitNamePrompt : string := "What is your environment's name?".
Definition envInitNameHelpPrompt : string :=
  "A unique identifier for an environment (e.g. dev, test, prod).".
Definition envInitDefaultEnvConfirmPrompt : string :=
  "Would you like to use the default configuration for a new environment?
    - A new VPC with 2 AZs, 2 public subnets and 2 private subnets
    - A new ECS Cluster
    - New IAM Roles to manage services and jobs in your environment
".
Definition envInitVPCSelectPrompt : string := "Which VPC would you like to use?".
Definition envInitPublicSubnetsSelectPrompt : string :=
  "Which public subnets would you like to use?
You may choose to press 'Enter' to skip this step if the services and/or jobs you'll deploy to this environment are not internet-facing.".
Definition envInitPrivateSubnetsSelectPrompt : string :=
  "Which private subnets would you like to use?".
Definition envInitVPCCIDRPrompt : string := "What VPC CIDR would you like to use?".
Definition envInitVPCCIDRPromptHelp : string :=
  "CIDR used for your VPC. For example: 10.1.0.0/16".
Definition envInitAdjustAZPrompt : string :=
  "Which availability zones would you like to use?".
Definition envInitAdjustAZPromptHelp : string :=
  "Availability zone names that span your resources. For example: us-east-1a,us-east1b,us-east-1c".
Definition envInitPublicCIDRPrompt : string :=
  "What CIDR would you like to use for your public subnets?".
Definition envInitPublicCIDRPromptHelp : string :=
  "CIDRs used for your public subnets. For example: 10.1.0.0/24,10.1.1.0/24".
Definition envInitPrivateCIDRPrompt : string :=
  "What CIDR would you like to use for your private subnets?".
Definition envInitPrivateCIDRPromptHelp : string :=
  "CIDRs used for your private subnets. For example: 10.1.2.0/24,10.1.3.0/24".

Definition fmtDNSDelegationStart : string :=
  "Sharing DNS permissions for this application to account %s.".
Definition fmtDNSDelegationFailed : string :=
  "Failed to grant DNS permissions to account %s.

".
Definition fmtDNSDelegationComplete : string :=
  "Shared DNS permissions for this application to account %s.

".
Definition fmtAddEnvToAppStart : string :=
  "Linking account %s and region %s to application %s.".
Definition fmtAddEnvToAppFailed : string :=
  "Failed to link account %s and region %s to application %s.

".
Definition fmtAddEnvToAppComplete : string :=
  "Linked account %s and region %s to application %s.

".

Definition envInitDefaultConfigSelectOption : string := "Yes, use default.".
Definition envInitAdjustEnvResourcesSelectOption : string :=
  "Yes, but I'd like configure the default resources (CIDR ranges, AZs).".
Definition envInitImportEnvResourcesSelectOption : string :=
  "No, I'd like to import existing resources (VPC, subnets).".
Definition envInitCustomizedEnvTypes : list string :=
  [ envInitDefaultConfigSelectOption;
    envInitAdjustEnvResourcesSelectOption;
    envInitImportEnvResourcesSelectOption ].

Record importVPCVars : Type := {
  ID : string;
  PublicSubnetIDs : slice string;
  PrivateSubnetIDs : slice string
}.

Definition importVPCVars_isSet (v : importVPCVars) : bool :=
  if negb (String.eqb (ID v) "") then true
  else (0 <? len (PublicSubnetIDs v)) || (0 <? len (PrivateSubnetIDs v)).

(** net.IPNet, by the text that its String method prints. *)
Record IPNet : Type := {
  IPNet_String : string
}.

(** The zero net.IPNet, which is also the default of the VPC CIDR flag; its
    String method prints "<nil>". *)
Definition emptyIPNet : IPNet := {| IPNet_String := "<nil>" |}.

Record adjustVPCVars : Type := {
  CIDR : IPNet;
  AZs : slice string;
  PublicSubnetCIDRs : slice string;
  PrivateSubnetCIDRs : slice string
}.

Fixpoint anyNonEmpty (arrs : list (slice string)) : bool :=
  match arrs with
  | [] => false
  | arr :: rest => if negb (len arr =? 0) then true else anyNonEmpty rest
  end.

Definition adjustVPCVars_isSet (v : adjustVPCVars) : bool :=
  if negb (String.eqb (IPNet_String (CIDR v)) (IPNet_String emptyIPNet)) then true
  else anyNonEmpty [AZs v; PublicSubnetCIDRs v; PrivateSubnetCIDRs v].

Record tempCredsVars : Type := {
  AccessKeyID : string;
  SecretAccessKey : string;
  SessionToken : string
}.

Definition tempCredsVars_isSet (v : tempCredsVars) : bool :=
  negb (String.eqb (AccessKeyID v) "") && negb (String.eqb (SecretAccessKey v) "").

Record initEnvVars : Type := {
  appName : string;
  name : string;
  profile : string;
  isProduction : bool;
  defaultConfig : bool;
  importVPC : importVPCVars;
  adjustVPC : adjustVPCVars;
  tempCreds : tempCredsVars;
  region : string
}.

(** initEnvOpts: the variables and the region of the session.  The injected
    interfaces are the handlers of [Clients] below. *)
Record initEnvOpts : Type := {
  vars : initEnvVars;
  sess_Config_Region : option string
}.

Definition set_importVPC (o : initEnvOpts) (v : importVPCVars) : initEnvOpts :=
  {| vars :=
       {| appName := appName (vars o); name := name (vars o); profile := profile (vars o);
          isProduction := isProduction (vars o); defaultConfig := defaultConfig (vars o);
          importVPC := v; adjustVPC := adjustVPC (vars o);
          tempCreds := tempCreds (vars o); region := region (vars o) |};
     sess_Config_Region := sess_Config_Region o |}.

Definition set_adjustVPC (o : initEnvOpts) (v : adjustVPCVars) : initEnvOpts :=
  {| vars :=
       {| appName := appName (vars o); name := name (vars o); profile := profile (vars o);
          isProduction := isProduction (vars o); defaultConfig := defaultConfig (vars o);
          importVPC := importVPC (vars o); adjustVPC := v;
          tempCreds := tempCreds (vars o); region := region (vars o) |};
     sess_Config_Region := sess_Config_Region o |}.

Definition set_ID (v : importVPCVars) (id : string) : importVPCVars :=
  {| ID := id; PublicSubnetIDs := PublicSubnetIDs v; PrivateSubnetIDs := PrivateSubnetIDs v |}.

Definition set_PublicSubnetIDs (v : importVPCVars) (s : slice string) : importVPCVars :=
  {| ID := ID v; PublicSubnetIDs := s; PrivateSubnetIDs := PrivateSubnetIDs v |}.

Definition set_PrivateSubnetIDs (v : importVPCVars) (s : slice string) : importVPCVars :=
  {| ID := ID v; PublicSubnetIDs := PublicSubnetIDs v; PrivateSubnetIDs := s |}.

Definition set_CIDR (v : adjustVPCVars) (c : IPNet) : adjustVPCVars :=
  {| CIDR := c; AZs := AZs v; PublicSubnetCIDRs := PublicSubnetCIDRs v;
     PrivateSubnetCIDRs := PrivateSubnetCIDRs v |}.

Definition set_AZs (v : adjustVPCVars) (s : slice string) : adjustVPCVars :=
  {| CIDR := CIDR v; AZs := s; PublicSubnetCIDRs := PublicSubnetCIDRs v;
     PrivateSubnetCIDRs := PrivateSubnetCIDRs v |}.

Definition set_PublicSubnetCIDRs (v : adjustVPCVars) (s : slice string) : adjustVPCVars :=
  {| CIDR := CIDR v; AZs := AZs v; PublicSubnetCIDRs := s;
     PrivateSubnetCIDRs := PrivateSubnetCIDRs v |}.

Definition set_PrivateSubnetCIDRs (v : adjustVPCVars) (s : slice string) : adjustVPCVars :=
  {| CIDR := CIDR v; AZs := AZs v; PublicSubnetCIDRs := PublicSubnetCIDRs v;
     PrivateSubnetCIDRs := s |}.

(** A line written by package log, with its level. *)
Inductive LogLevel : Type :=
| LogError
| LogWarning
| LogSuccess.

(** The calls on the injected interfaces, each with its operands and its
    answer, and the lines written to the terminal. *)
Inductive Event : Type :=
| EvStoreGetApplication (appName : string) (r : Result config.Application)
| EvStoreGetEnvironment (appName envName : string) (r : Result config.Environment)
| EvStoreCreateEnvironment (env : config.Environment) (r : option error)
| EvDeployAndRenderEnvironment (input : deploy.CreateEnvironmentInput) (r : option error)
| EvDeployerGetEnvironment (appName envName : string) (r : Result config.Environment)
| EvAddEnvToApp (opts : deploycfn.AddEnvToAppOpts) (r : option error)
| EvDelegateDNSPermissions (app : config.Application) (accountID : string) (r : option error)
| EvIdentityGet (r : Result identity.Caller)
| EvEnvIdentityGet (r : Result identity.Caller)
| EvHasDNSSupport (vpcID : string) (r : Result bool)
| EvListAZs (r : Result (list string))
| EvCreateECSServiceLinkedRole (r : option error)
| EvListRoleTags (roleName : string) (r : Result (gmap string string))
| EvDeleteRole (roleName : string) (r : option error)
| EvCfnExists (stackName : string) (r : Result bool)
| EvPromptGet (message help : string) (r : Result string)
| EvPromptSelectOne (message help : string) (options : list string) (r : Result string)
| EvPromptMultiSelect (message help : string) (options : list string) (r : Result (slice string))
| EvSelectVPC (message help : string) (r : Result string)
| EvSelectSubnets (input : selector.SubnetsInput) (r : slice string * option error)
| EvGetAppResourcesByRegion (app : config.Application) (region : string) (r : Result string)
| EvNewS3 (region : string) (r : option error)
| EvUploadEnvironmentCustomResources (bucket : string) (r : Result (gmap string string))
| EvProgStart (label : string)
| EvProgStop (label : string)
| EvLog (level : LogLevel) (message : string).

(** The collaborators of the command over a world [W]: one handler per
    method that the command calls on an injected interface, and the
    constants and pure functions that other files of the repository
    define.  ListAZs answers with the names of the zones, and
    GetAppResourcesByRegion with the S3 bucket of the regional resources;
    these are the only parts of their answers that the command reads.
    Serrorf and Ssuccessf are the functions of package log that format a
    message and mark it as a failure or a success. *)
Class Clients (W : Type) : Type := {
  on_store_GetApplication : string -> W -> Result config.Application * W;
  on_store_GetEnvironment : string -> string -> W -> Result config.Environment * W;
  on_store_CreateEnvironment : config.Environment -> W -> option error * W;
  on_envDeployer_DeployAndRenderEnvironment :
    deploy.CreateEnvironmentInput -> W -> option error * W;
  on_envDeployer_GetEnvironment : string -> string -> W -> Result config.Environment * W;
  on_appDeployer_AddEnvToApp : deploycfn.AddEnvToAppOpts -> W -> option error * W;
  on_appDeployer_DelegateDNSPermissions :
    config.Application -> string -> W -> option error * W;
  on_identity_Get : W -> Result identity.Caller * W;
  on_envIdentity_Get : W -> Result identity.Caller * W;
  on_ec2Client_HasDNSSupport : string -> W -> Result bool * W;
  on_ec2Client_ListAZs : W -> Result (list string) * W;
  on_iam_CreateECSServiceLinkedRole : W -> option error * W;
  on_iam_ListRoleTags : string -> W -> Result (gmap string string) * W;
  on_iam_DeleteRole : string -> W -> option error * W;
  on_cfn_Exists : string -> W -> Result bool * W;
  on_prompt_Get : string -> string -> W -> Result string * W;
  on_prompt_SelectOne : string -> string -> list string -> W -> Result string * W;
  on_prompt_MultiSelect : string -> string -> list string -> W -> Result (slice string) * W;
  on_selVPC_VPC : string -> string -> W -> Result string * W;
  on_selVPC_Subnets : selector.SubnetsInput -> W -> (slice string * option error) * W;
  on_appCFN_GetAppResourcesByRegion : config.Application -> string -> W -> Result string * W;
  on_newS3 : string -> W -> option error * W;
  on_uploader_UploadEnvironmentCustomResources :
    string -> W -> Result (gmap string string) * W;

  validateEnvironmentName : string -> option error;
  RequiresDNSDelegation : config.Application -> bool;
  NameForEnv : string -> string -> string;
  ParseCIDR : string -> Result IPNet;
  EnvTagKey : string;
  LatestEnvTemplateVersion : string;
  defaultConfigFlag : string;
  profileFlag : string;
  accessKeyIDFlag : string;
  secretAccessKeyFlag : string;
  sessionTokenFlag : string;
  Serrorf : string -> list string -> string;
  Ssuccessf : string -> list string -> string
}.

(** The state that a method of initEnvOpts works on. *)
Record state (W : Type) : Type := {
  opts : initEnvOpts;
  world : W
}.

Arguments opts {W} s.
Arguments world {W} s.

(** A method body: from a state to its result, the new state and the calls
    it made. *)
Definition M (W A : Type) : Type := state W -> A * state W * list Event.

Definition ret {W A : Type} (a : A) : M W A := fun st => (a, st, []).

Definition bind {W A B : Type} (m : M W A) (k : A -> M W B) : M W B :=
  fun st =>
    let '(a, st1, l1) := m st in
    let '(b, st2, l2) := k a st1 in
    (b, st2, l1 ++ l2).

Notation "x <- m ;; k" := (bind m (fun x => k))
  (at level 100, m at next level, right associativity).
Notation "m ;;; k" := (bind m (fun _ => k))
  (at level 100, right associativity).

(** A call on an interface: the handler answers and the call is logged. *)
Definition call {W R : Type} (h : W -> R * W) (ev : R -> Event) : M W R :=
  fun st =>
    let '(r, w) := h (world st) in
    (r, {| opts := opts st; world := w |}, [ev r]).

Definition emit {W : Type} (ev : Event) : M W unit := fun st => (tt, st, [ev]).

Definition get {W : Type} : M W initEnvOpts := fun st => (opts st, st, []).

Definition put {W : Type} (o : initEnvOpts) : M W unit :=
  fun st => (tt, {| opts := o; world := world st |}, []).

(** for _, x := range l { body x } *)
Fixpoint for_range {W A : Type} (l : list A) (body : A -> M W unit) : M W unit :=
  match l with
  | [] => ret tt
  | x :: rest => body x ;;; for_range rest body
  end.

(** Package color styles text for the terminal; the styles leave the text
    itself as it is. *)
Definition Emphasize (s : string) : string := s.
Definition HighlightUserInput (s : string) : string := s.
Definition HighlightCode (s : string) : string := s.

Definition isErr {A : Type} (r : Result A) : bool :=
  match r with
  | Ok _ => false
  | Err _ => true
  end.

Section Methods.

Context {W : Type} `{Clients W}.

Definition store_GetApplication (appName : string) : M W (Result config.Application) :=
  call (on_store_GetApplication appName) (EvStoreGetApplication appName).

Definition store_GetEnvironment (appName envName : string) : M W (Result config.Environment) :=
  call (on_store_GetEnvironment appName envName) (EvStoreGetEnvironment appName envName).

Definition store_CreateEnvironment (env : config.Environment) : M W (option error) :=
  call (on_store_CreateEnvironment env) (EvStoreCreateEnvironment env).

Definition envDeployer_DeployAndRenderEnvironment (input : deploy.CreateEnvironmentInput)
  : M W (option error) :=
  call (on_envDeployer_DeployAndRenderEnvironment input) (EvDeployAndRenderEnvironment input).

Definition envDeployer_GetEnvironment (appName envName : string)
  : M W (Result config.Environment) :=
  call (on_envDeployer_GetEnvironment appName envName) (EvDeployerGetEnvironment appName envName).

Definition appDeployer_AddEnvToApp (opts : deploycfn.AddEnvToAppOpts) : M W (option error) :=
  call (on_appDeployer_AddEnvToApp opts) (EvAddEnvToApp opts).

Definition appDeployer_DelegateDNSPermissions (app : config.Application) (accountID : string)
  : M W (option error) :=
  call (on_appDeployer_DelegateDNSPermissions app accountID) (EvDelegateDNSPermissions app accountID).

Definition identity_Get : M W (Result identity.Caller) :=
  call on_identity_Get EvIdentityGet.

Definition envIdentity_Get : M W (Result identity.Caller) :=
  call on_envIdentity_Get EvEnvIdentityGet.

Definition ec2Client_HasDNSSupport (vpcID : string) : M W (Result bool) :=
  call (on_ec2Client_HasDNSSupport vpcID) (EvHasDNSSupport vpcID).

Definition ec2Client_ListAZs : M W (Result (list string)) :=
  call on_ec2Client_ListAZs EvListAZs.

Definition iam_CreateECSServiceLinkedRole : M W (option error) :=
  call on_iam_CreateECSServiceLinkedRole EvCreateECSServiceLinkedRole.

Definition iam_ListRoleTags (roleName : string) : M W (Result (gmap string string)) :=
  call (on_iam_ListRoleTags roleName) (EvListRoleTags roleName).

Definition iam_DeleteRole (roleName : string) : M W (option error) :=
  call (on_iam_DeleteRole roleName) (EvDeleteRole roleName).

Definition cfn_Exists (stackName : string) : M W (Result bool) :=
  call (on_cfn_Exists stackName) (EvCfnExists stackName).

Definition prompt_Get (message help : string) : M W (Result string) :=
  call (on_prompt_Get message help) (EvPromptGet message help).

Definition prompt_SelectOne (message help : string) (options : list string)
  : M W (Result string) :=
  call (on_prompt_SelectOne message help options) (EvPromptSelectOne message help options).

Definition prompt_MultiSelect (message help : string) (options : list string)
  : M W (Result (slice string)) :=
  call (on_prompt_MultiSelect message help options) (EvPromptMultiSelect message help options).

Definition selVPC_VPC (message help : string) : M W (Result string) :=
  call (on_selVPC_VPC message help) (EvSelectVPC message help).

Definition selVPC_Subnets (input : selector.SubnetsInput) : M W (slice string * option error) :=
  call (on_selVPC_Subnets input) (EvSelectSubnets input).

Definition appCFN_GetAppResourcesByRegion (app : config.Application) (region : string)
  : M W (Result string) :=
  call (on_appCFN_GetAppResourcesByRegion app region) (EvGetAppResourcesByRegion app region).

Definition newS3 (region : string) : M W (option error) :=
  call (on_newS3 region) (EvNewS3 region).

Definition uploader_UploadEnvironmentCustomResources (bucket : string)
  : M W (Result (gmap string string)) :=
  call (on_uploader_UploadEnvironmentCustomResources bucket)
       (EvUploadEnvironmentCustomResources bucket).

Definition validateCustomizedResources (o : initEnvVars) : option error :=
  if importVPCVars_isSet (importVPC o) && adjustVPCVars_isSet (adjustVPC o) then
    Some (errors.New "cannot specify both import vpc flags and configure vpc flags")
  else if (importVPCVars_isSet (importVPC o) || adjustVPCVars_isSet (adjustVPC o))
          && defaultConfig o then
    Some (errorString
            (fmt.Sprintf "cannot import or configure vpc if --%s is set" [defaultConfigFlag]))
  else
    let imported :=
      if importVPCVars_isSet (importVPC o) then
        if len (PublicSubnetIDs (importVPC o)) =? 1 then
          Some (errors.New
                  "at least two public subnets must be imported to enable Load Balancing")
        else if len (PrivateSubnetIDs (importVPC o)) =? 1 then
          Some (errorString "at least two private subnets must be imported")
        else None
      else None in
    match imported with
    | Some err => Some err
    | None =>
        if adjustVPCVars_isSet (adjustVPC o) then
          if len (AZs (adjustVPC o)) =? 1 then
            Some (errors.New
                    "at least two availability zones must be provided to enable Load Balancing")
          else None
        else None
    end.

Definition validateCredentials (o : initEnvVars) : option error :=
  if negb (String.eqb (profile o) "") && negb (String.eqb (AccessKeyID (tempCreds o)) "") then
    Some (errorString
            (fmt.Sprintf "cannot specify both --%s and --%s" [profileFlag; accessKeyIDFlag]))
  else if negb (String.eqb (profile o) "")
          && negb (String.eqb (SecretAccessKey (tempCreds o)) "") then
    Some (errorString
            (fmt.Sprintf "cannot specify both --%s and --%s" [profileFlag; secretAccessKeyFlag]))
  else if negb (String.eqb (profile o) "")
          && negb (String.eqb (SessionToken (tempCreds o)) "") then
    Some (errorString
            (fmt.Sprintf "cannot specify both --%s and --%s" [profileFlag; sessionTokenFlag]))
  else None.

Definition validateDuplicateEnv : M W (option error) :=
  o <- get ;;
  r <- store_GetEnvironment (appName (vars o)) (name (vars o)) ;;
  match r with
  | Ok _ =>
      emit (EvLog LogError
              (fmt.Sprintf "It seems like you are trying to init an environment that already exists.
To recreate the environment, please run:
1. %s
2. And then %s
"
                 [ HighlightCode
                     (fmt.Sprintf "copilot env delete --name %s" [name (vars o)]);
                   HighlightCode
                     (fmt.Sprintf "copilot env init --name %s" [name (vars o)]) ])) ;;;
      ret (Some (errorString
                   (fmt.Sprintf "environment %s already exists"
                      [HighlightUserInput (name (vars o))])))
  | Err err =>
      if negb (errors.As_NoSuchEnvironment err)
      then ret (Some (Errorf_w "validate if environment exists: %w" [] err))
      else ret None
  end.

(** Validate returns an error if the values passed by flags are invalid. *)
Definition Validate : M W (option error) :=
  o <- get ;;
  r <- (if negb (String.eqb (name (vars o)) "") then
          match validateEnvironmentName (name (vars o)) with
          | Some err => ret (Some err)
          | None => validateDuplicateEnv
          end
        else ret None) ;;
  match r with
  | Some err => ret (Some err)
  | None =>
      o <- get ;;
      match validateCustomizedResources (vars o) with
      | Some err => ret (Some err)
      | None => ret (validateCredentials (vars o))
      end
  end.

Definition askImportResources : M W (option error) :=
  o <- get ;;
  r <- (if String.eqb (ID (importVPC (vars o))) "" then
          r <- selVPC_VPC envInitVPCSelectPrompt "" ;;
          match r with
          | Err err =>
              (if errors.isVPCNotFound err then
                 emit (EvLog LogError "No existing VPCs were found. You can either:
- Create a new VPC first and then import it.
- Use the default Copilot environment configuration.
")
               else ret tt) ;;;
              ret (Some (Errorf_w "select VPC: %w" [] err))
          | Ok vpcID =>
              o <- get ;;
              put (set_importVPC o (set_ID (importVPC (vars o)) vpcID)) ;;;
              ret None
          end
        else ret None) ;;
  match r with
  | Some err => ret (Some err)
  | None =>
  o <- get ;;
  r <- ec2Client_HasDNSSupport (ID (importVPC (vars o))) ;;
  match r with
  | Err err =>
      ret (Some (Errorf_w "check if VPC %s has DNS support enabled: %w"
                   [ID (importVPC (vars o))] err))
  | Ok dnsSupport =>
  if negb dnsSupport then
    emit (EvLog LogError "Looks like you're creating an environment using a VPC with DNS support *disabled*.
Copilot cannot create services or jobs in VPCs without DNS support. We recommend enabling this property.
To learn more about the issue:
https://aws.amazon.com/premiumsupport/knowledge-center/ecs-pull-container-api-error-ecr/
") ;;;
    ret (Some (errorString
                 (fmt.Sprintf "VPC %s has no DNS support enabled" [ID (importVPC (vars o))])))
  else
  r <- (if isNil (PublicSubnetIDs (importVPC (vars o))) then
          res <- selVPC_Subnets
                   {| selector.Msg := envInitPublicSubnetsSelectPrompt;
                      selector.Help := "";
                      selector.VPCID := ID (importVPC (vars o));
                      selector.IsPublic := true |} ;;
          let publicSubnets := fst res in
          r <- match snd res with
               | Some err =>
                   if errors.Is_SubnetsNotFound err then
                     emit (EvLog LogWarning
                             (fmt.Sprintf "No existing subnets were found in VPC %s.
If you proceed without at least two public subnets, you will not be able to deploy Load Balanced Web Services in this environment.
"
                                [ID (importVPC (vars o))])) ;;;
                     ret None
                   else ret (Some (Errorf_w "select public subnets: %w" [] err))
               | None => ret None
               end ;;
          match r with
          | Some err => ret (Some err)
          | None =>
              if len publicSubnets =? 1 then
                ret (Some (errors.New
                             "select public subnets: at least two public subnets must be selected to enable Load Balancing"))
              else
                o <- get ;;
                put (set_importVPC o (set_PublicSubnetIDs (importVPC (vars o)) publicSubnets)) ;;;
                ret None
          end
        else ret None) ;;
  match r with
  | Some err => ret (Some err)
  | None =>
  o <- get ;;
  if isNil (PrivateSubnetIDs (importVPC (vars o))) then
    res <- selVPC_Subnets
             {| selector.Msg := envInitPrivateSubnetsSelectPrompt;
                selector.Help := "";
                selector.VPCID := ID (importVPC (vars o));
                selector.IsPublic := false |} ;;
    let privateSubnets := fst res in
    match snd res with
    | Some err =>
        (if errors.isSubnetsNotFound err then
           emit (EvLog LogError
                   (fmt.Sprintf "No existing subnets were found in VPC %s. You can either:
- Create new private subnets and then import them.
- Use the default Copilot environment configuration."
                      [ID (importVPC (vars o))]))
         else ret tt) ;;;
        ret (Some (Errorf_w "select private subnets: %w" [] err))
    | None =>
        if len privateSubnets <? 2 then
          ret (Some (errors.New
                       "select private subnets: at least two private subnets must be selected"))
        else
          o <- get ;;
          put (set_importVPC o (set_PrivateSubnetIDs (importVPC (vars o)) privateSubnets)) ;;;
          ret None
    end
  else ret None
  end
  end
  end.

(** askAZs; the options offered are the names of the zones, and the format
    of the second error has its %d verb filled with minAZs, which is 2. *)
Definition askAZs : M W (Result (slice string)) :=
  o <- get ;;
  if negb (isNil (AZs (adjustVPC (vars o)))) then ret (Ok (AZs (adjustVPC (vars o))))
  else
    r <- ec2Client_ListAZs ;;
    match r with
    | Err err =>
        ret (Err (Errorf_v "list availability zones for region %s: %v"
                    [StringValue (sess_Config_Region o)] err))
    | Ok azs =>
        let options := azs in
        let minAZs := 2 in
        if length options <? minAZs then
          ret (Err (errorString
                      (fmt.Sprintf "requires at least 2 availability zones (%s) in region %s"
                         [String.concat ", " options; StringValue (sess_Config_Region o)])))
        else
          r <- prompt_MultiSelect envInitAdjustAZPrompt envInitAdjustAZPromptHelp options ;;
          match r with
          | Err err => ret (Err (Errorf_v "select availability zones: %v" [] err))
          | Ok selected => ret (Ok selected)
          end
    end.

Definition askAdjustResources : M W (option error) :=
  o <- get ;;
  r <- (if String.eqb (IPNet_String (CIDR (adjustVPC (vars o)))) (IPNet_String emptyIPNet) then
          r <- prompt_Get envInitVPCCIDRPrompt envInitVPCCIDRPromptHelp ;;
          match r with
          | Err err => ret (Some (Errorf_w "get VPC CIDR: %w" [] err))
          | Ok vpcCIDRString =>
              match ParseCIDR vpcCIDRString with
              | Err err => ret (Some (Errorf_w "parse VPC CIDR: %w" [] err))
              | Ok vpcCIDR =>
                  o <- get ;;
                  put (set_adjustVPC o (set_CIDR (adjustVPC (vars o)) vpcCIDR)) ;;;
                  ret None
              end
          end
        else ret None) ;;
  match r with
  | Some err => ret (Some err)
  | None =>
  r <- askAZs ;;
  match r with
  | Err err => ret (Some err)
  | Ok azs =>
  o <- get ;;
  put (set_adjustVPC o (set_AZs (adjustVPC (vars o)) azs)) ;;;
  o <- get ;;
  r <- (if isNil (PublicSubnetCIDRs (adjustVPC (vars o))) then
          r <- prompt_Get envInitPublicCIDRPrompt envInitPublicCIDRPromptHelp ;;
          match r with
          | Err err => ret (Some (Errorf_w "get public subnet CIDRs: %w" [] err))
          | Ok publicCIDR =>
              o <- get ;;
              put (set_adjustVPC o
                     (set_PublicSubnetCIDRs (adjustVPC (vars o))
                        (Some (strings.Split publicCIDR ",")))) ;;;
              ret None
          end
        else ret None) ;;
  match r with
  | Some err => ret (Some err)
  | None =>
  o <- get ;;
  if isNil (PrivateSubnetCIDRs (adjustVPC (vars o))) then
    r <- prompt_Get envInitPrivateCIDRPrompt envInitPrivateCIDRPromptHelp ;;
    match r with
    | Err err => ret (Some (Errorf_w "get private subnet CIDRs: %w" [] err))
    | Ok privateCIDR =>
        o <- get ;;
        put (set_adjustVPC o
               (set_PrivateSubnetCIDRs (adjustVPC (vars o))
                  (Some (strings.Split privateCIDR ",")))) ;;;
        ret None
    end
  else ret None
  end
  end
  end.

Definition askCustomizedResources : M W (option error) :=
  o <- get ;;
  if defaultConfig (vars o) then ret None
  else if importVPCVars_isSet (importVPC (vars o)) then askImportResources
  else if adjustVPCVars_isSet (adjustVPC (vars o)) then askAdjustResources
  else
    r <- prompt_SelectOne envInitDefaultEnvConfirmPrompt "" envInitCustomizedEnvTypes ;;
    match r with
    | Err err => ret (Some (Errorf_w "select adjusting or importing resources: %w" [] err))
    | Ok adjustOrImport =>
        if String.eqb adjustOrImport envInitImportEnvResourcesSelectOption
        then askImportResources
        else if String.eqb adjustOrImport envInitAdjustEnvResourcesSelectOption
        then askAdjustResources
        else if String.eqb adjustOrImport envInitDefaultConfigSelectOption
        then ret None
        else ret None
    end.

Definition importVPCConfig (o : initEnvVars) : option config.ImportVPC :=
  if defaultConfig o || negb (importVPCVars_isSet (importVPC o)) then None
  else Some {| config.ID := ID (importVPC o);
               config.PrivateSubnetIDs := PrivateSubnetIDs (importVPC o);
               config.PublicSubnetIDs := PublicSubnetIDs (importVPC o) |}.

Definition adjustVPCConfig (o : initEnvVars) : option config.AdjustVPC :=
  if defaultConfig o || negb (adjustVPCVars_isSet (adjustVPC o)) then None
  else Some {| config.CIDR := IPNet_String (CIDR (adjustVPC o));
               config.AZs := AZs (adjustVPC o);
               config.PrivateSubnetCIDRs := PrivateSubnetCIDRs (adjustVPC o);
               config.PublicSubnetCIDRs := PublicSubnetCIDRs (adjustVPC o) |}.

(** tryDeletingEnvRoles attempts a best effort deletion of IAM roles created
    from an environment.  To ensure that the roles being deleted were created
    by Copilot, we check if the copilot-environment tag is applied to the
    role. *)
Definition envRoleNames (app env : string) : list string :=
  [ fmt.Sprintf "%s-CFNExecutionRole" [NameForEnv app env];
    fmt.Sprintf "%s-EnvManagerRole" [NameForEnv app env] ].

Definition tryDeletingEnvRoles (app env : string) : M W unit :=
  let roleNames := envRoleNames app env in
  for_range roleNames (fun roleName =>
    r <- iam_ListRoleTags roleName ;;
    match r with
    | Err _ => ret tt
    | Ok tags =>
        match tags !! EnvTagKey with
        | None => ret tt
        | Some _ => iam_DeleteRole roleName ;;; ret tt
        end
    end).

(** cleanUpDanglingRoles deletes any IAM roles created for the same app and
    env that were left over from a previous environment creation. *)
Definition cleanUpDanglingRoles (app env : string) : M W (option error) :=
  r <- cfn_Exists (NameForEnv app env) ;;
  match r with
  | Err err => ret (Some (Errorf_w "check if stack %s exists: %w" [NameForEnv app env] err))
  | Ok exists_ =>
      if exists_ then ret None
      else tryDeletingEnvRoles app env ;;; ret None
  end.

Definition deployEnv (app : config.Application) (customResourcesURLs : gmap string string)
  : M W (option error) :=
  o <- get ;;
  r <- identity_Get ;;
  match r with
  | Err err => ret (Some (Errorf_w "get identity: %w" [] err))
  | Ok caller =>
      let deployEnvInput :=
        {| deploy.Name := name (vars o);
           deploy.App :=
             {| deploy.AppInformation_Name := appName (vars o);
                deploy.DNSName := config.Application_Domain app;
                deploy.AccountPrincipalARN := identity.RootUserARN caller |};
           deploy.Prod := isProduction (vars o);
           deploy.AdditionalTags := config.Application_Tags app;
           deploy.CustomResourcesURLs := customResourcesURLs;
           deploy.AdjustVPCConfig := adjustVPCConfig (vars o);
           deploy.ImportVPCConfig := importVPCConfig (vars o);
           deploy.Version := LatestEnvTemplateVersion |} in
      r <- cleanUpDanglingRoles (appName (vars o)) (name (vars o)) ;;
      match r with
      | Some err => ret (Some err)
      | None =>
          r <- envDeployer_DeployAndRenderEnvironment deployEnvInput ;;
          match r with
          | Some err =>
              if errors.As_StackAlreadyExists err then ret None
              else
                tryDeletingEnvRoles (appName (vars o)) (name (vars o)) ;;;
                ret (Some err)
          | None => ret None
          end
      end
  end.

Definition addToStackset (opts : deploycfn.AddEnvToAppOpts) : M W (option error) :=
  o <- get ;;
  emit (EvProgStart
          (fmt.Sprintf fmtAddEnvToAppStart
             [ Emphasize (deploycfn.EnvAccountID opts);
               Emphasize (deploycfn.EnvRegion opts);
               HighlightUserInput (appName (vars o)) ])) ;;;
  r <- appDeployer_AddEnvToApp opts ;;
  match r with
  | Some err =>
      emit (EvProgStop
              (Serrorf fmtAddEnvToAppFailed
                 [ Emphasize (deploycfn.EnvAccountID opts);
                   Emphasize (deploycfn.EnvRegion opts);
                   HighlightUserInput (appName (vars o)) ])) ;;;
      ret (Some (Errorf_w "deploy env %s to application %s: %w"
                   [ deploycfn.EnvName opts;
                     config.Application_Name (deploycfn.App opts) ] err))
  | None =>
      emit (EvProgStop
              (Ssuccessf fmtAddEnvToAppComplete
                 [ Emphasize (deploycfn.EnvAccountID opts);
                   Emphasize (deploycfn.EnvRegion opts);
                   HighlightUserInput (appName (vars o)) ])) ;;;
      ret None
  end.

Definition delegateDNSFromApp (app : config.Application) (accountID : string)
  : M W (option error) :=
  if String.eqb accountID (config.Application_AccountID app) then ret None
  else
    emit (EvProgStart (fmt.Sprintf fmtDNSDelegationStart [HighlightUserInput accountID])) ;;;
    r <- appDeployer_DelegateDNSPermissions app accountID ;;
    match r with
    | Some err =>
        emit (EvProgStop
                (Serrorf fmtDNSDelegationFailed [HighlightUserInput accountID])) ;;;
        ret (Some err)
    | None =>
        emit (EvProgStop
                (Ssuccessf fmtDNSDelegationComplete [HighlightUserInput accountID])) ;;;
        ret None
    end.

(** Execute deploys a new environment with CloudFormation and adds it to
    SSM.  initRuntimeClients only fills in the interfaces that were left
    nil; the handlers stand for them throughout. *)
Definition Execute : M W (option error) :=
  o <- get ;;
  r <- store_GetApplication (appName (vars o)) ;;
  match r with
  | Err err => ret (Some err)
  | Ok app =>
  r <- envIdentity_Get ;;
  match r with
  | Err err => ret (Some (Errorf_w "get identity: %w" [] err))
  | Ok envCaller =>
  r <- (if RequiresDNSDelegation app then
          r <- delegateDNSFromApp app (identity.Account envCaller) ;;
          match r with
          | Some err => ret (Some (Errorf_w "granting DNS permissions: %w" [] err))
          | None => ret None
          end
        else ret None) ;;
  match r with
  | Some err => ret (Some err)
  | None =>
  iam_CreateECSServiceLinkedRole ;;;
  r <- addToStackset
         {| deploycfn.App := app;
            deploycfn.EnvName := name (vars o);
            deploycfn.EnvRegion := StringValue (sess_Config_Region o);
            deploycfn.EnvAccountID := identity.Account envCaller |} ;;
  match r with
  | Some err => ret (Some err)
  | None =>
  let envRegion := StringValue (sess_Config_Region o) in
  r <- appCFN_GetAppResourcesByRegion app envRegion ;;
  match r with
  | Err err => ret (Some (Errorf_w "get app resources: %w" [] err))
  | Ok S3Bucket =>
  r <- newS3 envRegion ;;
  match r with
  | Some err => ret (Some err)
  | None =>
  r <- uploader_UploadEnvironmentCustomResources S3Bucket ;;
  match r with
  | Err err =>
      ret (Some (Errorf_w "upload custom resources to bucket %s: %w" [S3Bucket] err))
  | Ok urls =>
  r <- deployEnv app urls ;;
  match r with
  | Some err => ret (Some err)
  | None =>
  r <- envDeployer_GetEnvironment (appName (vars o)) (name (vars o)) ;;
  match r with
  | Err err =>
      ret (Some (Errorf_w "get environment struct for %s: %w" [name (vars o)] err))
  | Ok env =>
  let env :=
    {| config.App := config.App env;
       config.Name := config.Name env;
       config.Region := config.Region env;
       config.AccountID := config.AccountID env;
       config.Prod := isProduction (vars o);
       config.RegistryURL := config.RegistryURL env;
       config.ExecutionRoleARN := config.ExecutionRoleARN env;
       config.ManagerRoleARN := config.ManagerRoleARN env;
       config.CustomConfig :=
         config.NewCustomizeEnv (importVPCConfig (vars o)) (adjustVPCConfig (vars o)) |} in
  r <- store_CreateEnvironment env ;;
  match r with
  | Some err => ret (Some (Errorf_w "store environment: %w" [] err))
  | None =>
      emit (EvLog LogSuccess
              (fmt.Sprintf "Created environment %s in region %s under application %s.
"
                 [ HighlightUserInput (config.Name env);
                   Emphasize (config.Region env);
                   HighlightUserInput (config.App env) ])) ;;;
      ret None
  end
  end
  end
  end
  end
  end
  end
  end
  end
  end.

End Methods.

End cli.

(** ** Package cli: the questions of Ask before the customized resources *)
Module cli_ask.

Import cli.

Definition envInitAppNamePrompt : string :=
  fmt.Sprintf "In which %s would you like to create the environment?"
    [Emphasize "application"].
Definition fmtEnvInitCredsPrompt : string :=
  "Which credentials would you like to use to create %s?".
Definition envInitCredsHelpPrompt : string :=
  "The credentials are used to create your environment in an AWS account and region.
To learn more:
https://aws.github.io/copilot-cli/docs/credentials/#environment-credentials".
Definition envInitRegionPrompt : string := "Which region?".
Definition envInitDefaultRegionOption : string := "us-west-2".

(** session.Session: the region of its configuration, the only part of a
    session that the command reads or writes. *)
Record Session : Type := {
  Config_Region : option string
}.

(** The calls of Ask: those on the interfaces of [Clients], and those on
    the application selector, the session provider and the credentials
    selector. *)
Inductive AskEvent : Type :=
| EvCli (ev : Event)
| EvSelectApplication (message help : string) (r : Result string)
| EvFromProfile (name : string) (r : Result Session)
| EvFromStaticCreds (accessKeyID secretAccessKey sessionToken : string) (r : Result Session)
| EvSelectCreds (message help : string) (r : Result Session).

Class AskClients (W : Type) : Type := {
  on_selApp_Application : string -> string -> W -> Result string * W;
  on_sessProvider_FromProfile : string -> W -> Result Session * W;
  on_sessProvider_FromStaticCreds : string -> string -> string -> W -> Result Session * W;
  on_selCreds_Creds : string -> string -> W -> Result Session * W
}.

Definition set_appName (o : initEnvOpts) (v : string) : initEnvOpts :=
  {| vars :=
       {| appName := v; name := name (vars o); profile := profile (vars o);
          isProduction := isProduction (vars o); defaultConfig := defaultConfig (vars o);
          importVPC := importVPC (vars o); adjustVPC := adjustVPC (vars o);
          tempCreds := tempCreds (vars o); region := region (vars o) |};
     sess_Config_Region := sess_Config_Region o |}.

Definition set_name (o : initEnvOpts) (v : string) : initEnvOpts :=
  {| vars :=
       {| appName := appName (vars o); name := v; profile := profile (vars o);
          isProduction := isProduction (vars o); defaultConfig := defaultConfig (vars o);
          importVPC := importVPC (vars o); adjustVPC := adjustVPC (vars o);
          tempCreds := tempCreds (vars o); region := region (vars o) |};
     sess_Config_Region := sess_Config_Region o |}.

(** o.sess = sess *)
Definition set_sess (o : initEnvOpts) (sess : Session) : initEnvOpts :=
  {| vars := vars o; sess_Config_Region := Config_Region sess |}.

(** o.sess.Config.Region = aws.String(region) *)
Definition set_sess_Config_Region (o : initEnvOpts) (v : string) : initEnvOpts :=
  {| vars := vars o; sess_Config_Region := Some v |}.

(** A method body of Ask: as [M], with the log of the calls of Ask. *)
Definition MA (W A : Type) : Type := state W -> A * state W * list AskEvent.

Definition retA {W A : Type} (a : A) : MA W A := fun st => (a, st, []).

Definition bindA {W A B : Type} (m : MA W A) (k : A -> MA W B) : MA W B :=
  fun st =>
    let '(a, st1, l1) := m st in
    let '(b, st2, l2) := k a st1 in
    (b, st2, l1 ++ l2).

Notation "x <~ m ;; k" := (bindA m (fun x => k))
  (at level 100, m at next level, right associativity).
Notation "m ;;~ k" := (bindA m (fun _ => k))
  (at level 100, right associativity).

Definition callA {W R : Type} (h : W -> R * W) (ev : R -> AskEvent) : MA W R :=
  fun st =>
    let '(r, w) := h (world st) in
    (r, {| opts := opts st; world := w |}, [ev r]).

(** A method of module cli run inside Ask. *)
Definition lift {W A : Type} (m : M W A) : MA W A :=
  fun st =>
    let '(a, st', l) := m st in
    (a, st', map EvCli l).

Section Questions.

Context {W : Type} `{Clients W} `{AskClients W}.

Definition askAppName : MA W (option error) :=
  o <~ lift get ;;
  if negb (String.eqb (appName (vars o)) "") then retA None
  else
    r <~ callA (on_selApp_Application envInitAppNamePrompt envInitAppNameHelpPrompt)
               (EvSelectApplication envInitAppNamePrompt envInitAppNameHelpPrompt) ;;
    match r with
    | Err err => retA (Some (Errorf_w "ask for application: %w" [] err))
    | Ok app =>
        o <~ lift get ;;
        lift (put (set_appName o app)) ;;~
        retA None
    end.

(** The prompt is given validateEnvironmentName to check what is typed. *)
Definition askEnvName : MA W (option error) :=
  o <~ lift get ;;
  if negb (String.eqb (name (vars o)) "") then retA None
  else
    r <~ lift (prompt_Get envInitNamePrompt envInitNameHelpPrompt) ;;
    match r with
    | Err err => retA (Some (Errorf_w "get environment name: %w" [] err))
    | Ok envName =>
        o <~ lift get ;;
        lift (put (set_name o envName)) ;;~
        lift validateDuplicateEnv
    end.

Definition askEnvSession : MA W (option error) :=
  o <~ lift get ;;
  if negb (String.eqb (profile (vars o)) "") then
    r <~ callA (on_sessProvider_FromProfile (profile (vars o)))
               (EvFromProfile (profile (vars o))) ;;
    match r with
    | Err err =>
        retA (Some (Errorf_w "create session from profile %s: %w" [profile (vars o)] err))
    | Ok sess =>
        o <~ lift get ;;
        lift (put (set_sess o sess)) ;;~
        retA None
    end
  else if tempCredsVars_isSet (tempCreds (vars o)) then
    r <~ callA (on_sessProvider_FromStaticCreds
                  (AccessKeyID (tempCreds (vars o)))
                  (SecretAccessKey (tempCreds (vars o)))
                  (SessionToken (tempCreds (vars o))))
               (EvFromStaticCreds
                  (AccessKeyID (tempCreds (vars o)))
                  (SecretAccessKey (tempCreds (vars o)))
                  (SessionToken (tempCreds (vars o)))) ;;
    match r with
    | Err err => retA (Some err)
    | Ok sess =>
        o <~ lift get ;;
        lift (put (set_sess o sess)) ;;~
        retA None
    end
  else
    r <~ callA (on_selCreds_Creds
                  (fmt.Sprintf fmtEnvInitCredsPrompt [HighlightUserInput (name (vars o))])
                  envInitCredsHelpPrompt)
               (EvSelectCreds
                  (fmt.Sprintf fmtEnvInitCredsPrompt [HighlightUserInput (name (vars o))])
                  envInitCredsHelpPrompt) ;;
    match r with
    | Err err => retA (Some (Errorf_w "select creds: %w" [] err))
    | Ok sess =>
        o <~ lift get ;;
        lift (put (set_sess o sess)) ;;~
        retA None
    end.

(** askEnvRegion reads the session that askEnvSession has set.  The prompt
    is given envInitDefaultRegionOption as its default input. *)
Definition askEnvRegion : MA W (option error) :=
  o <~ lift get ;;
  let region_ := StringValue (sess_Config_Region o) in
  let region_ := if negb (String.eqb (region (vars o)) "") then region (vars o) else region_ in
  r <~ (if String.eqb region_ "" then
          r <~ lift (prompt_Get envInitRegionPrompt "") ;;
          match r with
          | Err err => retA (Err (Errorf_w "get environment region: %w" [] err))
          | Ok v => retA (Ok v)
          end
        else retA (Ok region_)) ;;
  match r with
  | Err err => retA (Some err)
  | Ok region_ =>
      o <~ lift get ;;
      lift (put (set_sess_Config_Region o region_)) ;;~
      retA None
  end.

(** Ask asks for fields that are required but not passed in. *)
Definition Ask : MA W (option error) :=
  r <~ askAppName ;;
  match r with
  | Some err => retA (Some err)
  | None =>
  r <~ askEnvName ;;
  match r with
  | Some err => retA (Some err)
  | None =>
  r <~ askEnvSession ;;
  match r with
  | Some err => retA (Some err)
  | None =>
  r <~ askEnvRegion ;;
  match r with
  | Some err => retA (Some err)
  | None => lift askCustomizedResources
  end
  end
  end
  end.

End Questions.

End cli_ask.

(** * Properties *)

(** ** Strings and fmt *)
Module fmt_props.

Lemma append_empty_r (s : string) : s +:+ "" = s.
Proof.
  induction s as [|c s' IH]; [reflexivity|].
  change (String c (s' +:+ "") = String c s'). congruence.
Qed.

Lemma append_cancel_l (p a b : string) : p +:+ a = p +:+ b -> a = b.
Proof. apply String.app_inj. Qed.

(** A format with one leading [%s] prints its operand and then the rest. *)
Lemma Sprintf_s_prefix (rest a : string) :
  fmt.Sprintf (String "%" (String "s" rest)) [a] = a +:+ fmt.Sprintf rest [].
Proof. reflexivity. Qed.

End fmt_props.

(** ** Package template *)
Module template_props.

Import template.

(** The condition under which envControllerParameters adds the storage
    name. *)
Definition wantsEFS (o : WorkloadOpts) : bool :=
  match Storage o with
  | Some s => requiresEFSCreation s
  | None => false
  end.

Lemma envControllerParameters_groups (o : WorkloadOpts) :
  envControllerParameters o =
    (if String.eqb (WorkloadType o) "Load Balanced Web Service"
     then ["ALBWorkloads,"; "Aliases,"] else [])
    ++ (if String.eqb (SubnetsType (Network o)) PrivateSubnetsPlacement
        then ["NATWorkloads,"] else [])
    ++ (if wantsEFS o then ["EFSWorkloads,"] else []).
Proof.
  unfold envControllerParameters, wantsEFS.
  destruct (String.eqb (WorkloadType o) _), (String.eqb (SubnetsType (Network o)) _),
    (Storage o) as [s|]; try destruct (requiresEFSCreation s); reflexivity.
Qed.

(** C4. For a load balanced web service placed in private subnets whose
    storage asks for a managed EFS volume, envControllerParameters returns
    the two load-balancer names, then the networking name, then the storage
    name; and for every WorkloadOpts the names of a group are in the result
    exactly when the group's condition holds, the groups always standing in
    that order. *)
Theorem envControllerParameters_fixed_order (o : WorkloadOpts) :
  (WorkloadType o = "Load Balanced Web Service" ->
   SubnetsType (Network o) = PrivateSubnetsPlacement ->
   (exists s, Storage o = Some s /\ requiresEFSCreation s = true) ->
   envControllerParameters o =
     ["ALBWorkloads,"; "Aliases,"; "NATWorkloads,"; "EFSWorkloads,"])
  /\ (In "ALBWorkloads," (envControllerParameters o)
      <-> WorkloadType o = "Load Balanced Web Service")
  /\ (In "Aliases," (envControllerParameters o)
      <-> WorkloadType o = "Load Balanced Web Service")
  /\ (In "NATWorkloads," (envControllerParameters o)
      <-> SubnetsType (Network o) = PrivateSubnetsPlacement)
  /\ (In "EFSWorkloads," (envControllerParameters o)
      <-> exists s, Storage o = Some s /\ requiresEFSCreation s = true)
  /\ (exists lb nat_ efs,
        envControllerParameters o = lb ++ nat_ ++ efs
        /\ (lb = ["ALBWorkloads,"; "Aliases,"] \/ lb = [])
        /\ (nat_ = ["NATWorkloads,"] \/ nat_ = [])
        /\ (efs = ["EFSWorkloads,"] \/ efs = [])).
Proof.
  rewrite envControllerParameters_groups.
  assert (Hefs : wantsEFS o = true <->
                 exists s, Storage o = Some s /\ requiresEFSCreation s = true).
  { unfold wantsEFS. destruct (Storage o) as [s|].
    - split; [intros E; exists s; auto | intros (s' & E & R); congruence].
    - split; [discriminate | intros (s' & E & _); discriminate]. }
  assert (Hno : wantsEFS o = false ->
                ~ exists s, Storage o = Some s /\ requiresEFSCreation s = true).
  { intros E Hx. apply Hefs in Hx. congruence. }
  destruct (String.eqb_spec (WorkloadType o) "Load Balanced Web Service") as [Hlb|Hlb];
  destruct (String.eqb_spec (SubnetsType (Network o)) PrivateSubnetsPlacement) as [Hnat|Hnat];
  destruct (wantsEFS o) eqn:Hw;
  try (specialize (Hno eq_refl));
  (split; [ intros; first [reflexivity | congruence | tauto ] | ]);
  (split; [ split; [ intros Hin; simpl in Hin; intuition discriminate
                   | intros Hx; simpl; first [ tauto | congruence ] ] | ]);
  (split; [ split; [ intros Hin; simpl in Hin; intuition discriminate
                   | intros Hx; simpl; first [ tauto | congruence ] ] | ]);
  (split; [ split; [ intros Hin; simpl in Hin; intuition discriminate
                   | intros Hx; simpl; first [ tauto | congruence ] ] | ]);
  (split; [ split; [ intros Hin; simpl in Hin;
                     first [ apply Hefs; reflexivity | intuition discriminate ]
                   | intros Hx; simpl; first [ tauto | contradiction ] ] | ]);
  (eexists _, _, _; split; [reflexivity|]; repeat split; auto).
Qed.

(** A load balanced web service in private subnets with a managed volume. *)
Definition lbPrivateEFS : WorkloadOpts :=
  {| Secrets := ∅;
     NestedStack := None;
     Storage :=
       Some {| ManagedVolumeInfo :=
                 Some {| ManagedVolumeCreationInfo_Name := Some "data";
                         DirName := None; UID := None; GID := None |} |};
     Network := {| AssignPublicIP := DisablePublicIP;
                   SubnetsType := PrivateSubnetsPlacement;
                   SecurityGroups := None |};
     Platform := {| OS := ""; Arch := "" |};
     Subscribe := None;
     WorkloadType := "Load Balanced Web Service" |}.

Lemma envControllerParameters_fixed_order_witness :
  envControllerParameters lbPrivateEFS =
    ["ALBWorkloads,"; "Aliases,"; "NATWorkloads,"; "EFSWorkloads,"].
Proof.
  apply (envControllerParameters_fixed_order lbPrivateEFS).
  - reflexivity.
  - reflexivity.
  - eexists. split; reflexivity.
Defined.

(** C8. The ARN of a topic is the pattern arn:P:sns:R:A:app-env-svc-name
    filled, in this order, with the partition, the region, the account ID,
    the application, the environment, the workload and the name of the
    topic (the empty string for a nil name). *)
Theorem ARN_seven_fields (t : Topic) :
  ARN t =
    "arn:" +:+ Partition t +:+ ":sns:" +:+ Region t +:+ ":" +:+ AccountID t +:+ ":"
      +:+ App t +:+ "-" +:+ Env t +:+ "-" +:+ Svc t +:+ "-" +:+ StringValue (Name t).
Proof.
  unfold ARN, snsARNPattern. cbn.
  rewrite fmt_props.append_empty_r. reflexivity.
Qed.

Section ParseProps.

Context {Tpl Tree Data : Type} `{Engine Tpl Tree Data}.

Lemma attachPartials_fails (names : list string) (options : list ParseOption) (tpl : Tpl)
  (templateName : string) (e : error) :
  In templateName names ->
  parse templateName (partialPath templateName) options = Err e ->
  exists e', fst (fst (attachPartials names options tpl)) = Some e'.
Proof.
  revert tpl. induction names as [|n rest IH]; intros tpl Hin Hfail; [destruct Hin|].
  cbn [attachPartials].
  destruct (parse n (partialPath n) options) as [nested|err] eqn:Hp.
  - destruct (AddParseTree tpl n (Tree_of nested)) as [[err|] tpl'] eqn:Ha.
    + simpl. eauto.
    + destruct Hin as [->|Hin].
      * congruence.
      * destruct (IH tpl' Hin Hfail) as [e' He'].
        destruct (attachPartials rest options tpl') as [[r t] evs]. simpl in *. eauto.
  - simpl. eauto.
Qed.

Lemma attachPartials_ok (names : list string) (options : list ParseOption) (tpl tpl' : Tpl)
  (evs : list Event) :
  attachPartials names options tpl = (None, tpl', evs) ->
  (forall templateName, In templateName names ->
     In (EvParse templateName (partialPath templateName) true) evs
     /\ In (EvAddParseTree templateName true) evs
     /\ exists nested, parse templateName (partialPath templateName) options = Ok nested)
  /\ (forall ok, ~ In (EvExecute ok) evs).
Proof.
  revert tpl tpl' evs. induction names as [|n rest IH]; intros tpl tpl' evs.
  - simpl. intros E. inversion E; subst. split; [intros ? []|intros ? []].
  - cbn [attachPartials].
    destruct (parse n (partialPath n) options) as [nested|err] eqn:Hp; [|discriminate].
    destruct (AddParseTree tpl n (Tree_of nested)) as [[err|] tpl1] eqn:Ha; [discriminate|].
    destruct (attachPartials rest options tpl1) as [[r t] evs1] eqn:Hrest.
    intros E. inversion E; subst.
    destruct (IH _ _ _ Hrest) as [Hall Hnoexec]. split.
    + intros templateName [->|Hin].
      * split; [left; reflexivity|]. split; [right; left; reflexivity|].
        exists nested. exact Hp.
      * destruct (Hall _ Hin) as (Hp' & Ha' & Hn). split; [right; right; exact Hp'|].
        split; [right; right; exact Ha'| exact Hn].
    + intros ok [Hx|[Hx|Hx]]; try discriminate Hx. exact (Hnoexec ok Hx).
Qed.

(** The base template with every fragment of the catalog attached, when
    all of that succeeds. *)
Definition composed (name wkldDirName : string) (options : list ParseOption) : option Tpl :=
  match parse "base" (fmt.Sprintf fmtWkldCFTemplatePath [wkldDirName; name]) options with
  | Err _ => None
  | Ok tpl =>
      match attachPartials partialsWorkloadCFTemplateNames options tpl with
      | (None, tpl', _) => Some tpl'
      | (Some _, _, _) => None
      end
  end.

(** C7. When a fragment of the catalog does not load or parse, parseWkld
    returns an error, hence no content.  When parseWkld returns a content,
    every fragment of the catalog was parsed and attached, the execution came
    last, after all of them, and succeeded on the composed template, and the
    content is the buffer that the execution wrote.  When the execution of
    the composed template fails (as it does on a reference to a fragment that
    is not declared), parseWkld returns an error and nothing of what was
    written. *)
Theorem parseWkld_all_or_nothing (name wkldDirName : string) (data : Data)
  (options : list ParseOption) :
  (forall templateName e,
     In templateName partialsWorkloadCFTemplateNames ->
     parse templateName (partialPath templateName) options = Err e ->
     exists e', fst (parseWkld name wkldDirName data options) = Err e')
  /\ (forall content,
        fst (parseWkld name wkldDirName data options) = Ok content ->
        exists evs tpl,
          snd (parseWkld name wkldDirName data options) = evs ++ [EvExecute true]
          /\ (forall templateName, In templateName partialsWorkloadCFTemplateNames ->
                In (EvParse templateName (partialPath templateName) true) evs
                /\ In (EvAddParseTree templateName true) evs)
          /\ (forall ok, ~ In (EvExecute ok) evs)
          /\ composed name wkldDirName options = Some tpl
          /\ Execute tpl data = (Buffer content, None))
  /\ (forall tpl written e,
        composed name wkldDirName options = Some tpl ->
        Execute tpl data = (written, Some e) ->
        fst (parseWkld name wkldDirName data options)
        = Err (Errorf_w "execute template %s with data %v: %w" [name] e)).
Proof.
  unfold parseWkld, composed. split; [|split].
  - intros templateName e Hin Hfail.
    destruct (parse "base" _ options) as [tpl|err]; [|simpl; eauto].
    destruct (attachPartials_fails _ options tpl _ _ Hin Hfail) as [e' He'].
    destruct (attachPartials partialsWorkloadCFTemplateNames options tpl) as [[r t] evs].
    simpl in He'. subst r. simpl. eauto.
  - intros content.
    destruct (parse "base" _ options) as [tpl|err]; [|discriminate].
    destruct (attachPartials partialsWorkloadCFTemplateNames options tpl)
      as [[[err|] t] evs] eqn:Hatt; [discriminate|].
    destruct (Execute t data) as [buf [err|]] eqn:Hexec; [discriminate|].
    simpl. intros E. inversion E; subst. simpl.
    destruct (attachPartials_ok _ _ _ _ _ Hatt) as [Hall Hnoexec].
    eexists (_ :: evs), t. split; [reflexivity|]. split; [|split; [|split]].
    + intros templateName Hin. destruct (Hall _ Hin) as (Hp & Ha & _).
      split; right; assumption.
    + intros ok [Hx|Hx]; [discriminate Hx | exact (Hnoexec ok Hx)].
    + reflexivity.
    + exact Hexec.
  - intros tpl written e.
    destruct (parse "base" _ options) as [tpl0|err]; [|discriminate].
    destruct (attachPartials partialsWorkloadCFTemplateNames options tpl0)
      as [[[err|] t] evs] eqn:Hatt; [discriminate|].
    intros E Hexec. inversion E; subst. rewrite Hexec. reflexivity.
Qed.

End ParseProps.

(** An engine for the examples: a template is the list of the names attached
    to it, every file is there but the one of the nlb fragment, and the
    execution prints the number of attached templates. *)
Definition brokenNLB : Engine (list string) string unit :=
  {| parse := fun name path _ =>
       if String.eqb name "nlb" then Err (errorString "open nlb.yml: file does not exist")
       else Ok [name];
     Tree_of := fun tpl => String.concat "," tpl;
     AddParseTree := fun tpl name tree => (None, tpl ++ [name]);
     Execute := fun tpl _ => ("rendered", None) |}.

Lemma parseWkld_all_or_nothing_witness :
  exists e',
    fst (@parseWkld _ _ _ brokenNLB lbWebSvcTplName servicesDirName tt [withSvcParsingFuncs])
    = Err e'.
Proof.
  apply (proj1 (@parseWkld_all_or_nothing _ _ _ brokenNLB lbWebSvcTplName servicesDirName
                  tt [withSvcParsingFuncs]) "nlb" (errorString "open nlb.yml: file does not exist")).
  - unfold partialsWorkloadCFTemplateNames. simpl. tauto.
  - reflexivity.
Defined.

End template_props.

(** ** Package config *)
Module config_props.

Import config.

Lemma NewCustomizeEnv_nil_iff (importVPC : option ImportVPC) (adjustVPC : option AdjustVPC) :
  NewCustomizeEnv importVPC adjustVPC = None <-> importVPC = None /\ adjustVPC = None.
Proof.
  destruct importVPC, adjustVPC; simpl; split;
    solve [ discriminate | intros [? ?]; discriminate | auto ].
Qed.

Lemma NewCustomizeEnv_fields (importVPC : option ImportVPC) (adjustVPC : option AdjustVPC)
  (c : CustomizeEnv) :
  NewCustomizeEnv importVPC adjustVPC = Some c ->
  CustomizeEnv_ImportVPC c = importVPC /\ VPCConfig c = adjustVPC
  /\ (importVPC <> None \/ adjustVPC <> None).
Proof.
  destruct importVPC, adjustVPC; simpl; intros E; inversion E; subst; simpl;
    repeat split; auto; try (left; discriminate); right; discriminate.
Qed.

(** A store for the examples: it lists two values, decodes a value to the
    non-production record of that name, and encodes a record by its name. *)
Definition mkEnv (app name : string) (prod : bool) : Environment :=
  {| App := app; Name := name; Region := "us-west-2"; AccountID := "123456789012";
     Prod := prod; RegistryURL := ""; ExecutionRoleARN := ""; ManagerRoleARN := "";
     CustomConfig := None |}.

Definition demoApp : Application :=
  {| Application_Name := "demo"; Application_AccountID := "123456789012";
     Application_Domain := ""; Application_Tags := ∅ |}.

Definition demoDeps : StoreDeps :=
  {| fmtEnvParamPath := "/copilot/applications/%s/environments/%s";
     rootEnvParamPath := "/copilot/applications/%s/environments/";
     GetApplication := fun _ appName =>
       if String.eqb appName "demo" then Ok demoApp
       else Err (errorString "no such application");
     listParams := fun _ _ => Ok ["dev"; "test"];
     marshal := fun e => Ok (Name e +:+ "@" +:+ Region e);
     Unmarshal := fun v => Ok (mkEnv "demo" v false) |}.

(** C1. On the two non-production records dev and test, ListEnvironments
    returns test before dev: the second sort moves every non-production
    record to the front of its block, so these come out in descending
    order of their names, not in ascending order. *)
Theorem ListEnvironments_nonprod_descending :
  @ListEnvironments demoDeps "demo" ∅
  = Ok [mkEnv "demo" "test" false; mkEnv "demo" "dev" false].
Proof. vm_compute. reflexivity. Qed.

(** The case of the package's own test: a production record listed before
    a non-production one comes out after it. *)
Definition prodFirstDeps : StoreDeps :=
  {| fmtEnvParamPath := fmtEnvParamPath (StoreDeps := demoDeps);
     rootEnvParamPath := rootEnvParamPath (StoreDeps := demoDeps);
     GetApplication := GetApplication (StoreDeps := demoDeps);
     listParams := fun _ _ => Ok ["prod"; "test"];
     marshal := marshal (StoreDeps := demoDeps);
     Unmarshal := fun v => Ok (mkEnv "chicken" v (String.eqb v "prod")) |}.

Example ListEnvironments_prod_last :
  @ListEnvironments prodFirstDeps "chicken" ∅
  = Ok [mkEnv "chicken" "test" false; mkEnv "chicken" "prod" true].
Proof. vm_compute. reflexivity. Qed.

Section TwoRecords.

Context `{StoreDeps}.

(** Two non-production records always come out with the greater name first
    (and in the reverse of their stored order when the names are equal). *)
Lemma ListEnvironments_two_nonprod (appName va vb : string) (a b : Environment)
  (s : gmap string string) :
  listParams s (fmt.Sprintf rootEnvParamPath [appName]) = Ok [va; vb] ->
  Unmarshal va = Ok a ->
  Unmarshal vb = Ok b ->
  Prod a = false ->
  Prod b = false ->
  ListEnvironments appName s
  = Ok (if String.ltb (Name b) (Name a) then [a; b] else [b; a]).
Proof.
  intros Hlist Ha Hb Hpa Hpb. unfold ListEnvironments. rewrite Hlist.
  cbn [decodeEnvs]. rewrite Ha, Hb. cbn [app].
  unfold sort.SliceStable, sort.stable_func. cbn.
  destruct (String.ltb (Name b) (Name a)); cbn; unfold lessNotProd; cbn;
    rewrite ?Hpa, ?Hpb; reflexivity.
Qed.

End TwoRecords.

Section CreateTwice.

Context `{StoreDeps}.

(** The key under which CreateEnvironment stores a record. *)
Definition envPath (e : Environment) : string :=
  fmt.Sprintf fmtEnvParamPath [App e; Name e].

Lemma CreateEnvironment_success_stored (e : Environment) (s s1 : gmap string string) :
  CreateEnvironment e s = (None, s1) ->
  exists kept, s1 !! envPath e = Some kept
               /\ (s !! envPath e = None -> marshal e = Ok kept).
Proof.
  unfold CreateEnvironment, ssm.PutParameter, envPath. simpl.
  destruct (GetApplication s (App e)) as [a|err]; [|discriminate].
  destruct (marshal e) as [data|err]; [|discriminate].
  set (path := fmt.Sprintf fmtEnvParamPath [App e; Name e]).
  destruct (s !! path) as [old|] eqn:Hold; simpl.
  - intros E. inversion E; subst. exists old. split; [assumption | discriminate].
  - intros E. inversion E; subst. exists data. split; [apply lookup_insert_eq | reflexivity].
Qed.

Lemma CreateEnvironment_existing (e : Environment) (s : gmap string string)
  (app : Application) (kept : string) :
  GetApplication s (App e) = Ok app ->
  s !! envPath e = Some kept ->
  snd (CreateEnvironment e s) = s
  /\ (forall data, marshal e = Ok data -> fst (CreateEnvironment e s) = None).
Proof.
  unfold CreateEnvironment, ssm.PutParameter, envPath. simpl.
  intros Happ Hkept. rewrite Happ.
  destruct (marshal e) as [data|err]; simpl.
  - rewrite Hkept. simpl. split; [reflexivity | intros; reflexivity].
  - split; [reflexivity | intros; discriminate].
Qed.

(** C2. After a CreateEnvironment that returned no error, a second
    CreateEnvironment for a record with the same application and name, in an
    application that exists, leaves the store as it is: the value kept under
    the key is the one that was there after the first call (the encoding of
    the first record when the key was new), and the call returns no error
    once its record is encoded, the store answering that the parameter
    already exists. *)
Theorem CreateEnvironment_first_write_wins
  (first second : Environment) (s s1 : gmap string string) (app : Application) :
  App second = App first ->
  Name second = Name first ->
  CreateEnvironment first s = (None, s1) ->
  GetApplication s1 (App second) = Ok app ->
  exists kept,
    s1 !! envPath first = Some kept
    /\ (s !! envPath first = None -> marshal first = Ok kept)
    /\ snd (CreateEnvironment second s1) = s1
    /\ snd (CreateEnvironment second s1) !! envPath first = Some kept
    /\ (forall data, marshal second = Ok data -> fst (CreateEnvironment second s1) = None)
    /\ (second = first -> fst (CreateEnvironment second s1) = None).
Proof.
  intros Happ Hname Hfirst Hexists.
  destruct (CreateEnvironment_success_stored _ _ _ Hfirst) as (kept & Hkept & Hnew).
  assert (Hpath : envPath second = envPath first).
  { unfold envPath. rewrite Happ, Hname. reflexivity. }
  assert (Hkept2 : s1 !! envPath second = Some kept) by (rewrite Hpath; exact Hkept).
  destruct (CreateEnvironment_existing second s1 app kept Hexists Hkept2) as [Hsame Hnil].
  exists kept. repeat split; auto.
  - rewrite Hsame. exact Hkept.
  - intros ->. unfold CreateEnvironment in Hfirst.
    destruct (GetApplication s (App first)); [|discriminate].
    destruct (marshal first) as [data|err] eqn:Hm; [|discriminate].
    apply (Hnil data). reflexivity.
Qed.

End CreateTwice.

Lemma CreateEnvironment_first_write_wins_witness :
  exists kept,
    ({[ "/copilot/applications/demo/environments/dev" := "dev@us-west-2" ]}
       : gmap string string) !! @envPath demoDeps (mkEnv "demo" "dev" false) = Some kept
    /\ kept = "dev@us-west-2"
    /\ snd (@CreateEnvironment demoDeps (mkEnv "demo" "dev" true)
              {[ "/copilot/applications/demo/environments/dev" := "dev@us-west-2" ]})
       = {[ "/copilot/applications/demo/environments/dev" := "dev@us-west-2" ]}.
Proof.
  assert (Hfirst : @CreateEnvironment demoDeps (mkEnv "demo" "dev" false) ∅
                   = (None, {[ "/copilot/applications/demo/environments/dev"
                               := "dev@us-west-2" ]})).
  { vm_compute. reflexivity. }
  destruct (@CreateEnvironment_first_write_wins demoDeps
              (mkEnv "demo" "dev" false) (mkEnv "demo" "dev" true) ∅
              {[ "/copilot/applications/demo/environments/dev" := "dev@us-west-2" ]}
              demoApp eq_refl eq_refl Hfirst eq_refl)
    as (kept & Hk & Hnew & Hsame & _).
  exists kept. split; [exact Hk|]. split; [|exact Hsame].
  specialize (Hnew eq_refl). vm_compute in Hnew. congruence.
Defined.

End config_props.

(** ** Package cli: running a method *)
Module run_props.

Import cli.

Section Run.

Context {W : Type}.

Lemma ret_inv {A : Type} (a b : A) (st st' : state W) (l : list Event) :
  ret a st = (b, st', l) -> b = a /\ st' = st /\ l = [].
Proof. unfold ret. intros E. inversion E. auto. Qed.

Lemma bind_inv {A B : Type} (m : M W A) (k : A -> M W B) (st st2 : state W)
  (b : B) (l : list Event) :
  bind m k st = (b, st2, l) ->
  exists a st1 l1 l2, m st = (a, st1, l1) /\ k a st1 = (b, st2, l2) /\ l = l1 ++ l2.
Proof.
  unfold bind. destruct (m st) as [[a st1] l1]. destruct (k a st1) as [[b' st2'] l2] eqn:Hk.
  intros E. inversion E; subst. exists a, st1, l1, l2. auto.
Qed.

Lemma call_inv {R : Type} (h : W -> R * W) (ev : R -> Event) (st st' : state W)
  (r : R) (l : list Event) :
  call h ev st = (r, st', l) ->
  opts st' = opts st /\ l = [ev r] /\ h (world st) = (r, world st').
Proof.
  unfold call. destruct (h (world st)) as [r' w]. intros E. inversion E; subst. auto.
Qed.

Lemma emit_inv (ev : Event) (st st' : state W) (u : unit) (l : list Event) :
  emit ev st = (u, st', l) -> st' = st /\ l = [ev].
Proof. unfold emit. intros E. inversion E. auto. Qed.

Lemma get_inv (st st' : state W) (o : initEnvOpts) (l : list Event) :
  get st = (o, st', l) -> o = opts st /\ st' = st /\ l = [].
Proof. unfold get. intros E. inversion E. auto. Qed.

Lemma put_inv (o : initEnvOpts) (st st' : state W) (u : unit) (l : list Event) :
  put o st = (u, st', l) -> opts st' = o /\ world st' = world st /\ l = [].
Proof. unfold put. intros E. inversion E. auto. Qed.

End Run.

Ltac unfold_calls H :=
  unfold store_GetApplication, store_GetEnvironment, store_CreateEnvironment,
    envDeployer_DeployAndRenderEnvironment, envDeployer_GetEnvironment,
    appDeployer_AddEnvToApp, appDeployer_DelegateDNSPermissions, identity_Get,
    envIdentity_Get, ec2Client_HasDNSSupport, ec2Client_ListAZs,
    iam_CreateECSServiceLinkedRole, iam_ListRoleTags, iam_DeleteRole, cfn_Exists,
    prompt_Get, prompt_SelectOne, prompt_MultiSelect, selVPC_VPC, selVPC_Subnets,
    appCFN_GetAppResourcesByRegion, newS3, uploader_UploadEnvironmentCustomResources in H.

(** Runs a method backwards from its outcome [H : m st = (r, st', l)]: every
    sequencing is split, every test is decided both ways, every call on an
    interface leaves the equation of its handler; the methods that are called
    by name are left for their own lemmas. *)
Ltac run_inv H :=
  cbv beta zeta in H; unfold_calls H;
  lazymatch type of H with
  | bind _ _ _ = _ =>
      let a := fresh "a" in let st := fresh "st" in
      let l1 := fresh "l" in let l2 := fresh "l" in
      let H1 := fresh "Hrun" in let H2 := fresh "Hrun" in let E := fresh "El" in
      apply bind_inv in H; destruct H as (a & st & l1 & l2 & H1 & H2 & E);
      subst; run_inv H1; run_inv H2
  | ret _ _ = _ => apply ret_inv in H; destruct H as (? & ? & ?); subst
  | get _ = _ => apply get_inv in H; destruct H as (? & ? & ?); subst
  | emit _ _ = _ => apply emit_inv in H; destruct H as (? & ?); subst
  | put _ _ = _ =>
      let Ho := fresh "Hput" in let Hw := fresh "Hw" in
      apply put_inv in H; destruct H as (Ho & Hw & ?); subst
  | call _ _ _ = _ =>
      let Ho := fresh "Ho" in let Hh := fresh "Hcall" in
      apply call_inv in H; destruct H as (Ho & ? & Hh); subst
  | (match ?x with _ => _ end) _ = _ => destruct x eqn:?; run_inv H
  | (if ?b then _ else _) _ = _ => destruct b eqn:?; run_inv H
  | _ => idtac
  end.

End run_props.

(** ** Package cli: validation of the customized resources *)
Module validate_props.

Import cli run_props.

#[local] Arguments fmt.Sprintf : simpl never.

(** Some import-VPC field was given. *)
Definition importFieldsGiven (v : importVPCVars) : Prop :=
  ID v <> "" \/ 0 < len (PublicSubnetIDs v) \/ 0 < len (PrivateSubnetIDs v).

(** Some adjust-VPC field was given. *)
Definition adjustFieldsGiven (v : adjustVPCVars) : Prop :=
  IPNet_String (CIDR v) <> IPNet_String emptyIPNet
  \/ 0 < len (AZs v) \/ 0 < len (PublicSubnetCIDRs v) \/ 0 < len (PrivateSubnetCIDRs v).

Lemma importVPCVars_isSet_iff (v : importVPCVars) :
  importVPCVars_isSet v = true <-> importFieldsGiven v.
Proof.
  unfold importVPCVars_isSet, importFieldsGiven.
  destruct (String.eqb_spec (ID v) "") as [E|E]; simpl.
  - rewrite orb_true_iff, !Nat.ltb_lt. tauto.
  - tauto.
Qed.

Lemma adjustVPCVars_isSet_iff (v : adjustVPCVars) :
  adjustVPCVars_isSet v = true <-> adjustFieldsGiven v.
Proof.
  unfold adjustVPCVars_isSet, adjustFieldsGiven, anyNonEmpty.
  destruct (String.eqb_spec (IPNet_String (CIDR v)) (IPNet_String emptyIPNet)) as [E|E];
    simpl; [|tauto].
  destruct (Nat.eqb_spec (len (AZs v)) 0), (Nat.eqb_spec (len (PublicSubnetCIDRs v)) 0),
    (Nat.eqb_spec (len (PrivateSubnetCIDRs v)) 0); simpl; split; intros Hx;
    try reflexivity; try discriminate; try lia;
    try (destruct Hx as [Hx|[Hx|[Hx|Hx]]]; (contradiction || lia)).
Qed.

(** The two configuration errors of the exclusion checks. *)
Definition errBothGroups : error :=
  errorString "cannot specify both import vpc flags and configure vpc flags".

Section Validation.

Context {W : Type} `{Clients W}.

Definition errDefaultConfig : error :=
  errorString (fmt.Sprintf "cannot import or configure vpc if --%s is set" [defaultConfigFlag]).

Lemma validate_both_groups (o : initEnvVars) :
  importVPCVars_isSet (importVPC o) = true ->
  adjustVPCVars_isSet (adjustVPC o) = true ->
  validateCustomizedResources o = Some errBothGroups.
Proof. unfold validateCustomizedResources. intros -> ->. reflexivity. Qed.

Lemma validate_default_config (o : initEnvVars) :
  defaultConfig o = true ->
  importVPCVars_isSet (importVPC o) || adjustVPCVars_isSet (adjustVPC o) = true ->
  validateCustomizedResources o =
    Some (if importVPCVars_isSet (importVPC o) && adjustVPCVars_isSet (adjustVPC o)
          then errBothGroups else errDefaultConfig).
Proof.
  unfold validateCustomizedResources. intros -> Hany.
  destruct (importVPCVars_isSet (importVPC o) && adjustVPCVars_isSet (adjustVPC o));
    [reflexivity|]. rewrite Hany. reflexivity.
Qed.

Lemma validate_passed_not_both (o : initEnvVars) :
  validateCustomizedResources o = None ->
  importVPCVars_isSet (importVPC o) && adjustVPCVars_isSet (adjustVPC o) = false.
Proof.
  unfold validateCustomizedResources.
  destruct (importVPCVars_isSet (importVPC o) && adjustVPCVars_isSet (adjustVPC o));
    [discriminate | reflexivity].
Qed.

Lemma vpcConfig_default (o : initEnvVars) :
  defaultConfig o = true -> importVPCConfig o = None /\ adjustVPCConfig o = None.
Proof. unfold importVPCConfig, adjustVPCConfig. intros ->. split; reflexivity. Qed.

Lemma importVPCConfig_some (o : initEnvVars) (c : config.ImportVPC) :
  importVPCConfig o = Some c ->
  defaultConfig o = false /\ importVPCVars_isSet (importVPC o) = true.
Proof.
  unfold importVPCConfig.
  destruct (defaultConfig o), (importVPCVars_isSet (importVPC o)); simpl;
    intros E; try discriminate; auto.
Qed.

Lemma adjustVPCConfig_some (o : initEnvVars) (c : config.AdjustVPC) :
  adjustVPCConfig o = Some c ->
  defaultConfig o = false /\ adjustVPCVars_isSet (adjustVPC o) = true.
Proof.
  unfold adjustVPCConfig.
  destruct (defaultConfig o), (adjustVPCVars_isSet (adjustVPC o)); simpl;
    intros E; try discriminate; auto.
Qed.

(** The calls that Validate may make: the lookup of the environment in the
    store, and the line it logs when the environment is there. *)
Definition isDuplicateCheck (ev : Event) : bool :=
  match ev with
  | EvStoreGetEnvironment _ _ _ => true
  | EvLog LogError _ => true
  | _ => false
  end.

Lemma validateDuplicateEnv_run (st st' : state W) (r : option error) (l : list Event) :
  validateDuplicateEnv st = (r, st', l) ->
  opts st' = opts st /\ forallb isDuplicateCheck l = true.
Proof.
  unfold validateDuplicateEnv. intros Hrun. run_inv Hrun.
  all: split; [assumption | reflexivity].
Qed.

Lemma Validate_run (st st' : state W) (r : option error) (l : list Event) :
  Validate st = (r, st', l) ->
  opts st' = opts st
  /\ forallb isDuplicateCheck l = true
  /\ (String.eqb (name (vars (opts st))) "" = true -> l = [])
  /\ (r = None -> validateCustomizedResources (vars (opts st)) = None)
  /\ (String.eqb (name (vars (opts st))) "" = true ->
      forall err, validateCustomizedResources (vars (opts st)) = Some err -> r = Some err).
Proof.
  unfold Validate. intros Hrun. run_inv Hrun.
  all: try match goal with Hd : validateDuplicateEnv _ = _ |- _ =>
         apply validateDuplicateEnv_run in Hd as [Ho Hl] end.
  all: try match goal with Hn : negb _ = true |- _ => apply negb_true_iff in Hn end.
  all: try match goal with Hn : negb _ = false |- _ => apply negb_false_iff in Hn end.
  all: rewrite ?app_nil_r; simpl; try rewrite Ho in *.
  all: repeat split; auto; try congruence.
Qed.

End Validation.

End validate_props.

(** ** Package cli: the deployment of the environment stack *)
Module deploy_props.

Import cli run_props validate_props.

#[local] Arguments fmt.Sprintf : simpl never.

(** The answers of ListRoleTags for a role, in the order of the log. *)
Definition listings (roleName : string) (log : list Event)
  : list (Result (gmap string string)) :=
  flat_map (fun ev =>
              match ev with
              | EvListRoleTags r res => if String.eqb r roleName then [res] else []
              | _ => []
              end) log.

(** The answers of DeleteRole for a role, in the order of the log: one for
    each attempt to delete it. *)
Definition deletions (roleName : string) (log : list Event) : list (option error) :=
  flat_map (fun ev =>
              match ev with
              | EvDeleteRole r d => if String.eqb r roleName then [d] else []
              | _ => []
              end) log.

Definition isDeploy (ev : Event) : bool :=
  match ev with
  | EvDeployAndRenderEnvironment _ _ => true
  | _ => false
  end.

Definition isRoleCleanup (ev : Event) : bool :=
  match ev with
  | EvListRoleTags _ _ => true
  | EvDeleteRole _ _ => true
  | _ => false
  end.

Definition isRecordWrite (ev : Event) : bool :=
  match ev with
  | EvStoreCreateEnvironment _ _ => true
  | _ => false
  end.

(** A deployment event splits a log in one way only when no other
    deployment event stands before or after it. *)
Lemma split_at_deploy (l1 l2 pre post : list Event) (d d' : Event) :
  forallb (fun ev => negb (isDeploy ev)) l1 = true ->
  forallb (fun ev => negb (isDeploy ev)) l2 = true ->
  isDeploy d' = true ->
  l1 ++ d :: l2 = pre ++ d' :: post ->
  pre = l1 /\ d' = d /\ post = l2.
Proof.
  revert pre. induction l1 as [|x l1 IH]; intros pre H1 H2 Hd E.
  - destruct pre as [|y pre]; simpl in E.
    + inversion E; subst. auto.
    + inversion E; subst. exfalso.
      rewrite forallb_app in H2. simpl in H2. rewrite Hd in H2. simpl in H2.
      rewrite andb_false_r in H2. discriminate.
  - simpl in H1. apply andb_true_iff in H1 as [Hx H1].
    destruct pre as [|y pre]; simpl in E.
    + inversion E; subst. rewrite Hd in Hx. discriminate.
    + inversion E; subst. destruct (IH pre H1 H2 Hd H3) as (-> & -> & ->). auto.
Qed.

Lemma no_deploy_no_split (l pre post : list Event) (d : Event) :
  forallb (fun ev => negb (isDeploy ev)) l = true ->
  isDeploy d = true ->
  l = pre ++ d :: post -> False.
Proof.
  intros Hl Hd ->. rewrite forallb_app in Hl. simpl in Hl. rewrite Hd in Hl.
  simpl in Hl. rewrite andb_false_r in Hl. discriminate.
Qed.

Section Deploy.

Context {W : Type} `{Clients W}.

(** The role carries the tag of environments, by the answer of
    ListRoleTags. *)
Definition roleTagged (res : Result (gmap string string)) : bool :=
  match res with
  | Ok tags =>
      match tags !! EnvTagKey with
      | Some _ => true
      | None => false
      end
  | Err _ => false
  end.

Lemma envRoleNames_distinct (app env : string) :
  fmt.Sprintf "%s-CFNExecutionRole" [NameForEnv app env]
  <> fmt.Sprintf "%s-EnvManagerRole" [NameForEnv app env].
Proof.
  rewrite !fmt_props.Sprintf_s_prefix. intros E.
  apply fmt_props.append_cancel_l in E. vm_compute in E. discriminate.
Qed.

(** The body of the loop of tryDeletingEnvRoles. *)
Definition tryDeletingRole (roleName : string) : M W unit :=
  bind (iam_ListRoleTags roleName) (fun r =>
    match r with
    | Err _ => ret tt
    | Ok tags =>
        match tags !! EnvTagKey with
        | None => ret tt
        | Some _ => bind (iam_DeleteRole roleName) (fun _ => ret tt)
        end
    end).

Lemma tryDeletingRole_run (roleName : string) (st st' : state W) (u : unit)
  (l : list Event) :
  tryDeletingRole roleName st = (u, st', l) ->
  opts st' = opts st
  /\ exists res,
       (roleTagged res = false /\ l = [EvListRoleTags roleName res])
       \/ (roleTagged res = true
           /\ exists d, l = [EvListRoleTags roleName res; EvDeleteRole roleName d]).
Proof.
  unfold tryDeletingRole. intros Hrun. run_inv Hrun.
  all: split; [congruence|].
  all: match goal with |- context [EvListRoleTags _ ?res] => exists res end.
  all: simpl; repeat match goal with Ht : _ !! EnvTagKey = _ |- _ => rewrite Ht; clear Ht end.
  all: first [ left; split; reflexivity
             | right; split; [reflexivity | eexists; reflexivity] ].
Qed.

Lemma two_roles_run (r1 r2 : string) (st st' : state W) (u : unit) (l : list Event) :
  r1 <> r2 ->
  for_range [r1; r2] tryDeletingRole st = (u, st', l) ->
  opts st' = opts st
  /\ forallb isRoleCleanup l = true
  /\ (forall roleName, In roleName [r1; r2] ->
        exists res, listings roleName l = [res]
                    /\ length (deletions roleName l) = (if roleTagged res then 1 else 0))
  /\ (forall roleName d, In (EvDeleteRole roleName d) l -> In roleName [r1; r2]).
Proof.
  intros Hne Hrun.
  assert (E12 : String.eqb r1 r2 = false) by (apply String.eqb_neq; exact Hne).
  assert (E21 : String.eqb r2 r1 = false) by (apply String.eqb_neq; congruence).
  unfold for_range in Hrun. run_inv Hrun.
  apply tryDeletingRole_run in Hrun0 as (Ho1 & res1 & Hl1).
  apply tryDeletingRole_run in Hrun as (Ho2 & res2 & Hl2).
  split; [congruence|].
  destruct Hl1 as [[Ht1 ->]|[Ht1 [d1 ->]]], Hl2 as [[Ht2 ->]|[Ht2 [d2 ->]]].
  all: split; [reflexivity|]; split.
  all: try (intros roleName [<-|[<-|[]]]; simpl;
            rewrite ?String.eqb_refl, ?E12, ?E21; simpl;
            eexists; (split; [reflexivity|]); rewrite ?Ht1, ?Ht2; reflexivity).
  all: intros roleName d Hin; simpl in Hin;
       repeat match goal with
              | Hx : _ \/ _ |- _ => destruct Hx as [Hx|Hx]
              | Hx : False |- _ => destruct Hx
              | Hx : _ = EvDeleteRole _ _ |- _ => inversion Hx; subst; clear Hx
              end; simpl; auto.
Qed.

Lemma tryDeletingEnvRoles_run (app env : string) (st st' : state W) (u : unit)
  (l : list Event) :
  tryDeletingEnvRoles app env st = (u, st', l) ->
  opts st' = opts st
  /\ forallb isRoleCleanup l = true
  /\ (forall roleName, In roleName (envRoleNames app env) ->
        exists res, listings roleName l = [res]
                    /\ length (deletions roleName l) = (if roleTagged res then 1 else 0))
  /\ (forall roleName d, In (EvDeleteRole roleName d) l ->
        In roleName (envRoleNames app env)).
Proof.
  intros Hrun. exact (two_roles_run _ _ _ _ _ _ (envRoleNames_distinct app env) Hrun).
Qed.

Lemma cleanUpDanglingRoles_run (app env : string) (st st' : state W) (r : option error)
  (l : list Event) :
  cleanUpDanglingRoles app env st = (r, st', l) ->
  opts st' = opts st
  /\ exists answer rest,
       l = EvCfnExists (NameForEnv app env) answer :: rest
       /\ forallb isRoleCleanup rest = true
       /\ (answer = Ok true -> rest = [])
       /\ (isErr answer = false -> r = None)
       /\ (isErr answer = true -> r <> None /\ rest = []).
Proof.
  unfold cleanUpDanglingRoles. intros Hrun. run_inv Hrun.
  all: try match goal with Ht : tryDeletingEnvRoles _ _ _ = _ |- _ =>
         apply tryDeletingEnvRoles_run in Ht as (Ho' & Hk & _) end.
  all: split; [congruence|]; eexists _, _; simpl; rewrite ?app_nil_r;
       (split; [reflexivity|]); simpl; repeat split; auto; discriminate.
Qed.

(** The steps of deployEnv. *)
Definition isDeployStep (ev : Event) : bool :=
  match ev with
  | EvIdentityGet _ => true
  | EvCfnExists _ _ => true
  | EvListRoleTags _ _ => true
  | EvDeleteRole _ _ => true
  | EvDeployAndRenderEnvironment _ _ => true
  | _ => false
  end.

Lemma cleanup_no_deploy (l : list Event) :
  forallb isRoleCleanup l = true -> forallb (fun ev => negb (isDeploy ev)) l = true.
Proof.
  intros Hl. apply forallb_forall. intros ev Hin.
  rewrite forallb_forall in Hl. specialize (Hl ev Hin). destruct ev; auto; discriminate.
Qed.

Lemma cleanup_deploy_step (l : list Event) :
  forallb isRoleCleanup l = true -> forallb isDeployStep l = true.
Proof.
  intros Hl. apply forallb_forall. intros ev Hin.
  rewrite forallb_forall in Hl. specialize (Hl ev Hin). destruct ev; auto; discriminate.
Qed.

(** The shape of a run of deployEnv: either the deployment was not reached
    and the method failed, or the log is the steps before the deployment,
    the deployment, and what its answer set off. *)
Lemma deployEnv_run (app : config.Application) (urls : gmap string string)
  (st st' : state W) (res : option error) (l : list Event) :
  deployEnv app urls st = (res, st', l) ->
  opts st' = opts st
  /\ forallb isDeployStep l = true
  /\ ((forallb (fun ev => negb (isDeploy ev)) l = true /\ res <> None)
      \/ exists pre input answer post,
           l = pre ++ EvDeployAndRenderEnvironment input answer :: post
           /\ forallb (fun ev => negb (isDeploy ev)) pre = true
           /\ forallb (fun ev => negb (isDeploy ev)) post = true
           /\ ((exists stackName, In (EvCfnExists stackName (Ok true)) pre) ->
               forallb (fun ev => negb (isRoleCleanup ev)) pre = true)
           /\ match answer with
              | None => res = None /\ post = []
              | Some err =>
                  if errors.As_StackAlreadyExists err
                  then res = None /\ post = []
                  else res = Some err
                       /\ exists st1 st2 u,
                            tryDeletingEnvRoles (appName (vars (opts st)))
                              (name (vars (opts st))) st1 = (u, st2, post)
              end).
Proof.
  unfold deployEnv. intros Hrun. run_inv Hrun.
  all: try match goal with Hc : cleanUpDanglingRoles _ _ _ = _ |- _ =>
         apply cleanUpDanglingRoles_run in Hc
           as (Hoc & answer & rest & -> & Hrest & Htrue & Hok & Hfail) end.
  all: try match goal with Ht : tryDeletingEnvRoles _ _ _ = _ |- _ =>
         pose proof (tryDeletingEnvRoles_run _ _ _ _ _ _ Ht) as (Hot & Hpost & _) end.
  all: (split; [congruence|]).
  all: simpl; rewrite ?app_nil_r.
  all: try match goal with
       | |- context [EvDeployAndRenderEnvironment ?i _] =>
           let input := fresh "input" in set (input := i) in *; clearbody input
       end.
  all: (split;
        [ rewrite ?forallb_app; simpl; rewrite ?andb_true_r;
          try (apply cleanup_deploy_step in Hrest; rewrite Hrest);
          try (apply cleanup_deploy_step in Hpost; rewrite Hpost); reflexivity |]).
  - (* the check of the stack failed *)
    left. destruct answer as [b|err]; [specialize (Hok eq_refl); discriminate|].
    destruct (Hfail eq_refl) as [_ ->]. split; [reflexivity | discriminate].
  - (* the deployer answered that the stack already exists *)
    right. eexists (_ :: _ :: rest), input, (Some e), [].
    split; [reflexivity|]. split; [simpl; apply cleanup_no_deploy; exact Hrest|].
    split; [reflexivity|]. split.
    + intros [stackName [Hin|[Hin|Hin]]]; [discriminate Hin | |].
      * inversion Hin; subst. rewrite (Htrue eq_refl). reflexivity.
      * exfalso. rewrite forallb_forall in Hrest. specialize (Hrest _ Hin). discriminate.
    + rewrite Heqb. auto.
  - (* the deployer failed for another reason *)
    right. eexists (_ :: _ :: rest), input, (Some e), l0.
    split; [reflexivity|]. split; [simpl; apply cleanup_no_deploy; exact Hrest|].
    split; [apply cleanup_no_deploy; exact Hpost|]. split.
    + intros [stackName [Hin|[Hin|Hin]]]; [discriminate Hin | |].
      * inversion Hin; subst. rewrite (Htrue eq_refl). reflexivity.
      * exfalso. rewrite forallb_forall in Hrest. specialize (Hrest _ Hin). discriminate.
    + rewrite Heqb. split; [reflexivity|]. eauto.
  - (* the deployer succeeded *)
    right. eexists (_ :: _ :: rest), input, None, [].
    split; [reflexivity|]. split; [simpl; apply cleanup_no_deploy; exact Hrest|].
    split; [reflexivity|]. split.
    + intros [stackName [Hin|[Hin|Hin]]]; [discriminate Hin | |].
      * inversion Hin; subst. rewrite (Htrue eq_refl). reflexivity.
      * exfalso. rewrite forallb_forall in Hrest. specialize (Hrest _ Hin). discriminate.
    + auto.
  - (* the identity of the caller is not known *)
    left. split; [reflexivity | discriminate].
Qed.

(** The steps of Execute before the deployment of the stack. *)
Definition isBeforeDeploy (ev : Event) : bool :=
  match ev with
  | EvStoreGetApplication _ _ => true
  | EvEnvIdentityGet _ => true
  | EvDelegateDNSPermissions _ _ _ => true
  | EvCreateECSServiceLinkedRole _ => true
  | EvAddEnvToApp _ _ => true
  | EvGetAppResourcesByRegion _ _ _ => true
  | EvNewS3 _ _ => true
  | EvUploadEnvironmentCustomResources _ _ => true
  | EvProgStart _ => true
  | EvProgStop _ => true
  | _ => false
  end.

Definition isLogLine (ev : Event) : bool :=
  match ev with
  | EvLog _ _ => true
  | _ => false
  end.

(** The record that Execute hands to the store: the environment that the
    deployer reports, with the production flag and the custom configuration
    of the command. *)
Definition stamped (o : initEnvVars) (env : config.Environment) : config.Environment :=
  {| config.App := config.App env;
     config.Name := config.Name env;
     config.Region := config.Region env;
     config.AccountID := config.AccountID env;
     config.Prod := isProduction o;
     config.RegistryURL := config.RegistryURL env;
     config.ExecutionRoleARN := config.ExecutionRoleARN env;
     config.ManagerRoleARN := config.ManagerRoleARN env;
     config.CustomConfig :=
       config.NewCustomizeEnv (importVPCConfig o) (adjustVPCConfig o) |}.

Lemma delegateDNSFromApp_run (app : config.Application) (accountID : string)
  (st st' : state W) (r : option error) (l : list Event) :
  delegateDNSFromApp app accountID st = (r, st', l) ->
  opts st' = opts st /\ forallb isBeforeDeploy l = true.
Proof.
  unfold delegateDNSFromApp. intros Hrun. run_inv Hrun.
  all: split; [congruence | reflexivity].
Qed.

Lemma addToStackset_run (o : deploycfn.AddEnvToAppOpts)
  (st st' : state W) (r : option error) (l : list Event) :
  addToStackset o st = (r, st', l) ->
  opts st' = opts st /\ forallb isBeforeDeploy l = true.
Proof.
  unfold addToStackset. intros Hrun. run_inv Hrun.
  all: split; [congruence | reflexivity].
Qed.

(** What Execute does after deployEnv: it stops with the error of deployEnv,
    or it reads the environment from the deployer and, when that works,
    writes the stamped record to the store. *)
Definition recordPersistence (o : initEnvVars) (rd res : option error) (post : list Event)
  : Prop :=
  match rd with
  | Some err => res = Some err /\ post = []
  | None =>
      exists answer rest,
        post = EvDeployerGetEnvironment (appName o) (name o) answer :: rest
        /\ match answer with
           | Err _ => res <> None /\ rest = []
           | Ok env =>
               exists d tail,
                 rest = EvStoreCreateEnvironment (stamped o env) d :: tail
                 /\ forallb isLogLine tail = true
                 /\ (d = None -> res = None)
                 /\ (d <> None -> res <> None /\ tail = [])
           end
  end.

Lemma shift_block (b x pre ld post : list Event) :
  x = pre ++ ld ++ post -> b ++ x = (b ++ pre) ++ ld ++ post.
Proof. intros ->. rewrite app_assoc. reflexivity. Qed.

(** The shape of a run of Execute: it fails before the deployment, or its
    log is the steps before the deployment, the log of deployEnv, and then,
    when deployEnv returned no error, the reading of the environment from
    the deployer and the writing of the stamped record to the store. *)
Lemma Execute_run (st st' : state W) (res : option error) (l : list Event) :
  Execute st = (res, st', l) ->
  opts st' = opts st
  /\ ((forallb isBeforeDeploy l = true /\ res <> None)
      \/ exists pre app urls st1 st2 rd ld post,
           l = pre ++ ld ++ post
           /\ forallb isBeforeDeploy pre = true
           /\ deployEnv app urls st1 = (rd, st2, ld)
           /\ opts st1 = opts st
           /\ recordPersistence (vars (opts st)) rd res post).
Proof.
  unfold Execute. intros Hrun. run_inv Hrun.
  all: repeat match goal with
       | Hd : delegateDNSFromApp _ _ _ = _ |- _ =>
           apply delegateDNSFromApp_run in Hd as [? ?]
       | Hd : addToStackset _ _ = _ |- _ =>
           apply addToStackset_run in Hd as [? ?]
       end.
  all: try match goal with
       | Hd : deployEnv _ _ _ = _ |- _ =>
           pose proof (deployEnv_run _ _ _ _ _ _ Hd) as (Hod & _)
       end.
  all: (split; [congruence|]).
  all: unfold recordPersistence.
  all: try match goal with
       | Hd : deployEnv _ _ _ = (_, _, ?ld) |- context [?ld ++ ?R] =>
           right; eexists _, _, _, _, _, _, ld, R;
           split;
           [ repeat lazymatch goal with
                    | |- ?B ++ ?X = _ =>
                        lazymatch B with
                        | ld => fail
                        | _ => apply shift_block
                        end
                    end;
             exact (eq_refl : ld ++ R = [] ++ ld ++ R) |];
           split; [|split; [exact Hd|split; [congruence|]]]
       end.
  all: try (left; split; [|discriminate]).
  all: try (match goal with |- forallb isBeforeDeploy _ = true => idtac end;
            rewrite ?forallb_app; simpl;
            repeat match goal with
                   | Hx : forallb isBeforeDeploy _ = true |- _ => rewrite Hx; clear Hx
                   end; reflexivity).
  all: simpl.
  all: try (split; [reflexivity|reflexivity]).
  all: eexists _, _; (split; [reflexivity|]); simpl.
  all: try (split; [discriminate|reflexivity]).
  all: eexists _, _; (split; [reflexivity|]); simpl.
  all: repeat split; auto; try discriminate; try congruence.
Qed.

Lemma before_deploy_no_deploy (l : list Event) :
  forallb isBeforeDeploy l = true -> forallb (fun ev => negb (isDeploy ev)) l = true.
Proof.
  intros Hl. apply forallb_forall. intros ev Hin.
  rewrite forallb_forall in Hl. specialize (Hl ev Hin). destruct ev; auto; discriminate.
Qed.

Lemma recordPersistence_quiet (o : initEnvVars) (rd res : option error) (post : list Event) :
  recordPersistence o rd res post ->
  forallb (fun ev => negb (isDeploy ev)) post = true
  /\ forallb (fun ev => negb (isRoleCleanup ev)) post = true.
Proof.
  unfold recordPersistence. destruct rd as [err|].
  - intros [_ ->]. split; reflexivity.
  - intros (answer & rest & -> & Hrest). destruct answer as [env|err].
    + destruct Hrest as (d & tail & -> & Htail & _). simpl.
      split; apply forallb_forall; intros ev Hin; rewrite forallb_forall in Htail;
        specialize (Htail ev Hin); destruct ev; auto; discriminate.
    + destruct Hrest as [_ ->]. split; reflexivity.
Qed.

(** The record written to the store, if any, is the stamped one. *)
Lemma Execute_record (st st' : state W) (res : option error) (l : list Event)
  (env : config.Environment) (d : option error) :
  Execute st = (res, st', l) ->
  In (EvStoreCreateEnvironment env d) l ->
  exists reported, env = stamped (vars (opts st)) reported.
Proof.
  intros Hrun Hin. apply Execute_run in Hrun as (_ & [[Hl _]|Hshape]).
  - rewrite forallb_forall in Hl. specialize (Hl _ Hin). discriminate.
  - destruct Hshape as (pre & app & urls & st1 & st2 & rd & ld & post
                        & -> & Hpre & Hd & Ho & Hpost).
    apply in_app_or in Hin as [Hin|Hin].
    { rewrite forallb_forall in Hpre. specialize (Hpre _ Hin). discriminate. }
    apply in_app_or in Hin as [Hin|Hin].
    { apply deployEnv_run in Hd as (_ & Hsteps & _).
      rewrite forallb_forall in Hsteps. specialize (Hsteps _ Hin). discriminate. }
    unfold recordPersistence in Hpost. destruct rd as [err|].
    + destruct Hpost as [_ ->]. destruct Hin.
    + destruct Hpost as (answer & rest & -> & Hrest).
      destruct Hin as [Hin|Hin]; [discriminate Hin|].
      destruct answer as [reported|err].
      * destruct Hrest as (d' & tail & -> & Htail & _).
        destruct Hin as [Hin|Hin].
        -- inversion Hin; subst. eauto.
        -- rewrite forallb_forall in Htail. specialize (Htail _ Hin). discriminate.
      * destruct Hrest as [_ ->]. destruct Hin.
Qed.

(** The input that deployEnv builds for the deployer. *)
Definition deployEnvInput (o : initEnvVars) (app : config.Application)
  (customResourcesURLs : gmap string string) (caller : identity.Caller)
  : deploy.CreateEnvironmentInput :=
  {| deploy.Name := name o;
     deploy.App :=
       {| deploy.AppInformation_Name := appName o;
          deploy.DNSName := config.Application_Domain app;
          deploy.AccountPrincipalARN := identity.RootUserARN caller |};
     deploy.Prod := isProduction o;
     deploy.AdditionalTags := config.Application_Tags app;
     deploy.CustomResourcesURLs := customResourcesURLs;
     deploy.AdjustVPCConfig := adjustVPCConfig o;
     deploy.ImportVPCConfig := importVPCConfig o;
     deploy.Version := LatestEnvTemplateVersion |}.

(** The log of Execute before deployEnv when every step succeeds, for the
    log of the delegation of the DNS and the answer of the role manager
    about the service linked role, which Execute does not read. *)
Definition stepsBeforeDeploy (o : initEnvOpts) (app : config.Application)
  (envCaller : identity.Caller) (ldns : list Event) (linked : option error)
  (bucket : string) (urls : gmap string string) : list Event :=
  [ EvStoreGetApplication (appName (vars o)) (Ok app);
    EvEnvIdentityGet (Ok envCaller) ]
  ++ ldns
  ++ [ EvCreateECSServiceLinkedRole linked;
       EvProgStart
         (fmt.Sprintf fmtAddEnvToAppStart
            [ Emphasize (identity.Account envCaller);
              Emphasize (StringValue (sess_Config_Region o));
              HighlightUserInput (appName (vars o)) ]);
       EvAddEnvToApp
         {| deploycfn.App := app;
            deploycfn.EnvName := name (vars o);
            deploycfn.EnvRegion := StringValue (sess_Config_Region o);
            deploycfn.EnvAccountID := identity.Account envCaller |} None;
       EvProgStop
         (Ssuccessf fmtAddEnvToAppComplete
            [ Emphasize (identity.Account envCaller);
              Emphasize (StringValue (sess_Config_Region o));
              HighlightUserInput (appName (vars o)) ]);
       EvGetAppResourcesByRegion app (StringValue (sess_Config_Region o)) (Ok bucket);
       EvNewS3 (StringValue (sess_Config_Region o)) None;
       EvUploadEnvironmentCustomResources bucket (Ok urls) ].

(** Replaces a call by its answer and goes on to the next step. *)
Ltac answered Hk := rewrite Hk; cbv beta iota zeta; cbn [world opts].

(** C3. In a run of deployEnv, let the deployer answer the deployment with
    an error.  When the error is not that the stack already exists, the error
    is returned as it is, and what follows the deployment in the log is the
    cleanup: for each of the two role names derived from the application and
    the environment, one listing of its tags and, exactly when the listing
    shows the tag of environments, one attempt to delete it, and no attempt
    on any other role.  When the error is that the stack already exists,
    nothing follows the deployment, deployEnv returns no error (and no role
    was listed or deleted at all when the stack was found before the
    deployment), and in a run of Execute the next steps, free of any call on
    a role, are the reading of the environment from the deployer and the
    writing of the stamped record to the store.
    These runs exist.  Once the caller is known and the check for dangling
    roles has returned no error, deployEnv calls the deployer with the input
    it has built; on an error that the stack already exists it returns no
    error with the deployment as its last call, and on any other error it
    runs the cleanup of the roles and returns that error.  And once the
    steps of Execute before deployEnv have succeeded and deployEnv has
    returned no error, Execute reads the environment from the deployer and
    hands the stamped record to the store, returning no error exactly when
    the store takes it. *)
Theorem deployEnv_failure_cleanup :
  (forall (app : config.Application) (urls : gmap string string) (st st' : state W)
          (res : option error) (l pre post : list Event)
          (input : deploy.CreateEnvironmentInput) (err : error),
     deployEnv app urls st = (res, st', l) ->
     l = pre ++ EvDeployAndRenderEnvironment input (Some err) :: post ->
     (errors.As_StackAlreadyExists err = false ->
      res = Some err
      /\ (forall roleName,
            In roleName (envRoleNames (appName (vars (opts st))) (name (vars (opts st)))) ->
            exists tags,
              listings roleName post = [tags]
              /\ length (deletions roleName post) = (if roleTagged tags then 1 else 0))
      /\ (forall roleName d,
            In (EvDeleteRole roleName d) post ->
            In roleName (envRoleNames (appName (vars (opts st))) (name (vars (opts st))))))
     /\ (errors.As_StackAlreadyExists err = true ->
         res = None /\ post = []
         /\ ((exists stackName, In (EvCfnExists stackName (Ok true)) pre) ->
             forallb (fun ev => negb (isRoleCleanup ev)) l = true)))
  /\ (forall (st st' : state W) (res : option error) (l pre post : list Event)
            (input : deploy.CreateEnvironmentInput) (err : error),
        Execute st = (res, st', l) ->
        l = pre ++ EvDeployAndRenderEnvironment input (Some err) :: post ->
        errors.As_StackAlreadyExists err = true ->
        exists answer rest,
          post = EvDeployerGetEnvironment (appName (vars (opts st)))
                   (name (vars (opts st))) answer :: rest
          /\ forallb (fun ev => negb (isRoleCleanup ev)) post = true
          /\ (forall env, answer = Ok env ->
                exists d tail,
                  rest = EvStoreCreateEnvironment (stamped (vars (opts st)) env) d :: tail
                  /\ (d = None -> res = None)))
  /\ (forall (app : config.Application) (urls : gmap string string) (st st2 : state W)
            (caller : identity.Caller) (w1 w3 : W) (lc : list Event) (err : error),
        on_identity_Get (world st) = (Ok caller, w1) ->
        cleanUpDanglingRoles (appName (vars (opts st))) (name (vars (opts st)))
          {| opts := opts st; world := w1 |} = (None, st2, lc) ->
        on_envDeployer_DeployAndRenderEnvironment
          (deployEnvInput (vars (opts st)) app urls caller) (world st2) = (Some err, w3) ->
        (errors.As_StackAlreadyExists err = true ->
         deployEnv app urls st
         = (None, {| opts := opts st2; world := w3 |},
            EvIdentityGet (Ok caller)
              :: lc ++ [EvDeployAndRenderEnvironment
                          (deployEnvInput (vars (opts st)) app urls caller) (Some err)]))
        /\ (errors.As_StackAlreadyExists err = false ->
            forall (done : unit) (st4 : state W) (lt : list Event),
              tryDeletingEnvRoles (appName (vars (opts st))) (name (vars (opts st)))
                {| opts := opts st2; world := w3 |} = (done, st4, lt) ->
              deployEnv app urls st
              = (Some err, st4,
                 EvIdentityGet (Ok caller)
                   :: lc ++ EvDeployAndRenderEnvironment
                              (deployEnvInput (vars (opts st)) app urls caller) (Some err)
                            :: lt)))
  /\ (forall (st st3 st9 : state W) (app : config.Application)
            (envCaller : identity.Caller) (ldns ld : list Event) (linked : option error)
            (bucket : string) (urls : gmap string string) (env : config.Environment)
            (d : option error) (w1 w2 w4 w5 w6 w7 w8 w10 w11 : W),
        on_store_GetApplication (appName (vars (opts st))) (world st) = (Ok app, w1) ->
        on_envIdentity_Get w1 = (Ok envCaller, w2) ->
        (if RequiresDNSDelegation app
         then delegateDNSFromApp app (identity.Account envCaller)
         else ret None) {| opts := opts st; world := w2 |} = (None, st3, ldns) ->
        on_iam_CreateECSServiceLinkedRole (world st3) = (linked, w4) ->
        on_appDeployer_AddEnvToApp
          {| deploycfn.App := app;
             deploycfn.EnvName := name (vars (opts st));
             deploycfn.EnvRegion := StringValue (sess_Config_Region (opts st));
             deploycfn.EnvAccountID := identity.Account envCaller |} w4 = (None, w5) ->
        on_appCFN_GetAppResourcesByRegion app
          (StringValue (sess_Config_Region (opts st))) w5 = (Ok bucket, w6) ->
        on_newS3 (StringValue (sess_Config_Region (opts st))) w6 = (None, w7) ->
        on_uploader_UploadEnvironmentCustomResources bucket w7 = (Ok urls, w8) ->
        deployEnv app urls {| opts := opts st3; world := w8 |} = (None, st9, ld) ->
        on_envDeployer_GetEnvironment (appName (vars (opts st))) (name (vars (opts st)))
          (world st9) = (Ok env, w10) ->
        on_store_CreateEnvironment (stamped (vars (opts st)) env) w10 = (d, w11) ->
        exists tail,
          Execute st
          = (match d with
             | None => None
             | Some e => Some (Errorf_w "store environment: %w" [] e)
             end,
             {| opts := opts st9; world := w11 |},
             stepsBeforeDeploy (opts st) app envCaller ldns linked bucket urls
               ++ ld
               ++ EvDeployerGetEnvironment (appName (vars (opts st)))
                    (name (vars (opts st))) (Ok env)
                  :: EvStoreCreateEnvironment (stamped (vars (opts st)) env) d :: tail)
          /\ forallb isLogLine tail = true
          /\ (d <> None -> tail = [])).
Proof.
  split; [|split; [|split]].
  - intros app urls st st' res l pre post input err Hrun Hsplit.
    apply deployEnv_run in Hrun as (_ & _ & [[Hno _]|Hshape]).
    { exfalso. exact (no_deploy_no_split _ _ _ (EvDeployAndRenderEnvironment input (Some err))
               Hno eq_refl Hsplit). }
    destruct Hshape as (pre0 & input0 & answer & post0 & -> & Hpre & Hpost & Hfound & Hans).
    destruct (split_at_deploy _ _ _ _ _ (EvDeployAndRenderEnvironment input (Some err))
                Hpre Hpost eq_refl Hsplit) as (-> & Hev & ->).
    inversion Hev; subst. split.
    + intros Hother. rewrite Hother in Hans. destruct Hans as (-> & st1 & st2 & u & Htry).
      apply tryDeletingEnvRoles_run in Htry as (_ & _ & Hroles & Honly). auto.
    + intros Hexists. rewrite Hexists in Hans. destruct Hans as (-> & ->).
      split; [reflexivity|]. split; [reflexivity|].
      intros Hstack. rewrite forallb_app. rewrite (Hfound Hstack). reflexivity.
  - intros st st' res l pre post input err Hrun Hsplit Hexists.
    apply Execute_run in Hrun as (_ & [[Hl _]|Hshape]).
    { exfalso. apply before_deploy_no_deploy in Hl.
      exact (no_deploy_no_split _ _ _ (EvDeployAndRenderEnvironment input (Some err))
               Hl eq_refl Hsplit). }
    destruct Hshape as (preE & app & urls & st1 & st2 & rd & ld & postE
                        & -> & HpreE & Hd & Ho & Hpers).
    destruct (recordPersistence_quiet _ _ _ _ Hpers) as [HquietD HquietR].
    apply before_deploy_no_deploy in HpreE.
    apply deployEnv_run in Hd as (_ & _ & [[Hno Hrd]|Hshape]).
    { exfalso.
      apply (no_deploy_no_split (preE ++ ld ++ postE) pre post
               (EvDeployAndRenderEnvironment input (Some err))); auto.
      rewrite !forallb_app, HpreE, Hno, HquietD. reflexivity. }
    destruct Hshape as (pre0 & input0 & answer & post0 & -> & Hpre & Hpost & _ & Hans).
    assert (Hsplit' : (preE ++ pre0) ++ EvDeployAndRenderEnvironment input0 answer
                        :: (post0 ++ postE)
                      = pre ++ EvDeployAndRenderEnvironment input (Some err) :: post).
    { rewrite <- Hsplit. rewrite <- !app_assoc. reflexivity. }
    apply split_at_deploy in Hsplit' as (-> & Hev & ->);
      [| rewrite forallb_app, HpreE, Hpre; reflexivity
       | rewrite forallb_app, Hpost, HquietD; reflexivity
       | reflexivity ].
    inversion Hev; subst. rewrite Hexists in Hans. destruct Hans as (-> & ->).
    unfold recordPersistence in Hpers. destruct Hpers as (ans & rest & -> & Hrest).
    exists ans, rest. split; [reflexivity|]. split; [exact HquietR|].
    intros env ->. destruct Hrest as (d & tail & -> & _ & Hnil & _). eauto.
  - intros app urls st st2 caller w1 w3 lc err Hid Hclean Hdeploy.
    unfold deployEnvInput in *.
    unfold deployEnv, identity_Get, envDeployer_DeployAndRenderEnvironment,
      bind, call, get, ret.
    cbv beta iota zeta; cbn [world opts].
    answered Hid. answered Hclean. answered Hdeploy.
    split.
    + intros ->. rewrite app_nil_r. reflexivity.
    + intros -> done st4 lt Htry. answered Htry. rewrite app_nil_r. reflexivity.
  - intros st st3 st9 app envCaller ldns ld linked bucket urls env d
           w1 w2 w4 w5 w6 w7 w8 w10 w11
           Happ Hcaller Hdns Hlinked Hadd Hres Hs3 Hup Hdeploy Hget Hstore.
    assert (Ho3 : opts st3 = opts st).
    { destruct (RequiresDNSDelegation app).
      - apply delegateDNSFromApp_run in Hdns as [Ho _]. exact Ho.
      - inversion Hdns. reflexivity. }
    unfold stamped in *.
    unfold Execute, addToStackset, store_GetApplication, envIdentity_Get,
      iam_CreateECSServiceLinkedRole, appDeployer_AddEnvToApp,
      appCFN_GetAppResourcesByRegion, newS3, uploader_UploadEnvironmentCustomResources,
      envDeployer_GetEnvironment, store_CreateEnvironment, bind, call, get, emit, ret.
    unfold ret in Hdns.
    cbv beta iota zeta; cbn [world opts].
    answered Happ. answered Hcaller.
    destruct (RequiresDNSDelegation app).
    + answered Hdns. answered Hlinked. rewrite Ho3. answered Hadd. answered Hres.
      answered Hs3. answered Hup.
      rewrite <- Ho3. answered Hdeploy. rewrite Ho3. answered Hget. answered Hstore.
      unfold stepsBeforeDeploy. destruct d as [e|].
      * exists []. split; [|split; reflexivity].
        f_equal; rewrite ?app_nil_r, <- ?app_assoc; simpl;
          rewrite <- ?app_assoc; reflexivity.
      * eexists [_]. split.
        { f_equal; rewrite ?app_nil_r, <- ?app_assoc; simpl;
            rewrite <- ?app_assoc; reflexivity. }
        split; [reflexivity | intros Hx; contradiction].
    + inversion Hdns; subst st3 ldns. cbn [world opts] in *.
      answered Hlinked. answered Hadd. answered Hres. answered Hs3. answered Hup.
      answered Hdeploy. answered Hget. answered Hstore.
      unfold stepsBeforeDeploy. destruct d as [e|].
      * exists []. split; [|split; reflexivity].
        f_equal; rewrite ?app_nil_r, <- ?app_assoc; simpl;
          rewrite <- ?app_assoc; reflexivity.
      * eexists [_]. split.
        { f_equal; rewrite ?app_nil_r, <- ?app_assoc; simpl;
            rewrite <- ?app_assoc; reflexivity. }
        split; [reflexivity | intros Hx; contradiction].
Qed.

(** C9. NewCustomizeEnv returns nil exactly when both of its arguments are
    nil.  Hence in every run of Execute the record written to the store has
    a custom configuration that is nil or holds an import configuration or an
    adjust configuration; it is nil when the default configuration was asked
    for, and also when no import field and no adjust field is set. *)
Theorem persisted_CustomConfig :
  (forall (importVPC : option config.ImportVPC) (adjustVPC : option config.AdjustVPC),
     config.NewCustomizeEnv importVPC adjustVPC = None
     <-> importVPC = None /\ adjustVPC = None)
  /\ (forall (st st' : state W) (res : option error) (l : list Event)
            (env : config.Environment) (d : option error),
        Execute st = (res, st', l) ->
        In (EvStoreCreateEnvironment env d) l ->
        config.CustomConfig env
          = config.NewCustomizeEnv (importVPCConfig (vars (opts st)))
              (adjustVPCConfig (vars (opts st)))
        /\ (forall c, config.CustomConfig env = Some c ->
              config.CustomizeEnv_ImportVPC c <> None \/ config.VPCConfig c <> None)
        /\ (defaultConfig (vars (opts st)) = true -> config.CustomConfig env = None)
        /\ (importVPCVars_isSet (importVPC (vars (opts st))) = false ->
            adjustVPCVars_isSet (adjustVPC (vars (opts st))) = false ->
            config.CustomConfig env = None)).
Proof.
  split; [exact config_props.NewCustomizeEnv_nil_iff|].
  intros st st' res l env d Hrun Hin.
  destruct (Execute_record _ _ _ _ _ _ Hrun Hin) as [reported ->]. simpl.
  split; [reflexivity|]. split; [|split].
  - intros c Hc. apply config_props.NewCustomizeEnv_fields in Hc as (-> & -> & Hsome).
    exact Hsome.
  - intros Hdefault. destruct (vpcConfig_default _ Hdefault) as [-> ->]. reflexivity.
  - intros Hi Ha. unfold importVPCConfig, adjustVPCConfig. rewrite Hi, Ha.
    rewrite !orb_true_r. reflexivity.
Qed.

End Deploy.
End deploy_props.

(** ** Package cli: the questions about the customized resources *)
Module ask_props.

Import cli run_props validate_props.

#[local] Arguments fmt.Sprintf : simpl never.

(** Only the import fields differ. *)
Definition importOnly (o o' : initEnvOpts) : Prop :=
  o' = set_importVPC o (importVPC (vars o')).

(** Only the adjust fields differ. *)
Definition adjustOnly (o o' : initEnvOpts) : Prop :=
  o' = set_adjustVPC o (adjustVPC (vars o')).

Lemma importOnly_refl (o : initEnvOpts) : importOnly o o.
Proof. unfold importOnly. destruct o as [[] ?]. reflexivity. Qed.

Lemma adjustOnly_refl (o : initEnvOpts) : adjustOnly o o.
Proof. unfold adjustOnly. destruct o as [[] ?]. reflexivity. Qed.

(** Rewrites the options of every later state into those of the first. *)
Ltac chain_opts :=
  repeat match goal with
         | Hx : opts ?s = _ |- _ => rewrite Hx in *; clear Hx
         end.

Ltac in_cases H :=
  simpl in H;
  repeat (destruct H as [H|H]; [try (inversion H; subst; clear H) | ]);
  try (destruct H).


Ltac unfold_setters :=
  unfold set_importVPC, set_adjustVPC, set_ID, set_PublicSubnetIDs,
    set_PrivateSubnetIDs, set_CIDR, set_AZs, set_PublicSubnetCIDRs,
    set_PrivateSubnetCIDRs in *.

Ltac find_in := simpl; repeat first [left; reflexivity | right].

Ltac absurd_count :=
  match goal with
  | Hc : (?n =? 1) = false, Hn : ?n = 1 |- _ => rewrite Hn in Hc; discriminate Hc
  | Hc : (?n =? 1) = true, Hn : ?n = 0 |- _ => rewrite Hn in Hc; discriminate Hc
  | Hc : (?n <? 2) = true, Hn : 2 <= ?n |- _ => apply Nat.ltb_lt in Hc; lia
  end.

Ltac solve_one_public :=
  intros input answer Hin Hpub Hone; in_cases Hin; simpl in *; try discriminate;
  try absurd_count;
  (split; [eexists; reflexivity|]);
  intros input' answer' Hin'; in_cases Hin'; reflexivity.

Ltac solve_zero_public :=
  intros input subnets err Hin Hpub Hnf Hzero; in_cases Hin; simpl in *; try discriminate;
  repeat match goal with
         | Hs : Some _ = Some _ |- _ => inversion Hs; subst; clear Hs
         | Hs : None = Some _ |- _ => discriminate Hs
         | Hs : Some _ = None |- _ => discriminate Hs
         end;
  try congruence; try absurd_count;
  (split; [eexists; find_in|]);
  (split; [chain_opts; unfold_setters; simpl; reflexivity|]);
  (split; [intros Hnil;
           first [ match goal with
                   | |- context [EvSelectSubnets
                                   {| selector.Msg := ?m; selector.Help := ?h;
                                      selector.VPCID := ?v; selector.IsPublic := false |} ?a] =>
                       exists {| selector.Msg := m; selector.Help := h;
                                 selector.VPCID := v; selector.IsPublic := false |}, a;
                       split; [find_in | reflexivity]
                   end
                 | exfalso; chain_opts; unfold_setters; simpl in *; congruence ]|]);
  (split; [intros Hnil; first [ reflexivity
                              | exfalso; chain_opts; unfold_setters; simpl in *; congruence ]|]);
  intros input' subnets' Hin' Hpriv Htwo; in_cases Hin'; simpl in *; try discriminate;
  try congruence; try absurd_count; reflexivity.

Ltac solve_private :=
  intros input answer Hin Hpriv Hbad; in_cases Hin; simpl in *; try discriminate;
  first [ eexists; reflexivity
        | exfalso; destruct Hbad as [Hbad|Hbad];
          [ match goal with Hc : (_ <? 2) = false |- _ => apply Nat.ltb_ge in Hc; lia end
          | congruence ] ].

Section Ask.

Context {W : Type} `{Clients W}.

Lemma askImportResources_frame (st st' : state W) (res : option error) (l : list Event) :
  askImportResources st = (res, st', l) -> importOnly (opts st) (opts st').
Proof.
  unfold askImportResources. intros Hrun. run_inv Hrun.
  all: unfold importOnly; chain_opts.
  all: destruct (opts st) as [[] ?]; reflexivity.
Qed.

(** C6. In a run of askImportResources: when the selector hands back one
    public subnet, the method returns an error and does not go on to the
    private subnets; when the selector finds no public subnet, a warning is
    logged, the (empty) answer is kept and the method goes on to the private
    subnets, returning no error once these are there; when the selector finds
    no private subnet, fails, or hands back fewer than two, the method
    returns an error. *)
Theorem askImportResources_subnet_counts (st st' : state W) (res : option error)
  (l : list Event) :
  askImportResources st = (res, st', l) ->
  (forall input answer,
     In (EvSelectSubnets input answer) l ->
     selector.IsPublic input = true ->
     len (fst answer) = 1 ->
     (exists err, res = Some err)
     /\ (forall input' answer',
           In (EvSelectSubnets input' answer') l -> selector.IsPublic input' = true))
  /\ (forall input subnets err,
        In (EvSelectSubnets input (subnets, Some err)) l ->
        selector.IsPublic input = true ->
        errors.Is_SubnetsNotFound err = true ->
        len subnets = 0 ->
        (exists message, In (EvLog LogWarning message) l)
        /\ PublicSubnetIDs (importVPC (vars (opts st'))) = subnets
        /\ (isNil (PrivateSubnetIDs (importVPC (vars (opts st)))) = true ->
            exists input' answer',
              In (EvSelectSubnets input' answer') l /\ selector.IsPublic input' = false)
        /\ (isNil (PrivateSubnetIDs (importVPC (vars (opts st)))) = false -> res = None)
        /\ (forall input' subnets',
              In (EvSelectSubnets input' (subnets', None)) l ->
              selector.IsPublic input' = false ->
              2 <= len subnets' -> res = None))
  /\ (forall input answer,
        In (EvSelectSubnets input answer) l ->
        selector.IsPublic input = false ->
        (len (fst answer) < 2 \/ snd answer <> None) ->
        exists err, res = Some err).
Proof.
  unfold askImportResources. intros Hrun. run_inv Hrun.
  all: split; [|split].
  (* one public subnet *)
  all: try (solve_one_public).
  (* no public subnet *)
  all: try (solve_zero_public).
  (* fewer than two private subnets *)
  all: try (solve_private).
Qed.

Lemma askAZs_frame (st st' : state W) (res : Result (slice string)) (l : list Event) :
  askAZs st = (res, st', l) -> opts st' = opts st.
Proof.
  unfold askAZs. intros Hrun. run_inv Hrun. all: congruence.
Qed.

Lemma askAdjustResources_frame (st st' : state W) (res : option error) (l : list Event) :
  askAdjustResources st = (res, st', l) -> adjustOnly (opts st) (opts st').
Proof.
  unfold askAdjustResources. intros Hrun. run_inv Hrun.
  all: repeat match goal with
       | Hz : askAZs _ = _ |- _ => apply askAZs_frame in Hz
       end.
  all: unfold adjustOnly; chain_opts.
  all: destruct (opts st) as [[] ?]; reflexivity.
Qed.

(** Once the exclusion check has passed, the questions leave at most one of
    the two groups of fields set. *)
Lemma askCustomizedResources_exclusive (st st' : state W) (res : option error)
  (l : list Event) :
  validateCustomizedResources (vars (opts st)) = None ->
  askCustomizedResources st = (res, st', l) ->
  defaultConfig (vars (opts st')) = defaultConfig (vars (opts st))
  /\ importVPCVars_isSet (importVPC (vars (opts st')))
     && adjustVPCVars_isSet (adjustVPC (vars (opts st'))) = false.
Proof.
  intros Hvalid Hrun. apply validate_passed_not_both in Hvalid.
  unfold askCustomizedResources in Hrun. run_inv Hrun.
  all: repeat match goal with
       | Hi : askImportResources _ = _ |- _ => apply askImportResources_frame in Hi
       | Ha : askAdjustResources _ = _ |- _ => apply askAdjustResources_frame in Ha
       end.
  all: unfold importOnly, adjustOnly in *.
  all: repeat match goal with
       | Hx : opts ?s = _ |- _ => rewrite Hx in *; clear Hx
       | Hx : ?o = set_importVPC _ _ |- _ => rewrite Hx; clear Hx
       | Hx : ?o = set_adjustVPC _ _ |- _ => rewrite Hx; clear Hx
       end.
  all: unfold_setters; simpl.
  all: split; [congruence|].
  all: try assumption.
  all: try (rewrite andb_false_iff; right; assumption).
  all: try (rewrite andb_false_iff; left; assumption).
  all: try (rewrite Heqb0 in Hvalid; simpl in Hvalid; rewrite Hvalid; apply andb_false_r).
Qed.

(** The three settings that the customization of an environment rests on. *)
Definition sameCustomization (o o' : initEnvVars) : Prop :=
  importVPC o' = importVPC o /\ adjustVPC o' = adjustVPC o
  /\ defaultConfig o' = defaultConfig o.

Lemma validateCustomizedResources_same (o o' : initEnvVars) :
  sameCustomization o o' ->
  validateCustomizedResources o' = validateCustomizedResources o.
Proof.
  intros (Hi & Ha & Hd). unfold validateCustomizedResources. rewrite Hi, Ha, Hd.
  reflexivity.
Qed.

(** C5. When import-VPC fields and adjust-VPC fields are both given,
    validateCustomizedResources, which calls nothing, returns the error of
    the exclusion.  Validate then returns an error whatever the collaborators
    answer, having called nothing but, when a name was passed, the lookup of
    that name in the store; with no name passed it has called nothing at all
    and its error is the error of the exclusion.  A record written by
    Execute whose custom configuration holds both an import and an adjust
    configuration could only come from options that this check rejects; and
    after a Validate that returned no error, whatever the questions of
    askCustomizedResources are answered, the record that Execute writes holds
    at most one of the two. *)
Theorem both_groups_rejected :
  (forall o : initEnvVars,
     importFieldsGiven (importVPC o) ->
     adjustFieldsGiven (adjustVPC o) ->
     validateCustomizedResources o = Some errBothGroups)
  /\ (forall (st st' : state W) (res : option error) (l : list Event),
        importFieldsGiven (importVPC (vars (opts st))) ->
        adjustFieldsGiven (adjustVPC (vars (opts st))) ->
        Validate st = (res, st', l) ->
        (exists err, res = Some err)
        /\ forallb isDuplicateCheck l = true
        /\ (name (vars (opts st)) = "" -> l = [] /\ res = Some errBothGroups))
  /\ (forall (st st' : state W) (res : option error) (l : list Event)
            (env : config.Environment) (d : option error) (c : config.CustomizeEnv),
        Execute st = (res, st', l) ->
        In (EvStoreCreateEnvironment env d) l ->
        config.CustomConfig env = Some c ->
        config.CustomizeEnv_ImportVPC c <> None ->
        config.VPCConfig c <> None ->
        validateCustomizedResources (vars (opts st)) = Some errBothGroups)
  /\ (forall (stV stV' stA stA' stE stE' : state W) (rA rE : option error)
            (lV lA lE : list Event)
            (env : config.Environment) (d : option error) (c : config.CustomizeEnv),
        Validate stV = (None, stV', lV) ->
        sameCustomization (vars (opts stV')) (vars (opts stA)) ->
        askCustomizedResources stA = (rA, stA', lA) ->
        sameCustomization (vars (opts stA')) (vars (opts stE)) ->
        Execute stE = (rE, stE', lE) ->
        In (EvStoreCreateEnvironment env d) lE ->
        config.CustomConfig env = Some c ->
        config.CustomizeEnv_ImportVPC c = None \/ config.VPCConfig c = None).
Proof.
  assert (Hcheck : forall o : initEnvVars,
             importFieldsGiven (importVPC o) -> adjustFieldsGiven (adjustVPC o) ->
             validateCustomizedResources o = Some errBothGroups).
  { intros o Hi Ha. apply validate_both_groups.
    - apply importVPCVars_isSet_iff. exact Hi.
    - apply adjustVPCVars_isSet_iff. exact Ha. }
  assert (Hrecord : forall (st st' : state W) res l env d c,
             Execute st = (res, st', l) ->
             In (EvStoreCreateEnvironment env d) l ->
             config.CustomConfig env = Some c ->
             config.CustomizeEnv_ImportVPC c <> None ->
             config.VPCConfig c <> None ->
             importVPCVars_isSet (importVPC (vars (opts st))) = true
             /\ adjustVPCVars_isSet (adjustVPC (vars (opts st))) = true).
  { intros st st' res l env d c Hrun Hin Hc Hi Ha.
    destruct (deploy_props.Execute_record _ _ _ _ _ _ Hrun Hin) as [reported ->].
    simpl in Hc.
    apply config_props.NewCustomizeEnv_fields in Hc as (Ei & Ea & _).
    rewrite Ei in Hi. rewrite Ea in Ha.
    destruct (importVPCConfig (vars (opts st))) as [ci|] eqn:Hci; [|contradiction].
    destruct (adjustVPCConfig (vars (opts st))) as [ca|] eqn:Hca; [|contradiction].
    apply importVPCConfig_some in Hci as [_ Hci].
    apply adjustVPCConfig_some in Hca as [_ Hca]. auto. }
  split; [exact Hcheck|]. split; [|split].
  - intros st st' res l Hi Ha Hrun.
    specialize (Hcheck _ Hi Ha).
    apply Validate_run in Hrun as (_ & Hl & Hnone & Hpass & Hfirst).
    split; [|split; [exact Hl|]].
    + destruct res as [err|]; [eauto|]. rewrite (Hpass eq_refl) in Hcheck. discriminate.
    + intros Hname. rewrite Hname in *. split; [apply Hnone; reflexivity|].
      apply Hfirst; [reflexivity | exact Hcheck].
  - intros st st' res l env d c Hrun Hin Hc Hi Ha.
    destruct (Hrecord _ _ _ _ _ _ _ Hrun Hin Hc Hi Ha) as [Hsi Hsa].
    apply validate_both_groups; assumption.
  - intros stV stV' stA stA' stE stE' rA rE lV lA lE env d c
           Hvalidate HsameA Hask HsameE Hrun Hin Hc.
    apply Validate_run in Hvalidate as (Ho & _ & _ & Hpass & _).
    specialize (Hpass eq_refl). rewrite <- Ho in Hpass.
    rewrite <- (validateCustomizedResources_same _ _ HsameA) in Hpass.
    destruct (askCustomizedResources_exclusive _ _ _ _ Hpass Hask) as [_ Hexcl].
    destruct HsameE as (Ei & Ea & _). rewrite <- Ei, <- Ea in Hexcl.
    destruct (config.CustomizeEnv_ImportVPC c) as [ci|] eqn:Hci; [|left; reflexivity].
    destruct (config.VPCConfig c) as [ca|] eqn:Hca; [|right; reflexivity].
    exfalso.
    destruct (Hrecord _ _ _ _ _ _ _ Hrun Hin Hc) as [Hsi Hsa];
      [rewrite Hci; discriminate | rewrite Hca; discriminate|].
    rewrite Hsi, Hsa in Hexcl. discriminate.
Qed.

(** C10. With the default configuration asked for: when an import-VPC field
    or an adjust-VPC field is given as well, validateCustomizedResources
    returns a configuration error (the error of the default configuration,
    or the error of the exclusion when fields of both groups are given) and
    so Validate returns an error; and importVPCConfig and adjustVPCConfig
    return nil whatever the import and adjust fields are. *)
Theorem default_config_excludes_customization (o : initEnvVars) :
  defaultConfig o = true ->
  ((importFieldsGiven (importVPC o) \/ adjustFieldsGiven (adjustVPC o)) ->
   (validateCustomizedResources o = Some errDefaultConfig
    \/ validateCustomizedResources o = Some errBothGroups)
   /\ (importVPCVars_isSet (importVPC o) && adjustVPCVars_isSet (adjustVPC o) = false ->
       validateCustomizedResources o = Some errDefaultConfig)
   /\ (forall (st st' : state W) (res : option error) (l : list Event),
         vars (opts st) = o -> Validate st = (res, st', l) -> exists err, res = Some err))
  /\ importVPCConfig o = None
  /\ adjustVPCConfig o = None.
Proof.
  intros Hdefault. split; [|exact (vpcConfig_default o Hdefault)].
  intros Hgiven.
  assert (Hany : importVPCVars_isSet (importVPC o) || adjustVPCVars_isSet (adjustVPC o)
                 = true).
  { apply orb_true_iff. destruct Hgiven as [Hi|Ha].
    - left. apply importVPCVars_isSet_iff. exact Hi.
    - right. apply adjustVPCVars_isSet_iff. exact Ha. }
  pose proof (validate_default_config o Hdefault Hany) as Hv.
  split; [|split].
  - rewrite Hv. destruct (_ && _); auto.
  - intros Hnot. rewrite Hv, Hnot. reflexivity.
  - intros st st' res l <- Hrun.
    apply Validate_run in Hrun as (_ & _ & _ & Hpass & _).
    destruct res as [err|]; [eauto|]. rewrite (Hpass eq_refl) in Hv. discriminate.
Qed.

End Ask.
End ask_props.

(** ** Runs of the command against scripted collaborators *)
Module scenario.

Import cli run_props validate_props deploy_props ask_props.

(** What the collaborators answer in a scenario. *)
Record Script : Type := {
  environmentStored : bool;
  stackExists : bool;
  deployAnswer : option error;
  roleTags : gmap string string;
  publicSubnets : slice string * option error;
  privateSubnets : slice string * option error
}.

Definition demoCaller : identity.Caller :=
  {| identity.Account := "123456789012";
     identity.RootUserARN := "arn:aws:iam::123456789012:root" |}.

Definition deployedEnv (app env : string) : config.Environment :=
  {| config.App := app; config.Name := env; config.Region := "us-west-2";
     config.AccountID := "123456789012"; config.Prod := false;
     config.RegistryURL := ""; config.ExecutionRoleARN := "";
     config.ManagerRoleARN := ""; config.CustomConfig := None |}.

(** Collaborators that answer by the script and never change it. *)
Definition scripted : Clients Script :=
  {| on_store_GetApplication := fun _ w => (Ok config_props.demoApp, w);
     on_store_GetEnvironment := fun app env w =>
       (if environmentStored w then Ok (deployedEnv app env)
        else Err (ErrNoSuchEnvironment app env), w);
     on_store_CreateEnvironment := fun _ w => (None, w);
     on_envDeployer_DeployAndRenderEnvironment := fun _ w => (deployAnswer w, w);
     on_envDeployer_GetEnvironment := fun app env w => (Ok (deployedEnv app env), w);
     on_appDeployer_AddEnvToApp := fun _ w => (None, w);
     on_appDeployer_DelegateDNSPermissions := fun _ _ w => (None, w);
     on_identity_Get := fun w => (Ok demoCaller, w);
     on_envIdentity_Get := fun w => (Ok demoCaller, w);
     on_ec2Client_HasDNSSupport := fun _ w => (Ok true, w);
     on_ec2Client_ListAZs := fun w => (Ok ["us-west-2a"; "us-west-2b"], w);
     on_iam_CreateECSServiceLinkedRole := fun w => (None, w);
     on_iam_ListRoleTags := fun _ w => (Ok (roleTags w), w);
     on_iam_DeleteRole := fun _ w => (None, w);
     on_cfn_Exists := fun _ w => (Ok (stackExists w), w);
     on_prompt_Get := fun _ _ w => (Ok "10.0.0.0/16", w);
     on_prompt_SelectOne := fun _ _ _ w => (Ok envInitDefaultConfigSelectOption, w);
     on_prompt_MultiSelect := fun _ _ options w => (Ok (Some options), w);
     on_selVPC_VPC := fun _ _ w => (Ok "vpc-0a1b", w);
     on_selVPC_Subnets := fun input w =>
       (if selector.IsPublic input then publicSubnets w else privateSubnets w, w);
     on_appCFN_GetAppResourcesByRegion := fun _ _ w => (Ok "stackset-demo-bucket", w);
     on_newS3 := fun _ w => (None, w);
     on_uploader_UploadEnvironmentCustomResources := fun _ w => (Ok ∅, w);
     validateEnvironmentName := fun _ => None;
     RequiresDNSDelegation := fun app =>
       negb (String.eqb (config.Application_Domain app) "");
     NameForEnv := fun app env => app +:+ "-" +:+ env;
     ParseCIDR := fun s => Ok {| IPNet_String := s |};
     EnvTagKey := "copilot-environment";
     LatestEnvTemplateVersion := "v1.0.0";
     defaultConfigFlag := "default-config";
     profileFlag := "profile";
     accessKeyIDFlag := "aws-access-key-id";
     secretAccessKeyFlag := "aws-secret-access-key";
     sessionTokenFlag := "aws-session-token";
     Serrorf := fun format args => "Error: " +:+ fmt.Sprintf format args;
     Ssuccessf := fun format args => "Success: " +:+ fmt.Sprintf format args |}.

Definition noImport : importVPCVars :=
  {| ID := ""; PublicSubnetIDs := None; PrivateSubnetIDs := None |}.

Definition noAdjust : adjustVPCVars :=
  {| CIDR := emptyIPNet; AZs := None; PublicSubnetCIDRs := None;
     PrivateSubnetCIDRs := None |}.

Definition flags (envName : string) (default : bool) (i : importVPCVars) (a : adjustVPCVars)
  : initEnvOpts :=
  {| vars := {| appName := "demo"; name := envName; profile := "default";
                isProduction := false; defaultConfig := default;
                importVPC := i; adjustVPC := a;
                tempCreds := {| AccessKeyID := ""; SecretAccessKey := "";
                                SessionToken := "" |};
                region := "" |};
     sess_Config_Region := Some "us-west-2" |}.

Definition script (exists_ : bool) (answer : option error) (tagged : bool)
  (public private : slice string * option error) : Script :=
  {| environmentStored := false;
     stackExists := exists_;
     deployAnswer := answer;
     roleTags := if tagged then {[ "copilot-environment" := "test" ]} else ∅;
     publicSubnets := public;
     privateSubnets := private |}.

Definition twoSubnets : slice string * option error := (Some ["subnet-1"; "subnet-2"], None).

(** The stack fails to deploy for a reason of its own; both roles carry the
    tag. *)
Definition failedDeploy : state Script :=
  {| opts := flags "test" true noImport noAdjust;
     world := script true (Some (errorString "stack creation failed")) true
                twoSubnets twoSubnets |}.

(** The deployer answers that the stack of the environment exists already;
    the stack was found before the deployment. *)
Definition stackTaken : state Script :=
  {| opts := flags "test" true noImport noAdjust;
     world := script true (Some (ErrStackAlreadyExists "demo-test")) true
                twoSubnets twoSubnets |}.

Definition cfnRole : string := "demo-test-CFNExecutionRole".
Definition managerRole : string := "demo-test-EnvManagerRole".

(** The input of the deployment in these runs. *)
Definition demoInput : deploy.CreateEnvironmentInput :=
  {| deploy.Name := "test";
     deploy.App := {| deploy.AppInformation_Name := "demo";
                      deploy.DNSName := "";
                      deploy.AccountPrincipalARN := "arn:aws:iam::123456789012:root" |};
     deploy.Prod := false;
     deploy.AdditionalTags := ∅;
     deploy.CustomResourcesURLs := ∅;
     deploy.AdjustVPCConfig := None;
     deploy.ImportVPCConfig := None;
     deploy.Version := "v1.0.0" |}.

Lemma deployEnv_failure_cleanup_witness :
  (exists post,
     snd (@deployEnv _ scripted config_props.demoApp ∅ failedDeploy)
     = [EvIdentityGet (Ok demoCaller); EvCfnExists "demo-test" (Ok true)]
         ++ EvDeployAndRenderEnvironment demoInput
              (Some (errorString "stack creation failed")) :: post
     /\ fst (fst (@deployEnv _ scripted config_props.demoApp ∅ failedDeploy))
        = Some (errorString "stack creation failed")
     /\ length (deletions cfnRole post) = 1
     /\ length (deletions managerRole post) = 1)
  /\ @deployEnv _ scripted config_props.demoApp ∅ failedDeploy
     = (Some (errorString "stack creation failed"), failedDeploy,
        [ EvIdentityGet (Ok demoCaller);
          EvCfnExists "demo-test" (Ok true);
          EvDeployAndRenderEnvironment demoInput
            (Some (errorString "stack creation failed"));
          EvListRoleTags cfnRole (Ok {[ "copilot-environment" := "test" ]});
          EvDeleteRole cfnRole None;
          EvListRoleTags managerRole (Ok {[ "copilot-environment" := "test" ]});
          EvDeleteRole managerRole None ])
  /\ @deployEnv _ scripted config_props.demoApp ∅ stackTaken
     = (None, stackTaken,
        [ EvIdentityGet (Ok demoCaller);
          EvCfnExists "demo-test" (Ok true);
          EvDeployAndRenderEnvironment demoInput
            (Some (ErrStackAlreadyExists "demo-test")) ])
  /\ (exists pre post tail,
        @Execute _ scripted stackTaken
        = (None, stackTaken,
           pre ++ EvDeployAndRenderEnvironment demoInput
                    (Some (ErrStackAlreadyExists "demo-test")) :: post)
        /\ post = EvDeployerGetEnvironment "demo" "test" (Ok (deployedEnv "demo" "test"))
                  :: EvStoreCreateEnvironment (deployedEnv "demo" "test") None :: tail
        /\ forallb (fun e => negb (isRoleCleanup e)) (pre ++ post) = true).
Proof.
  pose proof (@deployEnv_failure_cleanup _ scripted) as (Hdeploy & Hexecute & Hreach & Hpersist).
  destruct (Hreach config_props.demoApp ∅ failedDeploy failedDeploy demoCaller
              (world failedDeploy) (world failedDeploy)
              [EvCfnExists "demo-test" (Ok true)]
              (errorString "stack creation failed")
              eq_refl eq_refl eq_refl) as [_ Hfailed].
  specialize (Hfailed eq_refl tt failedDeploy
                [ EvListRoleTags cfnRole (Ok {[ "copilot-environment" := "test" ]});
                  EvDeleteRole cfnRole None;
                  EvListRoleTags managerRole (Ok {[ "copilot-environment" := "test" ]});
                  EvDeleteRole managerRole None ]
                eq_refl).
  destruct (Hreach config_props.demoApp ∅ stackTaken stackTaken demoCaller
              (world stackTaken) (world stackTaken)
              [EvCfnExists "demo-test" (Ok true)]
              (ErrStackAlreadyExists "demo-test")
              eq_refl eq_refl eq_refl) as [Htaken _].
  specialize (Htaken eq_refl).
  destruct (Hpersist stackTaken stackTaken stackTaken config_props.demoApp demoCaller
              [] _ None "stackset-demo-bucket" ∅ (deployedEnv "demo" "test") None
              (world stackTaken) (world stackTaken) (world stackTaken)
              (world stackTaken) (world stackTaken) (world stackTaken)
              (world stackTaken) (world stackTaken) (world stackTaken)
              eq_refl eq_refl eq_refl eq_refl eq_refl eq_refl eq_refl eq_refl
              Htaken eq_refl eq_refl) as (tail & Hrun & _ & _).
  split; [|split; [exact Hfailed|split; [exact Htaken|]]].
  - exists [ EvListRoleTags cfnRole (Ok {[ "copilot-environment" := "test" ]});
             EvDeleteRole cfnRole None;
             EvListRoleTags managerRole (Ok {[ "copilot-environment" := "test" ]});
             EvDeleteRole managerRole None ].
    split; [rewrite Hfailed; reflexivity|].
    destruct (proj1 (Hdeploy config_props.demoApp ∅ failedDeploy _ _ _
                       [EvIdentityGet (Ok demoCaller); EvCfnExists "demo-test" (Ok true)]
                       [ EvListRoleTags cfnRole (Ok {[ "copilot-environment" := "test" ]});
                         EvDeleteRole cfnRole None;
                         EvListRoleTags managerRole (Ok {[ "copilot-environment" := "test" ]});
                         EvDeleteRole managerRole None ]
                       demoInput _ Hfailed eq_refl) eq_refl) as (_ & Hroles & _).
    split; [rewrite Hfailed; reflexivity|].
    destruct (Hroles cfnRole) as (tags1 & Hlist1 & Hdel1); [left; reflexivity|].
    destruct (Hroles managerRole) as (tags2 & Hlist2 & Hdel2); [right; left; reflexivity|].
    inversion Hlist1; subst tags1. inversion Hlist2; subst tags2.
    split; [exact Hdel1 | exact Hdel2].
  - exists (@stepsBeforeDeploy _ scripted (opts stackTaken) config_props.demoApp demoCaller []
              None "stackset-demo-bucket" ∅
              ++ [EvIdentityGet (Ok demoCaller); EvCfnExists "demo-test" (Ok true)]),
           (EvDeployerGetEnvironment "demo" "test" (Ok (deployedEnv "demo" "test"))
              :: EvStoreCreateEnvironment (deployedEnv "demo" "test") None :: tail),
           tail.
    assert (Hlog : @Execute _ scripted stackTaken
                   = (None, stackTaken,
                      (@stepsBeforeDeploy _ scripted (opts stackTaken) config_props.demoApp demoCaller []
                         None "stackset-demo-bucket" ∅
                         ++ [EvIdentityGet (Ok demoCaller); EvCfnExists "demo-test" (Ok true)])
                      ++ EvDeployAndRenderEnvironment demoInput
                           (Some (ErrStackAlreadyExists "demo-test"))
                         :: EvDeployerGetEnvironment "demo" "test"
                              (Ok (deployedEnv "demo" "test"))
                         :: EvStoreCreateEnvironment (deployedEnv "demo" "test") None :: tail)).
    { rewrite Hrun. rewrite <- app_assoc. reflexivity. }
    split; [exact Hlog|]. split; [reflexivity|].
    destruct (Hexecute stackTaken _ _ _ _ _ _ _ Hlog eq_refl eq_refl)
      as (answer & rest & Hpost & Hquiet & _).
    rewrite forallb_app. rewrite Hquiet. rewrite andb_true_r. reflexivity.
Defined.

(** Import fields and adjust fields given together. *)
Definition bothGroups : initEnvVars :=
  vars (flags "" false
          {| ID := "vpc-0a1b"; PublicSubnetIDs := None; PrivateSubnetIDs := None |}
          {| CIDR := emptyIPNet; AZs := Some ["us-west-2a"; "us-west-2b"];
             PublicSubnetCIDRs := None; PrivateSubnetCIDRs := None |}).

Lemma both_groups_rejected_witness :
  @validateCustomizedResources _ scripted bothGroups = Some errBothGroups.
Proof.
  apply (proj1 (@both_groups_rejected _ scripted) bothGroups).
  - left. discriminate.
  - right. left. simpl. lia.
Defined.

(** The default configuration asked for together with a VPC to import. *)
Definition defaultWithImport : initEnvVars :=
  vars (flags "test" true
          {| ID := "vpc-0a1b"; PublicSubnetIDs := None; PrivateSubnetIDs := None |}
          noAdjust).

Lemma default_config_excludes_customization_witness :
  @validateCustomizedResources _ scripted defaultWithImport
  = Some (@errDefaultConfig _ scripted)
  /\ @importVPCConfig defaultWithImport = None
  /\ @adjustVPCConfig defaultWithImport = None.
Proof.
  destruct (@default_config_excludes_customization _ scripted defaultWithImport eq_refl)
    as (Hgiven & Hi & Ha).
  destruct Hgiven as (_ & Honly & _); [left; left; discriminate|].
  split; [apply Honly; reflexivity|]. split; assumption.
Defined.

(** A VPC to import is given; the selector hands back one public subnet. *)
Definition onePublicSubnet : state Script :=
  {| opts := flags "test" false
               {| ID := "vpc-0a1b"; PublicSubnetIDs := None; PrivateSubnetIDs := None |}
               noAdjust;
     world := script false None false (Some ["subnet-1"], None) twoSubnets |}.

Lemma askImportResources_subnet_counts_witness :
  exists err, fst (fst (@askImportResources _ scripted onePublicSubnet)) = Some err.
Proof.
  destruct (@askImportResources _ scripted onePublicSubnet) as [[res st'] l] eqn:Hrun.
  assert (Hin : In (EvSelectSubnets
                      {| selector.Msg := envInitPublicSubnetsSelectPrompt;
                         selector.Help := "";
                         selector.VPCID := "vpc-0a1b";
                         selector.IsPublic := true |}
                      (Some ["subnet-1"], None)) l).
  { pose proof Hrun as Hc. vm_compute in Hc. inversion Hc.
    repeat first [left; reflexivity | right]. }
  destruct (proj1 (@askImportResources_subnet_counts _ scripted _ _ _ _ Hrun)
              _ _ Hin eq_refl eq_refl) as [Herr _].
  exact Herr.
Defined.

(** The default configuration; every step succeeds. *)
Definition defaultRun : state Script :=
  {| opts := flags "test" true noImport noAdjust;
     world := script false None false twoSubnets twoSubnets |}.

Lemma persisted_CustomConfig_witness :
  exists env d,
    In (EvStoreCreateEnvironment env d) (snd (@Execute _ scripted defaultRun))
    /\ config.CustomConfig env = None.
Proof.
  destruct (@Execute _ scripted defaultRun) as [[res st'] l] eqn:Hrun.
  assert (Hin : In (EvStoreCreateEnvironment (deployedEnv "demo" "test") None) l).
  { pose proof Hrun as Hc. vm_compute in Hc. inversion Hc.
    repeat first [left; reflexivity | right]. }
  exists (deployedEnv "demo" "test"), None. split; [exact Hin|].
  destruct (proj2 (@persisted_CustomConfig _ scripted) _ _ _ _ _ _ Hrun Hin)
    as (_ & _ & Hdefault & _).
  apply Hdefault. reflexivity.
Defined.

End scenario.

(** ** sort.SliceStable only swaps *)
Module sort_props.

Section Perm.

Context {A : Type}.

Variable less : list A -> nat -> nat -> bool.

Lemma Swap_perm (data : list A) (i j : nat) : sort.Swap data i j ≡ₚ data.
Proof.
  unfold sort.Swap. destruct (data !! i) as [x|] eqn:Hi; [|reflexivity].
  destruct (data !! j) as [y|] eqn:Hj; [|reflexivity].
  apply Permutation_insert_swap; assumption.
Qed.

Lemma insertionShift_perm (a j : nat) (data : list A) :
  sort.insertionShift less a j data ≡ₚ data.
Proof.
  revert data. induction j as [|j IH]; intros data; simpl; [reflexivity|].
  destruct (_ && _); [|reflexivity]. rewrite IH. apply Swap_perm.
Qed.

Lemma insertionLoop_perm (n a b i : nat) (data : list A) :
  sort.insertionLoop less n a b i data ≡ₚ data.
Proof.
  revert i data. induction n as [|n IH]; intros i data; simpl; [reflexivity|].
  destruct (i <? b); [|reflexivity]. rewrite IH. apply insertionShift_perm.
Qed.

Lemma insertionSort_perm (data : list A) (a b : nat) :
  sort.insertionSort_func less data a b ≡ₚ data.
Proof. apply insertionLoop_perm. Qed.

Lemma swapRangeLoop_perm (k a b i : nat) (data : list A) :
  sort.swapRangeLoop k a b i data ≡ₚ data.
Proof.
  revert i data. induction k as [|k IH]; intros i data; simpl; [reflexivity|].
  rewrite IH. apply Swap_perm.
Qed.

Lemma rotateLoop_perm (fuel m i j : nat) (data : list A) :
  fst (sort.rotateLoop fuel m i j data) ≡ₚ data.
Proof.
  revert i j data. induction fuel as [|fuel IH]; intros i j data; simpl; [reflexivity|].
  destruct (i =? j); [reflexivity|].
  destruct (j <? i); rewrite IH; apply swapRangeLoop_perm.
Qed.

Lemma rotate_perm (data : list A) (a m b : nat) : sort.rotate_func data a m b ≡ₚ data.
Proof.
  unfold sort.rotate_func.
  pose proof (rotateLoop_perm (b - a) m (m - a) (b - m) data) as Hp.
  destruct (sort.rotateLoop (b - a) m (m - a) (b - m) data) as [data' i].
  simpl in Hp. unfold sort.swapRange_func. rewrite swapRangeLoop_perm. exact Hp.
Qed.

Lemma bubbleUp_perm (cnt k : nat) (data : list A) : sort.bubbleUp cnt k data ≡ₚ data.
Proof.
  revert k data. induction cnt as [|cnt IH]; intros k data; simpl; [reflexivity|].
  rewrite IH. apply Swap_perm.
Qed.

Lemma bubbleDown_perm (cnt k : nat) (data : list A) : sort.bubbleDown cnt k data ≡ₚ data.
Proof.
  revert k data. induction cnt as [|cnt IH]; intros k data; simpl; [reflexivity|].
  rewrite IH. apply Swap_perm.
Qed.

Lemma symMerge_fuel_perm (fuel : nat) (data : list A) (a m b : nat) :
  sort.symMerge_fuel less fuel data a m b ≡ₚ data.
Proof.
  revert data a m b. induction fuel as [|fuel IH]; intros data a m b; [reflexivity|].
  cbn [sort.symMerge_fuel].
  destruct (m - a =? 1); [apply bubbleUp_perm|].
  destruct (b - m =? 1); [apply bubbleDown_perm|].
  destruct (if (a + b) / 2 <? m then _ else _) as [start r].
  repeat match goal with
         | |- context [if ?c then _ else _] => destruct c
         end;
    rewrite ?IH, ?rotate_perm; reflexivity.
Qed.

Lemma blocksLoop_perm (fuel blockSize n a b : nat) (data : list A) :
  fst (sort.blocksLoop less fuel blockSize n a b data) ≡ₚ data.
Proof.
  revert a b data. induction fuel as [|fuel IH]; intros a b data; simpl; [reflexivity|].
  destruct (b <=? n); [|reflexivity]. rewrite IH. apply insertionSort_perm.
Qed.

Lemma mergeLoop_perm (fuel blockSize n a b : nat) (data : list A) :
  fst (sort.mergeLoop less fuel blockSize n a b data) ≡ₚ data.
Proof.
  revert a b data. induction fuel as [|fuel IH]; intros a b data; simpl; [reflexivity|].
  destruct (b <=? n); [|reflexivity]. rewrite IH. apply symMerge_fuel_perm.
Qed.

Lemma roundsLoop_perm (fuel blockSize n : nat) (data : list A) :
  sort.roundsLoop less fuel blockSize n data ≡ₚ data.
Proof.
  revert blockSize data. induction fuel as [|fuel IH]; intros blockSize data;
    [reflexivity|].
  cbn [sort.roundsLoop]. destruct (blockSize <? n); [|reflexivity].
  pose proof (mergeLoop_perm n blockSize n 0 (2 * blockSize) data) as Hp.
  destruct (sort.mergeLoop less n blockSize n 0 (2 * blockSize) data) as [d a].
  simpl in Hp. rewrite IH.
  destruct (a + blockSize <? n); [unfold sort.symMerge_func; rewrite symMerge_fuel_perm|];
    exact Hp.
Qed.

(** Whatever the comparison answers, SliceStable returns the elements it was
    given, each as often as it was there. *)
Lemma SliceStable_perm (x : list A) : sort.SliceStable less x ≡ₚ x.
Proof.
  unfold sort.SliceStable, sort.stable_func.
  pose proof (blocksLoop_perm (length x) 20 (length x) 0 20 x) as Hp.
  destruct (sort.blocksLoop less (length x) 20 (length x) 0 20 x) as [d a].
  simpl in Hp. rewrite roundsLoop_perm, insertionSort_perm. exact Hp.
Qed.

End Perm.

End sort_props.

(** ** sort.SliceStable on one block is an insertion sort *)
Module insertion_props.

Section Insertion.

Context {A : Type}.

(** The comparison of two elements, and a comparison of indices that reads
    the elements at the indices and compares them with it. *)
Variable lt : A -> A -> bool.
Variable less : list A -> nat -> nat -> bool.
Hypothesis less_reads :
  forall data i j x y, data !! i = Some x -> data !! j = Some y -> less data i j = lt x y.

(** The insertion of [x] into the part already in place, which is given
    from its last element to its first: [x] passes every element it is less
    than, until one it is not less than. *)
Fixpoint ins (x : A) (rl : list A) : list A :=
  match rl with
  | [] => [x]
  | y :: rl' => if lt x y then y :: ins x rl' else x :: rl
  end.

(** The insertion sort, element by element from the left. *)
Definition isort (data : list A) : list A :=
  rev (fold_left (fun rl x => ins x rl) data []).

Lemma ins_length (x : A) (rl : list A) : length (ins x rl) = S (length rl).
Proof.
  induction rl as [|y rl IH]; simpl; [reflexivity|].
  destruct (lt x y); simpl; congruence.
Qed.

Lemma ins_perm (x : A) (rl : list A) : ins x rl ≡ₚ x :: rl.
Proof.
  induction rl as [|y rl IH]; simpl; [reflexivity|].
  destruct (lt x y); [|reflexivity]. rewrite IH. apply Permutation_swap.
Qed.

Lemma Swap_adjacent (l1 l2 : list A) (y x : A) :
  sort.Swap (l1 ++ y :: x :: l2) (S (length l1)) (length l1) = l1 ++ x :: y :: l2.
Proof.
  unfold sort.Swap.
  assert (Hx : (l1 ++ y :: x :: l2) !! S (length l1) = Some x).
  { rewrite lookup_app_r by lia. replace (S (length l1) - length l1) with 1 by lia.
    reflexivity. }
  assert (Hy : (l1 ++ y :: x :: l2) !! length l1 = Some y).
  { rewrite lookup_app_r by lia. rewrite Nat.sub_diag. reflexivity. }
  rewrite Hx, Hy.
  rewrite (insert_app_r_alt l1 _ (S (length l1))) by lia.
  replace (S (length l1) - length l1) with 1 by lia. simpl.
  rewrite (insert_app_r_alt l1 _ (length l1)) by lia.
  rewrite Nat.sub_diag. reflexivity.
Qed.

Lemma insertionShift_ins (l1 l2 : list A) (x : A) :
  sort.insertionShift less 0 (length l1) (l1 ++ x :: l2) = rev (ins x (rev l1)) ++ l2.
Proof.
  revert l2. induction l1 as [|y l1 IH] using rev_ind; intros l2; [reflexivity|].
  rewrite length_app, Nat.add_1_r. cbn [sort.insertionShift].
  rewrite rev_app_distr. cbn [rev app ins].
  assert (Hless : less ((l1 ++ [y]) ++ x :: l2) (S (length l1)) (length l1) = lt x y).
  { apply less_reads.
    - rewrite <- app_assoc. rewrite lookup_app_r by lia.
      replace (S (length l1) - length l1) with 1 by lia. reflexivity.
    - rewrite <- app_assoc. rewrite lookup_app_r by lia.
      rewrite Nat.sub_diag. reflexivity. }
  rewrite Hless. cbn [Nat.ltb Nat.leb andb].
  destruct (lt x y).
  - rewrite <- app_assoc. cbn [app]. rewrite Swap_adjacent, IH.
    cbn [rev]. rewrite <- app_assoc. reflexivity.
  - cbn [rev]. rewrite rev_involutive, <- !app_assoc. reflexivity.
Qed.

Lemma insertionLoop_fold (n : nat) (pre rest : list A) :
  length rest <= n ->
  sort.insertionLoop less n 0 (length pre + length rest) (length pre) (pre ++ rest)
  = rev (fold_left (fun rl x => ins x rl) rest (rev pre)).
Proof.
  revert pre rest. induction n as [|n IH]; intros pre rest Hn.
  - destruct rest; [|simpl in Hn; lia]. simpl. rewrite app_nil_r, rev_involutive.
    reflexivity.
  - destruct rest as [|x rest].
    + cbn [sort.insertionLoop length]. rewrite Nat.add_0_r, Nat.ltb_irrefl.
      simpl. rewrite app_nil_r, rev_involutive. reflexivity.
    + cbn [sort.insertionLoop].
      assert (Hlt : (length pre <? length pre + length (x :: rest)) = true)
        by (apply Nat.ltb_lt; simpl; lia).
      rewrite Hlt, insertionShift_ins.
      assert (Hlen : length (rev (ins x (rev pre))) = S (length pre)).
      { rewrite length_rev, ins_length, length_rev. reflexivity. }
      replace (length pre + length (x :: rest))
        with (length (rev (ins x (rev pre))) + length rest) by (simpl; lia).
      rewrite <- Hlen. rewrite IH by (simpl in Hn; lia).
      rewrite rev_involutive. reflexivity.
Qed.

Lemma insertionSort_isort (data : list A) :
  sort.insertionSort_func less data 0 (length data) = isort data.
Proof.
  unfold sort.insertionSort_func, isort. destruct data as [|x rest]; [reflexivity|].
  rewrite Nat.sub_0_r.
  change (sort.insertionLoop less (length (x :: rest)) 0
            (length [x] + length rest) (length [x]) ([x] ++ rest)
          = rev (fold_left (fun rl y => ins y rl) rest (rev [x]))).
  apply insertionLoop_fold. simpl. lia.
Qed.

Lemma blocksLoop_eq (fuel blockSize n a b : nat) (data : list A) :
  sort.blocksLoop less (S fuel) blockSize n a b data
  = if b <=? n
    then sort.blocksLoop less fuel blockSize n b (b + blockSize)
           (sort.insertionSort_func less data a b)
    else (data, a).
Proof. reflexivity. Qed.

Lemma roundsLoop_done (fuel blockSize n : nat) (data : list A) :
  n <= blockSize -> sort.roundsLoop less fuel blockSize n data = data.
Proof.
  intros Hn. destruct fuel; [reflexivity|]. cbn [sort.roundsLoop].
  assert (E : (blockSize <? n) = false) by (apply Nat.ltb_ge; exact Hn).
  rewrite E. reflexivity.
Qed.

(** A slice of at most 20 elements is one block: SliceStable is the
    insertion sort of the whole slice. *)
Lemma SliceStable_one_block (x : list A) :
  length x <= 20 -> sort.SliceStable less x = isort x.
Proof.
  intros Hlen. unfold sort.SliceStable, sort.stable_func.
  destruct (Nat.eq_dec (length x) 20) as [E|E].
  - rewrite E. rewrite blocksLoop_eq. change (20 <=? 20) with true. cbv iota.
    rewrite blocksLoop_eq. change (20 + 20 <=? 20) with false. cbv iota.
    rewrite roundsLoop_done by lia.
    unfold sort.insertionSort_func at 1. rewrite Nat.sub_diag. cbn [sort.insertionLoop].
    rewrite <- E. apply insertionSort_isort.
  - assert (Hb : sort.blocksLoop less (length x) 20 (length x) 0 20 x = (x, 0)).
    { destruct (length x) as [|n] eqn:En; [reflexivity|].
      rewrite blocksLoop_eq.
      assert (E20 : (20 <=? S n) = false) by (apply Nat.leb_gt; lia).
      rewrite E20. reflexivity. }
    rewrite Hb. rewrite roundsLoop_done by lia. apply insertionSort_isort.
Qed.

Lemma fold_ins_perm (data acc : list A) :
  fold_left (fun rl x => ins x rl) data acc ≡ₚ acc ++ data.
Proof.
  revert acc. induction data as [|x data IH]; intros acc; simpl.
  - rewrite app_nil_r. reflexivity.
  - rewrite IH, ins_perm. rewrite <- Permutation_middle. reflexivity.
Qed.

Lemma isort_perm (data : list A) : isort data ≡ₚ data.
Proof. unfold isort. rewrite <- Permutation_rev, fold_ins_perm. reflexivity. Qed.

End Insertion.

Lemma StronglySorted_snoc {A : Type} (R : A -> A -> Prop) (l : list A) (a : A) :
  StronglySorted R l -> Forall (fun x => R x a) l -> StronglySorted R (l ++ [a]).
Proof.
  induction 1 as [|b l Hs IH Hall]; intros Ha; simpl.
  - repeat constructor.
  - inversion Ha; subst. constructor; [apply IH; assumption|].
    apply Forall_app. split; [exact Hall|]. repeat constructor. assumption.
Qed.

Lemma StronglySorted_rev {A : Type} (R : A -> A -> Prop) (l : list A) :
  StronglySorted R l -> StronglySorted (flip R) (rev l).
Proof.
  induction 1 as [|a l Hs IH Hall]; simpl; [constructor|].
  apply StronglySorted_snoc; [exact IH|].
  unfold flip. rewrite Forall_forall in *. intros x Hx. apply Hall.
  apply list_elem_of_In. apply in_rev. apply list_elem_of_In. exact Hx.
Qed.

Lemma StronglySorted_filter {A : Type} (R : A -> A -> Prop) (f : A -> bool) (l : list A) :
  StronglySorted R l -> StronglySorted R (List.filter f l).
Proof.
  induction 1 as [|a l Hs IH Hall]; simpl; [constructor|].
  destruct (f a); [|exact IH]. constructor; [exact IH|].
  rewrite Forall_forall in *. intros x Hx. apply Hall.
  apply list_elem_of_In. apply list_elem_of_In in Hx. apply filter_In in Hx. tauto.
Qed.

End insertion_props.

(** ** Package config: the store of environment records *)
Module config_store_props.

Import config config_props.

Section StoreProps.

Context `{StoreDeps}.

Lemma decodeEnvs_ok (appName : string) (values : list string)
  (acc decoded : list Environment) :
  decodeEnvs appName values acc = Ok decoded ->
  exists rest, decoded = acc ++ rest /\ Forall2 (fun v e => Unmarshal v = Ok e) values rest.
Proof.
  revert acc. induction values as [|v values IH]; intros acc; simpl.
  - intros E. inversion E; subst. exists []. rewrite app_nil_r. split; [reflexivity|constructor].
  - destruct (Unmarshal v) as [e|err] eqn:Hv; [|discriminate].
    intros E. apply IH in E as (rest & -> & Hall).
    exists (e :: rest). rewrite <- app_assoc. split; [reflexivity|].
    constructor; assumption.
Qed.

Lemma decodeEnvs_all (appName : string) (values : list string)
  (acc rest : list Environment) :
  Forall2 (fun v e => Unmarshal v = Ok e) values rest ->
  decodeEnvs appName values acc = Ok (acc ++ rest).
Proof.
  intros Hall. revert acc. induction Hall as [|v e values rest Hv Hall IH]; intros acc; simpl.
  - rewrite app_nil_r. reflexivity.
  - rewrite Hv, IH, <- app_assoc. reflexivity.
Qed.

Lemma decodeEnvs_fails (appName : string) (values : list string) (acc : list Environment)
  (v : string) (e : error) :
  In v values ->
  Unmarshal v = Err e ->
  exists v' e', In v' values /\ Unmarshal v' = Err e'
    /\ decodeEnvs appName values acc
       = Err (Errorf_w "read environment configuration for application %s: %w"
                [appName] e').
Proof.
  revert acc. induction values as [|w values IH]; intros acc Hin Hfail; [destruct Hin|].
  simpl. destruct (Unmarshal w) as [env|err] eqn:Hw.
  - destruct Hin as [->|Hin]; [congruence|].
    destruct (IH (acc ++ [env]) Hin Hfail) as (v' & e' & Hin' & Hv' & Hd).
    exists v', e'. split; [right; exact Hin'|]. split; assumption.
  - exists w, err. split; [left; reflexivity|]. split; [exact Hw | reflexivity].
Qed.

(** X1. ListEnvironments returns a list exactly when the listing of the
    values works and every value decodes; the list then holds the decoded
    records, each as often as it was stored: none is lost and none is
    repeated, whatever the two sorts do to the order. *)
Theorem ListEnvironments_permutation (appName : string) (s : gmap string string)
  (environments : list Environment) :
  ListEnvironments appName s = Ok environments <->
  exists values decoded,
    listParams s (fmt.Sprintf rootEnvParamPath [appName]) = Ok values
    /\ Forall2 (fun v e => Unmarshal v = Ok e) values decoded
    /\ environments
       = sort.SliceStable lessNotProd (sort.SliceStable lessName decoded)
    /\ environments ≡ₚ decoded
    /\ length environments = length values.
Proof.
  unfold ListEnvironments. split.
  - destruct (listParams s _) as [values|err]; [|discriminate].
    destruct (decodeEnvs appName values []) as [decoded|err] eqn:Hd; [|discriminate].
    intros E. inversion E; subst.
    apply decodeEnvs_ok in Hd as (rest & -> & Hall). simpl.
    exists values, rest. split; [reflexivity|]. split; [exact Hall|].
    split; [reflexivity|].
    assert (Hp : sort.SliceStable lessNotProd (sort.SliceStable lessName rest) ≡ₚ rest).
    { rewrite !sort_props.SliceStable_perm. reflexivity. }
    split; [exact Hp|].
    rewrite (Permutation_length Hp). symmetry. eapply Forall2_length. exact Hall.
  - intros (values & decoded & Hl & Hall & -> & _ & _).
    rewrite Hl, (decodeEnvs_all appName values [] decoded Hall). reflexivity.
Qed.

(** X2. ListEnvironments gives no partial list: when the listing fails its
    error is wrapped, and when one of the listed values does not decode the
    result is the wrapped decoding error of a listed value. *)
Theorem ListEnvironments_all_or_error (appName : string) (s : gmap string string) :
  (forall err,
     listParams s (fmt.Sprintf rootEnvParamPath [appName]) = Err err ->
     ListEnvironments appName s
     = Err (Errorf_w "list environments for application %s: %w" [appName] err))
  /\ (forall values v e,
        listParams s (fmt.Sprintf rootEnvParamPath [appName]) = Ok values ->
        In v values ->
        Unmarshal v = Err e ->
        exists v' e',
          In v' values /\ Unmarshal v' = Err e'
          /\ ListEnvironments appName s
             = Err (Errorf_w "read environment configuration for application %s: %w"
                      [appName] e')).
Proof.
  unfold ListEnvironments. split.
  - intros err ->. reflexivity.
  - intros values v e -> Hin Hfail.
    destruct (decodeEnvs_fails appName values [] v e Hin Hfail)
      as (v' & e' & Hin' & Hv' & ->).
    eauto.
Qed.

(** The key of a record by the names of its application and environment. *)
Definition pathOf (appName environmentName : string) : string :=
  fmt.Sprintf fmtEnvParamPath [appName; environmentName].

Lemma GetEnvironment_missing (appName environmentName : string) (s : gmap string string) :
  s !! pathOf appName environmentName = None ->
  GetEnvironment appName environmentName s
  = Err (ErrNoSuchEnvironment appName environmentName).
Proof.
  unfold GetEnvironment, ssm.GetParameter, pathOf. intros ->. reflexivity.
Qed.

Lemma GetEnvironment_stored (appName environmentName v : string) (e : Environment)
  (s : gmap string string) :
  s !! pathOf appName environmentName = Some v ->
  Unmarshal v = Ok e ->
  GetEnvironment appName environmentName s = Ok e.
Proof.
  unfold GetEnvironment, ssm.GetParameter, pathOf. intros -> ->. reflexivity.
Qed.

Lemma DeleteEnvironment_deletes (appName environmentName : string)
  (s : gmap string string) :
  DeleteEnvironment appName environmentName s
  = (None, delete (pathOf appName environmentName) s).
Proof.
  unfold DeleteEnvironment, ssm.DeleteParameter, pathOf.
  destruct (s !! fmt.Sprintf fmtEnvParamPath [appName; environmentName]) eqn:Hv.
  - reflexivity.
  - simpl. rewrite delete_id by exact Hv. reflexivity.
Qed.

(** X3. GetEnvironment returns a record exactly when a value is stored
    under the key and decodes to it; with nothing stored under the key the
    error is ErrNoSuchEnvironment for these names; a stored value that does
    not decode gives the wrapped decoding error. *)
Theorem GetEnvironment_lookup (appName environmentName : string)
  (s : gmap string string) :
  (forall e,
     GetEnvironment appName environmentName s = Ok e
     <-> exists v, s !! pathOf appName environmentName = Some v /\ Unmarshal v = Ok e)
  /\ (s !! pathOf appName environmentName = None
      <-> GetEnvironment appName environmentName s
          = Err (ErrNoSuchEnvironment appName environmentName))
  /\ (forall v err,
        s !! pathOf appName environmentName = Some v ->
        Unmarshal v = Err err ->
        GetEnvironment appName environmentName s
        = Err (Errorf_w "read configuration for environment %s in application %s: %w"
                 [environmentName; appName] err)).
Proof.
  unfold GetEnvironment, ssm.GetParameter, pathOf.
  destruct (s !! fmt.Sprintf fmtEnvParamPath [appName; environmentName]) as [v|] eqn:Hv.
  - split; [|split].
    + intros e. destruct (Unmarshal v) as [e'|err] eqn:Hu; split.
      * intros E. inversion E; subst. eauto.
      * intros (v' & Ev & Eu). inversion Ev; subst. congruence.
      * discriminate.
      * intros (v' & Ev & Eu). inversion Ev; subst. congruence.
    + split; [discriminate|]. destruct (Unmarshal v); discriminate.
    + intros v' err Ev Eu. inversion Ev; subst. rewrite Eu. reflexivity.
  - simpl. split; [|split].
    + intros e. split; [discriminate|]. intros (v' & Ev & _). discriminate.
    + split; reflexivity.
    + intros v' err Ev. discriminate.
Qed.

(** X4. DeleteEnvironment always returns no error, also when nothing is
    stored under the key; afterwards the key is gone, GetEnvironment answers
    ErrNoSuchEnvironment, every other key is as before, and a second
    DeleteEnvironment changes nothing. *)
Theorem DeleteEnvironment_idempotent (appName environmentName : string)
  (s : gmap string string) :
  fst (DeleteEnvironment appName environmentName s) = None
  /\ snd (DeleteEnvironment appName environmentName s)
     = delete (pathOf appName environmentName) s
  /\ GetEnvironment appName environmentName
       (snd (DeleteEnvironment appName environmentName s))
     = Err (ErrNoSuchEnvironment appName environmentName)
  /\ DeleteEnvironment appName environmentName
       (snd (DeleteEnvironment appName environmentName s))
     = (None, snd (DeleteEnvironment appName environmentName s)).
Proof.
  rewrite !DeleteEnvironment_deletes. simpl. split; [reflexivity|]. split; [reflexivity|].
  assert (Hgone : delete (pathOf appName environmentName) s
                    !! pathOf appName environmentName = None)
    by apply lookup_delete_eq.
  split.
  - apply GetEnvironment_missing. exact Hgone.
  - rewrite delete_id by exact Hgone. reflexivity.
Qed.

(** X5. CreateEnvironment never removes or replaces a stored value: the
    store it leaves holds everything that was there; it changes no key but
    the key of its record; and when it returns an error the store is as it
    was.  In particular the error of a missing application is returned as it
    is, before anything is written. *)
Theorem CreateEnvironment_only_adds (e : Environment) (s : gmap string string) :
  s ⊆ snd (CreateEnvironment e s)
  /\ (forall k, k <> envPath e -> snd (CreateEnvironment e s) !! k = s !! k)
  /\ (forall err, fst (CreateEnvironment e s) = Some err -> snd (CreateEnvironment e s) = s)
  /\ (forall err, GetApplication s (App e) = Err err ->
        CreateEnvironment e s = (Some err, s)).
Proof.
  unfold CreateEnvironment, ssm.PutParameter, envPath. simpl.
  destruct (GetApplication s (App e)) as [app|err0].
  2: { repeat split; simpl; auto. intros err E. inversion E. reflexivity. }
  destruct (marshal e) as [data|err0].
  2: { repeat split; simpl; auto. intros err E. discriminate. }
  destruct (s !! fmt.Sprintf fmtEnvParamPath [App e; Name e]) as [v|] eqn:Hv; simpl.
  - repeat split; auto; discriminate.
  - split; [apply insert_subseteq; exact Hv|]. split; [|split].
    + intros k Hk. apply lookup_insert_ne. congruence.
    + discriminate.
    + discriminate.
Qed.

(** X6. A record that is created under a free key, in an application that
    exists, is read back by GetEnvironment, provided its encoding decodes to
    it; and after DeleteEnvironment the same record can be created again. *)
Theorem CreateEnvironment_then_Get (e : Environment) (s : gmap string string)
  (app : Application) (data : string) :
  GetApplication s (App e) = Ok app ->
  marshal e = Ok data ->
  Unmarshal data = Ok e ->
  s !! envPath e = None ->
  CreateEnvironment e s = (None, <[envPath e := data]> s)
  /\ GetEnvironment (App e) (Name e) (snd (CreateEnvironment e s)) = Ok e
  /\ snd (DeleteEnvironment (App e) (Name e) (snd (CreateEnvironment e s))) = s.
Proof.
  intros Happ Hm Hu Hfree.
  assert (Hc : CreateEnvironment e s = (None, <[envPath e := data]> s)).
  { unfold CreateEnvironment, ssm.PutParameter, envPath in *. simpl.
    rewrite Happ, Hm, Hfree. reflexivity. }
  rewrite Hc. simpl. split; [reflexivity|]. split.
  - apply (GetEnvironment_stored _ _ data); [|exact Hu].
    apply lookup_insert_eq.
  - rewrite DeleteEnvironment_deletes. simpl.
    change (pathOf (App e) (Name e)) with (envPath e).
    rewrite delete_insert_eq. apply delete_id. exact Hfree.
Qed.

End StoreProps.

(** A store whose encoding is the name of the record. *)
Definition nameCodec : StoreDeps :=
  {| fmtEnvParamPath := "/copilot/applications/%s/environments/%s";
     rootEnvParamPath := "/copilot/applications/%s/environments/";
     GetApplication := fun _ appName =>
       if String.eqb appName "demo" then Ok demoApp
       else Err (errorString "no such application");
     listParams := fun s _ => Ok (map snd (map_to_list s));
     marshal := fun e => Ok (Name e);
     Unmarshal := fun v =>
       if String.eqb v "" then Err (errorString "unexpected end of JSON input")
       else Ok (mkEnv "demo" v false) |}.

Lemma CreateEnvironment_then_Get_witness :
  @GetEnvironment nameCodec "demo" "dev"
    (snd (@CreateEnvironment nameCodec (mkEnv "demo" "dev" false) ∅))
  = Ok (mkEnv "demo" "dev" false).
Proof.
  apply (@CreateEnvironment_then_Get nameCodec (mkEnv "demo" "dev" false) ∅ demoApp "dev");
    reflexivity.
Defined.

End config_store_props.

(** ** Package config: the order of the listed environments *)
Module config_order.

Import config config_props insertion_props.

(** The comparisons of the two sorts of ListEnvironments on elements. *)
Definition ltName (x y : Environment) : bool := String.ltb (Name x) (Name y).
Definition ltNotProd (x y : Environment) : bool := negb (Prod x).

(** Ascending names, equal names allowed. *)
Definition nameLe (x y : Environment) : Prop := String.leb (Name x) (Name y) = true.

Lemma lessName_reads (data : list Environment) (i j : nat) (x y : Environment) :
  data !! i = Some x -> data !! j = Some y -> lessName data i j = ltName x y.
Proof. intros Hi Hj. unfold lessName. rewrite Hi, Hj. reflexivity. Qed.

Lemma lessNotProd_reads (data : list Environment) (i j : nat) (x y : Environment) :
  data !! i = Some x -> data !! j = Some y -> lessNotProd data i j = ltNotProd x y.
Proof. intros Hi Hj. unfold lessNotProd. rewrite Hi. reflexivity. Qed.

Lemma ltb_leb (s1 s2 : string) : String.ltb s1 s2 = true -> String.leb s1 s2 = true.
Proof.
  unfold String.ltb, String.leb. destruct (String.compare s1 s2); congruence.
Qed.

Lemma not_ltb_leb (s1 s2 : string) : String.ltb s1 s2 = false -> String.leb s2 s1 = true.
Proof.
  unfold String.ltb, String.leb. rewrite (String.compare_antisym s1 s2).
  destruct (String.compare s2 s1); simpl; congruence.
Qed.

Lemma leb_trans (s1 s2 s3 : string) :
  String.leb s1 s2 = true -> String.leb s2 s3 = true -> String.leb s1 s3 = true.
Proof.
  intros H12 H23. apply Is_true_true.
  change (String.le s1 s3). transitivity s2; apply Is_true_true; assumption.
Qed.

Lemma ins_name_sorted (x : Environment) (rl : list Environment) :
  StronglySorted (flip nameLe) rl -> StronglySorted (flip nameLe) (ins ltName x rl).
Proof.
  induction 1 as [|y rl Hs IH Hall]; simpl; [repeat constructor|].
  unfold ltName at 1. destruct (String.ltb (Name x) (Name y)) eqn:E.
  - constructor; [exact IH|].
    rewrite (ins_perm ltName x rl). constructor; [|exact Hall].
    apply ltb_leb. exact E.
  - apply not_ltb_leb in E.
    constructor; [constructor; assumption|].
    constructor; [exact E|].
    rewrite Forall_forall in *. intros b Hb. unfold flip, nameLe in *.
    eapply leb_trans; [apply Hall; exact Hb | exact E].
Qed.

Lemma isort_name_sorted (data : list Environment) :
  StronglySorted nameLe (isort ltName data).
Proof.
  unfold isort.
  assert (Hs : forall acc, StronglySorted (flip nameLe) acc ->
            StronglySorted (flip nameLe)
              (fold_left (fun rl x => ins ltName x rl) data acc)).
  { induction data as [|x data IH]; intros acc Hacc; simpl; [exact Hacc|].
    apply IH. apply ins_name_sorted. exact Hacc. }
  apply (StronglySorted_rev (flip nameLe)). apply Hs. constructor.
Qed.

Definition isProd (e : Environment) : bool := Prod e.
Definition notProd (e : Environment) : bool := negb (Prod e).

Lemma ins_notProd (x : Environment) (rl : list Environment) :
  ins ltNotProd x rl = if Prod x then x :: rl else rl ++ [x].
Proof.
  induction rl as [|y rl IH]; simpl.
  - destruct (Prod x); reflexivity.
  - unfold ltNotProd at 1. rewrite IH. destruct (Prod x); reflexivity.
Qed.

Lemma fold_notProd (data prods others : list Environment) :
  fold_left (fun rl x => ins ltNotProd x rl) data (rev prods ++ others)
  = rev (prods ++ List.filter isProd data) ++ (others ++ List.filter notProd data).
Proof.
  revert prods others. induction data as [|x data IH]; intros prods others; simpl.
  - rewrite !app_nil_r. reflexivity.
  - rewrite ins_notProd. unfold isProd at 1, notProd at 1.
    destruct (Prod x); simpl.
    + change (x :: rev prods ++ others) with ((x :: rev prods) ++ others).
      replace (x :: rev prods) with (rev (prods ++ [x]))
        by (rewrite rev_app_distr; reflexivity).
      rewrite IH, <- app_assoc. reflexivity.
    + rewrite <- app_assoc, IH, <- app_assoc. reflexivity.
Qed.

(** The second sort moves the non-production records to the front in the
    reverse of the order they had, and leaves the production records in
    their order. *)
Lemma isort_notProd (data : list Environment) :
  isort ltNotProd data = rev (List.filter notProd data) ++ List.filter isProd data.
Proof.
  unfold isort.
  change (@nil Environment) with (rev (@nil Environment) ++ []) at 1.
  rewrite fold_notProd. simpl.
  rewrite rev_app_distr, rev_involutive. reflexivity.
Qed.

Section Order.

Context `{StoreDeps}.

(** X7. When at most 20 environments are listed, ListEnvironments returns
    the non-production records first and the production records after them;
    the production records stand by ascending name, the non-production
    records by descending name (each record again exactly once). *)
Theorem ListEnvironments_order (appName : string) (s : gmap string string)
  (environments : list Environment) :
  ListEnvironments appName s = Ok environments ->
  length environments <= 20 ->
  exists nonprod prod,
    environments = nonprod ++ prod
    /\ Forall (fun e => Prod e = false) nonprod
    /\ Forall (fun e => Prod e = true) prod
    /\ StronglySorted (fun a b => String.leb (Name a) (Name b) = true) prod
    /\ StronglySorted (fun a b => String.leb (Name b) (Name a) = true) nonprod.
Proof.
  unfold ListEnvironments.
  destruct (listParams s _) as [values|err]; [|discriminate].
  destruct (decodeEnvs appName values []) as [decoded|err]; [|discriminate].
  intros E Hlen. inversion E; subst. clear E.
  assert (Hd : length decoded <= 20).
  { rewrite !sort_props.SliceStable_perm in Hlen. exact Hlen. }
  rewrite (SliceStable_one_block ltName lessName lessName_reads decoded Hd).
  assert (Hd' : length (isort ltName decoded) <= 20).
  { rewrite (Permutation_length (isort_perm ltName decoded)). exact Hd. }
  rewrite (SliceStable_one_block ltNotProd lessNotProd lessNotProd_reads _ Hd').
  rewrite isort_notProd.
  pose proof (isort_name_sorted decoded) as Hs.
  exists (rev (List.filter notProd (isort ltName decoded))),
         (List.filter isProd (isort ltName decoded)).
  split; [reflexivity|]. split; [|split; [|split]].
  - rewrite Forall_forall. intros e He.
    apply list_elem_of_In, in_rev, filter_In in He. destruct He as [_ He].
    unfold notProd in He. destruct (Prod e); [discriminate | reflexivity].
  - rewrite Forall_forall. intros e He.
    apply list_elem_of_In, filter_In in He. destruct He as [_ He]. exact He.
  - apply (StronglySorted_filter nameLe). exact Hs.
  - apply (StronglySorted_rev nameLe). apply StronglySorted_filter. exact Hs.
Qed.

End Order.

(** A store that lists four values, two of them production records. *)
Definition fourDeps : StoreDeps :=
  {| fmtEnvParamPath := fmtEnvParamPath (StoreDeps := demoDeps);
     rootEnvParamPath := rootEnvParamPath (StoreDeps := demoDeps);
     GetApplication := GetApplication (StoreDeps := demoDeps);
     listParams := fun _ _ => Ok ["prod-b"; "dev"; "prod-a"; "test"];
     marshal := marshal (StoreDeps := demoDeps);
     Unmarshal := fun v => Ok (mkEnv "demo" v (String.prefix "prod" v)) |}.

Lemma ListEnvironments_order_witness :
  exists nonprod prod,
    [mkEnv "demo" "test" false; mkEnv "demo" "dev" false;
     mkEnv "demo" "prod-a" true; mkEnv "demo" "prod-b" true] = nonprod ++ prod
    /\ Forall (fun e => Prod e = false) nonprod
    /\ Forall (fun e => Prod e = true) prod
    /\ StronglySorted (fun a b => String.leb (Name a) (Name b) = true) prod
    /\ StronglySorted (fun a b => String.leb (Name b) (Name a) = true) nonprod.
Proof.
  apply (@ListEnvironments_order fourDeps "demo" ∅);
    [vm_compute; reflexivity | simpl; lia].
Defined.

End config_order.

(** ** Package template: platform, secrets, topics and the entry points *)
Module template_options_props.

Import template.

(** X8. The Fargate platform version is 1.0.0 exactly for the two Windows
    families and LATEST for every other family; a platform that IsDefault
    accepts (nothing given, or linux on x86_64) always gets LATEST. *)
Theorem Version_by_family (p : RuntimePlatformOpts) :
  (Version p = "1.0.0" <-> OS p = OSWindowsServerFull \/ OS p = OSWindowsServerCore)
  /\ (Version p = "LATEST" <-> OS p <> OSWindowsServerFull /\ OS p <> OSWindowsServerCore)
  /\ (IsDefault p = true <->
      (OS p = "" /\ Arch p = "") \/ (OS p = OSLinux /\ Arch p = ArchX86))
  /\ (IsDefault p = true -> Version p = "LATEST").
Proof.
  assert (Hd : IsDefault p = true <->
               (OS p = "" /\ Arch p = "") \/ (OS p = OSLinux /\ Arch p = ArchX86)).
  { unfold IsDefault, isEmpty.
    destruct (String.eqb_spec (OS p) ""), (String.eqb_spec (Arch p) "");
      destruct (String.eqb_spec (OS p) OSLinux), (String.eqb_spec (Arch p) ArchX86);
      simpl; split; intros Hx; try reflexivity; try discriminate; try tauto;
      destruct Hx as [[? ?]|[? ?]]; congruence. }
  split; [|split; [|split; [exact Hd|]]].
  - unfold Version, osFamiliesForPV100, versionLoop.
    destruct (String.eqb_spec (OS p) OSWindowsServerFull) as [E1|E1];
      [tauto|].
    destruct (String.eqb_spec (OS p) OSWindowsServerCore) as [E2|E2];
      [tauto|].
    split; [discriminate | tauto].
  - unfold Version, osFamiliesForPV100, versionLoop.
    destruct (String.eqb_spec (OS p) OSWindowsServerFull) as [E1|E1];
      [split; [discriminate | tauto]|].
    destruct (String.eqb_spec (OS p) OSWindowsServerCore) as [E2|E2];
      [split; [discriminate | tauto]|].
    tauto.
  - intros Hx. apply Hd in Hx. unfold Version, osFamiliesForPV100, versionLoop.
    destruct Hx as [[Ho _]|[Ho _]]; rewrite Ho; reflexivity.
Qed.

(** X9. hasSecrets answers true exactly when the secrets map has an entry
    or the nested stack is there and lists a secret output; a nil and an
    empty list of outputs count alike. *)
Theorem hasSecrets_iff (opts : WorkloadOpts) :
  hasSecrets opts = true <->
  Secrets opts <> ∅
  \/ exists ns, NestedStack opts = Some ns /\ 0 < len (SecretOutputs ns).
Proof.
  unfold hasSecrets.
  destruct (0 <? size (Secrets opts)) eqn:Hs.
  - apply Nat.ltb_lt in Hs. split; [intros _|reflexivity]. left.
    intros E. rewrite E, map_size_empty in Hs. lia.
  - apply Nat.ltb_ge in Hs.
    assert (He : Secrets opts = ∅) by (apply map_size_empty_iff; lia).
    destruct (NestedStack opts) as [ns|].
    + destruct (0 <? len (SecretOutputs ns)) eqn:Hn.
      * apply Nat.ltb_lt in Hn. split; [intros _|reflexivity]. right. eauto.
      * apply Nat.ltb_ge in Hn. split; [discriminate|].
        intros [Hx|(ns' & E & Hx)]; [contradiction|]. inversion E; subst. lia.
    + split; [discriminate|]. intros [Hx|(ns' & E & _)]; [contradiction|discriminate].
Qed.

(** X10. contains answers true exactly for the members of the list; on
    two lists put together it answers true when it does so on one of
    them. *)
Theorem contains_iff (list_ : list string) (s : string) :
  (contains list_ s = true <-> In s list_)
  /\ (forall more, contains (list_ ++ more) s = contains list_ s || contains more s).
Proof.
  split.
  - induction list_ as [|item rest IH]; simpl; [split; [discriminate|tauto]|].
    destruct (String.eqb_spec item s) as [E|E]; [tauto|].
    rewrite IH. split; [tauto|]. intros [Hx|Hx]; [contradiction|exact Hx].
  - intros more. induction list_ as [|item rest IH]; simpl; [reflexivity|].
    destruct (String.eqb item s); [reflexivity|exact IH].
Qed.

(** X11. HasTopicQueues answers true exactly when some subscription has a
    queue of its own; the queue of the service itself plays no part. *)
Theorem HasTopicQueues_iff (s : SubscribeOpts) :
  (HasTopicQueues s = true
   <-> exists t, In t (SubscribeOpts_Topics s) /\ TopicSubscription_Queue t <> None)
  /\ (forall q, HasTopicQueues {| SubscribeOpts_Topics := SubscribeOpts_Topics s;
                                  Queue := q |} = HasTopicQueues s).
Proof.
  split; [|reflexivity].
  unfold HasTopicQueues. induction (SubscribeOpts_Topics s) as [|t rest IH]; simpl.
  - split; [discriminate|]. intros (t & [] & _).
  - destruct (TopicSubscription_Queue t) as [q|] eqn:Hq.
    + split; [intros _|reflexivity]. exists t. split; [left; reflexivity|].
      rewrite Hq. discriminate.
    + rewrite IH. split.
      * intros (t' & Hin & Hx). exists t'. split; [right; exact Hin | exact Hx].
      * intros (t' & [<-|Hin] & Hx); [congruence|]. exists t'. split; assumption.
Qed.

Lemma ARN_fields (t : Topic) :
  ARN t =
    "arn:" +:+ Partition t +:+ ":sns:" +:+ Region t +:+ ":" +:+ AccountID t +:+ ":"
      +:+ App t +:+ "-" +:+ Env t +:+ "-" +:+ Svc t +:+ "-" +:+ StringValue (Name t).
Proof.
  unfold ARN, snsARNPattern. cbn. rewrite fmt_props.append_empty_r. reflexivity.
Qed.

(** The workload that a topic belongs to. *)
Definition sameWorkload (t1 t2 : Topic) : Prop :=
  Partition t1 = Partition t2 /\ Region t1 = Region t2 /\ AccountID t1 = AccountID t2
  /\ App t1 = App t2 /\ Env t1 = Env t2 /\ Svc t1 = Svc t2.

(** X12. Two topics of one workload have the same ARN exactly when they
    have the same name, a nil name counting as the empty name. *)
Theorem ARN_by_name (t1 t2 : Topic) :
  sameWorkload t1 t2 ->
  (ARN t1 = ARN t2 <-> StringValue (Name t1) = StringValue (Name t2)).
Proof.
  intros (Hp & Hr & Ha & Happ & He & Hs). rewrite !ARN_fields.
  rewrite Hp, Hr, Ha, Happ, He, Hs. split.
  - intros E. do 13 (apply fmt_props.append_cancel_l in E). exact E.
  - intros ->. reflexivity.
Qed.

Definition ordersTopic (name : option string) : Topic :=
  {| Name := name; Region := "us-west-2"; Partition := "aws";
     AccountID := "123456789012"; App := "demo"; Env := "test"; Svc := "api" |}.

Lemma ARN_by_name_witness : ARN (ordersTopic None) = ARN (ordersTopic (Some "")).
Proof.
  apply (ARN_by_name (ordersTopic None) (ordersTopic (Some ""))).
  - repeat split.
  - reflexivity.
Defined.

Section ParseFailures.

Context {Tpl Tree Data : Type} `{Engine Tpl Tree Data}.

Lemma attachPartials_app (pre rest : list string) (options : list ParseOption)
  (tpl tpl1 : Tpl) (evs : list Event) :
  attachPartials pre options tpl = (None, tpl1, evs) ->
  attachPartials (pre ++ rest) options tpl
  = (let '(e, tpl2, evs2) := attachPartials rest options tpl1 in (e, tpl2, evs ++ evs2)).
Proof.
  revert tpl evs. induction pre as [|n pre IH]; intros tpl evs.
  - simpl. intros E. inversion E; subst.
    destruct (attachPartials rest options tpl1) as [[e t] evs2]. reflexivity.
  - cbn [attachPartials app].
    destruct (parse n (partialPath n) options) as [nested|err]; [|discriminate].
    destruct (AddParseTree tpl n (Tree_of nested)) as [[err|] tpl'] eqn:Ha; [discriminate|].
    destruct (attachPartials pre options tpl') as [[e t] evs1] eqn:Hpre.
    intros E. inversion E; subst.
    rewrite (IH _ _ Hpre).
    destruct (attachPartials rest options tpl1) as [[e t] evs2]. reflexivity.
Qed.

(** X13. parseWkld stops at the first thing that fails.  When the base
    template does not parse, its error is returned as it is after that one
    call.  When the fragments before some fragment of the catalog were
    attached and that fragment does not parse, the error of its parse is
    returned as it is; when it parses and cannot be attached, the error is
    returned wrapped with the name of the fragment.  In both cases the log
    ends with the failed call: no later fragment is read and nothing is
    executed. *)
Theorem parseWkld_first_failure (name wkldDirName : string) (data : Data)
  (options : list ParseOption) :
  let path := fmt.Sprintf fmtWkldCFTemplatePath [wkldDirName; name] in
  (forall e, parse "base" path options = Err e ->
             parseWkld name wkldDirName data options = (Err e, [EvParse "base" path false]))
  /\ (forall pre n post tpl tpl1 evs,
        partialsWorkloadCFTemplateNames = pre ++ n :: post ->
        parse "base" path options = Ok tpl ->
        attachPartials pre options tpl = (None, tpl1, evs) ->
        (forall e, parse n (partialPath n) options = Err e ->
                   parseWkld name wkldDirName data options
                   = (Err e,
                      EvParse "base" path true :: evs ++ [EvParse n (partialPath n) false]))
        /\ (forall nested e tpl2,
              parse n (partialPath n) options = Ok nested ->
              AddParseTree tpl1 n (Tree_of nested) = (Some e, tpl2) ->
              parseWkld name wkldDirName data options
              = (Err (Errorf_w "add parse tree of %s to base template: %w" [n] e),
                 EvParse "base" path true
                   :: evs ++ [EvParse n (partialPath n) true; EvAddParseTree n false]))).
Proof.
  intros path. split.
  - intros e He. unfold parseWkld. fold path. rewrite He. reflexivity.
  - intros pre n post tpl tpl1 evs Hnames Hbase Hpre. split.
    + intros e He. unfold parseWkld. fold path. rewrite Hbase, Hnames.
      rewrite (attachPartials_app _ _ _ _ _ _ Hpre). cbn [attachPartials].
      rewrite He. reflexivity.
    + intros nested e tpl2 Hn Ha. unfold parseWkld. fold path. rewrite Hbase, Hnames.
      rewrite (attachPartials_app _ _ _ _ _ _ Hpre). cbn [attachPartials].
      rewrite Hn, Ha. reflexivity.
Qed.

Lemma parseWkld_first_event (name wkldDirName : string) (data : Data)
  (options : list ParseOption) :
  hd_error (snd (parseWkld name wkldDirName data options))
  = Some (EvParse "base" (fmt.Sprintf fmtWkldCFTemplatePath [wkldDirName; name])
            (succeeded (parse "base" (fmt.Sprintf fmtWkldCFTemplatePath [wkldDirName; name])
                          options))).
Proof.
  unfold parseWkld.
  destruct (parse "base" _ options) as [tpl|err]; [|reflexivity].
  destruct (attachPartials _ options tpl) as [[[err|] t] evs]; [reflexivity|].
  destruct (Execute t data) as [buf [err|]]; reflexivity.
Qed.

(** The base template that an entry point reads first, with the functions
    of the workload templates registered. *)
Definition readsBase (run : Result Content * list Event) (path : string) : Prop :=
  hd_error (snd run)
  = Some (EvParse "base" path (succeeded (parse "base" path [withSvcParsingFuncs]))).

(** X14. Each of the five entry points begins by parsing its own base
    template, with the functions of the workload templates registered: the
    four services read it from the directory of services, the scheduled job
    from the directory of jobs. *)
Theorem entry_points_base_template (data : Data) :
  readsBase (ParseLoadBalancedWebService data) "workloads/services/lb-web/cf.yml"
  /\ readsBase (ParseRequestDrivenWebService data) "workloads/services/rd-web/cf.yml"
  /\ readsBase (ParseBackendService data) "workloads/services/backend/cf.yml"
  /\ readsBase (ParseWorkerService data) "workloads/services/worker/cf.yml"
  /\ readsBase (ParseScheduledJob data) "workloads/jobs/scheduled-job/cf.yml".
Proof.
  unfold readsBase, ParseLoadBalancedWebService, ParseRequestDrivenWebService,
    ParseBackendService, ParseWorkerService, ParseScheduledJob, parseSvc, parseJob.
  rewrite !parseWkld_first_event. repeat split.
Qed.

End ParseFailures.

Lemma parseWkld_first_failure_witness :
  exists evs,
    @parseWkld _ _ _ template_props.brokenNLB lbWebSvcTplName servicesDirName tt
      [withSvcParsingFuncs]
    = (Err (errorString "open nlb.yml: file does not exist"),
       EvParse "base" "workloads/services/lb-web/cf.yml" true
         :: evs ++ [EvParse "nlb" "workloads/partials/cf/nlb.yml" false]).
Proof.
  eexists.
  apply (proj1 (proj2 (@parseWkld_first_failure _ _ _ template_props.brokenNLB
                         lbWebSvcTplName servicesDirName tt [withSvcParsingFuncs])
                  (firstn 26 partialsWorkloadCFTemplateNames) "nlb" ["vpc-connector"]
                  ["base"] _ _ eq_refl eq_refl eq_refl)
           (errorString "open nlb.yml: file does not exist")).
  reflexivity.
Defined.

End template_options_props.

(** ** Package cli: the checks of Validate *)
Module validate_checks.

Import cli run_props validate_props.

#[local] Arguments fmt.Sprintf : simpl never.

Section Checks.

Context {W : Type} `{Clients W}.

(** X15. validateCredentials passes exactly when no profile is named or
    none of the three temporary credentials is given; otherwise its error
    names the profile flag and the flag of the first credential given, in
    the order access key, secret key, session token. *)
Theorem validateCredentials_passes (o : initEnvVars) :
  (validateCredentials o = None
   <-> profile o = ""
       \/ (AccessKeyID (tempCreds o) = "" /\ SecretAccessKey (tempCreds o) = ""
           /\ SessionToken (tempCreds o) = ""))
  /\ (forall err, validateCredentials o = Some err ->
        exists flag,
          err = errorString
                  (fmt.Sprintf "cannot specify both --%s and --%s" [profileFlag; flag])
          /\ flag = (if negb (String.eqb (AccessKeyID (tempCreds o)) "")
                     then accessKeyIDFlag
                     else if negb (String.eqb (SecretAccessKey (tempCreds o)) "")
                          then secretAccessKeyFlag
                          else sessionTokenFlag)).
Proof.
  unfold validateCredentials.
  destruct (String.eqb_spec (profile o) "") as [Ep|Ep];
    destruct (String.eqb_spec (AccessKeyID (tempCreds o)) "") as [Ea|Ea];
    destruct (String.eqb_spec (SecretAccessKey (tempCreds o)) "") as [Es|Es];
    destruct (String.eqb_spec (SessionToken (tempCreds o)) "") as [Et|Et];
    simpl; split;
    try (split; [tauto | reflexivity]);
    try (split; [discriminate | intros [?|(? & ? & ?)]; contradiction]);
    try (split; [auto | reflexivity]);
    try discriminate;
    intros err E; inversion E; subst; eexists; split; reflexivity.
Qed.

(** X16. validateCustomizedResources passes exactly when import fields and
    adjust fields are not both given, none of them is given together with
    the default configuration, an import does not come with exactly one
    public or exactly one private subnet, and an adjustment does not come
    with exactly one availability zone. *)
Theorem validateCustomizedResources_passes (o : initEnvVars) :
  validateCustomizedResources o = None
  <-> ~ (importFieldsGiven (importVPC o) /\ adjustFieldsGiven (adjustVPC o))
      /\ (importFieldsGiven (importVPC o) \/ adjustFieldsGiven (adjustVPC o) ->
          defaultConfig o = false)
      /\ (importFieldsGiven (importVPC o) ->
          len (PublicSubnetIDs (importVPC o)) <> 1
          /\ len (PrivateSubnetIDs (importVPC o)) <> 1)
      /\ (adjustFieldsGiven (adjustVPC o) -> len (AZs (adjustVPC o)) <> 1).
Proof.
  rewrite <- importVPCVars_isSet_iff, <- adjustVPCVars_isSet_iff.
  unfold validateCustomizedResources.
  destruct (importVPCVars_isSet (importVPC o)), (adjustVPCVars_isSet (adjustVPC o)),
    (defaultConfig o); simpl;
    destruct (Nat.eqb_spec (len (PublicSubnetIDs (importVPC o))) 1);
    destruct (Nat.eqb_spec (len (PrivateSubnetIDs (importVPC o))) 1);
    destruct (Nat.eqb_spec (len (AZs (adjustVPC o))) 1);
    (split; [intros Hx | intros (H1 & H2 & H3 & H4)]);
    try reflexivity; try discriminate Hx;
    try (clear Hx; solve [intuition (first [discriminate | congruence])]);
    exfalso;
    try (apply H1; split; reflexivity);
    try (specialize (H2 (or_introl eq_refl)); discriminate);
    try (specialize (H2 (or_intror eq_refl)); discriminate);
    try (destruct (H3 eq_refl); contradiction);
    try (specialize (H4 eq_refl); contradiction).
Qed.

(** The one call of validateDuplicateEnv and what its result rests on. *)
Lemma validateDuplicateEnv_call (st st' : state W) (r : option error) (l : list Event) :
  validateDuplicateEnv st = (r, st', l) ->
  opts st' = opts st
  /\ exists answer tail,
       l = EvStoreGetEnvironment (appName (vars (opts st))) (name (vars (opts st))) answer
             :: tail
       /\ (r = None -> tail = [])
       /\ (r = None <-> exists err, answer = Err err
                                    /\ errors.As_NoSuchEnvironment err = true).
Proof.
  unfold validateDuplicateEnv. intros Hrun. run_inv Hrun.
  all: split; [congruence|].
  all: try match goal with Hn : negb _ = true |- _ => apply negb_true_iff in Hn end.
  all: try match goal with Hn : negb _ = false |- _ => apply negb_false_iff in Hn end.
  all: eexists _, _; (split; [reflexivity|]).
  - split; [discriminate|]. split; [discriminate | intros (err & E & _); discriminate].
  - split; [discriminate|]. split; [discriminate|].
    intros (err & E & Hx). inversion E; subst. congruence.
  - split; [reflexivity|]. split; [intros _; eauto | reflexivity].
Qed.

(** X17. validateDuplicateEnv asks the store once for the environment of
    the name in the application and touches nothing else.  It returns no
    error exactly when the store answers that there is no such environment;
    when the store has the environment it logs a line and returns the error
    that the environment already exists; any other answer comes back
    wrapped. *)
Theorem validateDuplicateEnv_outcomes (st st' : state W) (r : option error)
  (l : list Event) :
  validateDuplicateEnv st = (r, st', l) ->
  opts st' = opts st
  /\ exists answer,
       on_store_GetEnvironment (appName (vars (opts st))) (name (vars (opts st)))
         (world st) = (answer, world st')
       /\ match answer with
          | Ok _ =>
              r = Some (errorString
                          (fmt.Sprintf "environment %s already exists"
                             [HighlightUserInput (name (vars (opts st)))]))
              /\ exists line,
                   l = [EvStoreGetEnvironment (appName (vars (opts st)))
                          (name (vars (opts st))) answer;
                        EvLog LogError line]
          | Err err =>
              l = [EvStoreGetEnvironment (appName (vars (opts st)))
                     (name (vars (opts st))) answer]
              /\ r = (if errors.As_NoSuchEnvironment err then None
                      else Some (Errorf_w "validate if environment exists: %w" [] err))
          end
       /\ (r = None <-> exists err, answer = Err err
                                    /\ errors.As_NoSuchEnvironment err = true).
Proof.
  unfold validateDuplicateEnv. intros Hrun. run_inv Hrun.
  all: split; [congruence|].
  all: eexists; split; [eassumption|]; cbv beta iota.
  all: try match goal with Hn : negb _ = true |- _ => apply negb_true_iff in Hn end.
  all: try match goal with Hn : negb _ = false |- _ => apply negb_false_iff in Hn end.
  - split; [split; [reflexivity | eexists; reflexivity]|].
    split; [discriminate | intros (err & E & _); discriminate].
  - rewrite Heqb. split; [split; reflexivity|].
    split; [discriminate|]. intros (err & E & Hx). inversion E; subst. congruence.
  - rewrite Heqb. split; [split; reflexivity|].
    split; [intros _; eauto | reflexivity].
Qed.

(** X18. Validate checks in a fixed order.  A name that is not a valid
    environment name is rejected with the error of the name check before
    anything is called.  When Validate returns no error, the customized
    resources and the credentials have passed their checks, and the only
    call made is the lookup of a passed name in the store, which answered
    that there is no such environment. *)
Theorem Validate_passes (st st' : state W) (r : option error) (l : list Event) :
  Validate st = (r, st', l) ->
  (forall err, name (vars (opts st)) <> "" ->
               validateEnvironmentName (name (vars (opts st))) = Some err ->
               r = Some err /\ l = [] /\ st' = st)
  /\ (r = None ->
      validateCustomizedResources (vars (opts st)) = None
      /\ validateCredentials (vars (opts st)) = None
      /\ (name (vars (opts st)) = "" -> l = [])
      /\ (name (vars (opts st)) <> "" ->
          validateEnvironmentName (name (vars (opts st))) = None
          /\ exists err,
               l = [EvStoreGetEnvironment (appName (vars (opts st)))
                      (name (vars (opts st))) (Err err)]
               /\ errors.As_NoSuchEnvironment err = true)).
Proof.
  unfold Validate. intros Hrun. run_inv Hrun.
  all: try match goal with Hd : validateDuplicateEnv _ = _ |- _ =>
         apply validateDuplicateEnv_call in Hd
           as (Ho & answer & tail & -> & Htail & Hnone) end.
  all: try match goal with Hn : negb _ = true |- _ =>
         apply negb_true_iff in Hn; apply String.eqb_neq in Hn end.
  all: try match goal with Hn : negb _ = false |- _ =>
         apply negb_false_iff in Hn; apply String.eqb_eq in Hn end.
  all: split;
       [ intros err' Hname Hbad;
         first [ discriminate Hbad
               | contradiction
               | inversion Hbad; subst; repeat split; reflexivity ] |].
  all: intros Hres; try discriminate Hres.
  - rewrite Ho in *. split; [assumption|]. split; [assumption|].
    split; [intros Hname; contradiction|]. intros _. split; [reflexivity|].
    destruct (proj1 Hnone eq_refl) as (err & -> & Has).
    rewrite (Htail eq_refl). exists err. split; [reflexivity | exact Has].
  - split; [reflexivity|]. split; [assumption|].
    split; [reflexivity|]. intros Hname. contradiction.
Qed.

End Checks.

End validate_checks.

(** ** Package cli: what the questions ask for and what they keep *)
Module ask_questions.

Import cli run_props validate_props ask_props.

#[local] Arguments fmt.Sprintf : simpl never.

Definition isSelectOne (ev : Event) : bool :=
  match ev with
  | EvPromptSelectOne _ _ _ _ => true
  | _ => false
  end.

Definition isSelectVPC (ev : Event) : bool :=
  match ev with
  | EvSelectVPC _ _ _ => true
  | _ => false
  end.

Definition isSelectSubnets (ev : Event) : bool :=
  match ev with
  | EvSelectSubnets _ _ => true
  | _ => false
  end.

Section Questions.

Context {W : Type} `{Clients W}.

(** X19. askAZs returns the zones that were passed without calling
    anything.  Otherwise it lists the zones of the region once; when the
    listing fails or names fewer than two zones it returns an error without
    asking, and else it asks once, offering exactly the listed zones, and
    returns the selection (or the error of the prompt, flattened into the
    message). *)
Theorem askAZs_outcomes (st st' : state W) (r : Result (slice string)) (l : list Event) :
  askAZs st = (r, st', l) ->
  opts st' = opts st
  /\ (isNil (AZs (adjustVPC (vars (opts st)))) = false ->
      l = [] /\ r = Ok (AZs (adjustVPC (vars (opts st)))) /\ st' = st)
  /\ (isNil (AZs (adjustVPC (vars (opts st)))) = true ->
      exists answer rest,
        l = EvListAZs answer :: rest
        /\ match answer with
           | Err err =>
               rest = []
               /\ r = Err (Errorf_v "list availability zones for region %s: %v"
                             [StringValue (sess_Config_Region (opts st))] err)
           | Ok azs =>
               if length azs <? 2
               then rest = [] /\ exists message, r = Err (errorString message)
               else exists selected,
                      rest = [EvPromptMultiSelect envInitAdjustAZPrompt
                                envInitAdjustAZPromptHelp azs selected]
                      /\ r = match selected with
                             | Ok zones => Ok zones
                             | Err err =>
                                 Err (Errorf_v "select availability zones: %v" [] err)
                             end
           end).
Proof.
  unfold askAZs. intros Hrun. run_inv Hrun.
  all: try match goal with Hn : negb _ = true |- _ => apply negb_true_iff in Hn end.
  all: try match goal with Hn : negb _ = false |- _ => apply negb_false_iff in Hn end.
  all: split; [congruence|].
  all: split; [intros Hnil; try congruence; auto|].
  all: intros Hnil; try congruence.
  all: eexists _, _; (split; [reflexivity|]); cbv beta iota.
  all: repeat match goal with Hc : (_ <? 2) = _ |- _ => rewrite Hc; clear Hc end.
  all: try (split; [reflexivity | eexists; reflexivity]).
  all: try (eexists; split; reflexivity).
  all: split; reflexivity.
Qed.

Lemma askAZs_given (st st' : state W) (r : Result (slice string)) (l : list Event) :
  askAZs st = (r, st', l) ->
  opts st' = opts st
  /\ (isNil (AZs (adjustVPC (vars (opts st)))) = false ->
      l = [] /\ r = Ok (AZs (adjustVPC (vars (opts st)))) /\ st' = st).
Proof.
  unfold askAZs. intros Hrun. run_inv Hrun.
  all: try match goal with Hn : negb _ = true |- _ => apply negb_true_iff in Hn end.
  all: try match goal with Hn : negb _ = false |- _ => apply negb_false_iff in Hn end.
  all: split; [congruence|]; intros Hnil; try congruence; auto.
Qed.

Lemma askAZs_events (st st' : state W) (r : Result (slice string)) (l : list Event) :
  askAZs st = (r, st', l) ->
  forallb (fun ev => negb (isSelectOne ev)) l = true
  /\ forall message help answer, ~ In (EvPromptGet message help answer) l.
Proof.
  unfold askAZs. intros Hrun. run_inv Hrun.
  all: split; [reflexivity|].
  all: intros message help answer Hin; in_cases Hin.
Qed.

Lemma askAdjustResources_events (st st' : state W) (r : option error) (l : list Event) :
  askAdjustResources st = (r, st', l) ->
  forallb (fun ev => negb (isSelectOne ev)) l = true.
Proof.
  unfold askAdjustResources. intros Hrun. run_inv Hrun.
  all: repeat match goal with
       | Hz : askAZs _ = _ |- _ => apply askAZs_events in Hz as [Hz _]
       end.
  all: rewrite ?forallb_app; simpl;
       repeat match goal with
              | Hx : forallb _ _ = true |- _ => rewrite Hx; clear Hx
              end; reflexivity.
Qed.

Lemma askImportResources_events (st st' : state W) (r : option error) (l : list Event) :
  askImportResources st = (r, st', l) ->
  forallb (fun ev => negb (isSelectOne ev)) l = true.
Proof.
  unfold askImportResources. intros Hrun. run_inv Hrun.
  all: reflexivity.
Qed.

(** The VPC CIDR was passed. *)
Definition cidrGiven (v : adjustVPCVars) : Prop :=
  IPNet_String (CIDR v) <> IPNet_String emptyIPNet.

(** X20. askAdjustResources asks only for what is missing and changes
    nothing else: a CIDR, zones and subnet CIDRs that were passed are kept as
    they are, and when all four were passed it calls nothing and returns no
    error.  When it returns no error, the public and the private subnet
    CIDRs are there. *)
Theorem askAdjustResources_asks_missing (st st' : state W) (r : option error)
  (l : list Event) :
  askAdjustResources st = (r, st', l) ->
  adjustOnly (opts st) (opts st')
  /\ (cidrGiven (adjustVPC (vars (opts st))) ->
      CIDR (adjustVPC (vars (opts st'))) = CIDR (adjustVPC (vars (opts st)))
      /\ forall help a, ~ In (EvPromptGet envInitVPCCIDRPrompt help a) l)
  /\ (isNil (AZs (adjustVPC (vars (opts st)))) = false ->
      AZs (adjustVPC (vars (opts st'))) = AZs (adjustVPC (vars (opts st))))
  /\ (isNil (PublicSubnetCIDRs (adjustVPC (vars (opts st)))) = false ->
      PublicSubnetCIDRs (adjustVPC (vars (opts st')))
      = PublicSubnetCIDRs (adjustVPC (vars (opts st))))
  /\ (isNil (PrivateSubnetCIDRs (adjustVPC (vars (opts st)))) = false ->
      PrivateSubnetCIDRs (adjustVPC (vars (opts st')))
      = PrivateSubnetCIDRs (adjustVPC (vars (opts st))))
  /\ (cidrGiven (adjustVPC (vars (opts st))) ->
      isNil (AZs (adjustVPC (vars (opts st)))) = false ->
      isNil (PublicSubnetCIDRs (adjustVPC (vars (opts st)))) = false ->
      isNil (PrivateSubnetCIDRs (adjustVPC (vars (opts st)))) = false ->
      l = [] /\ r = None)
  /\ (r = None ->
      isNil (PublicSubnetCIDRs (adjustVPC (vars (opts st')))) = false
      /\ isNil (PrivateSubnetCIDRs (adjustVPC (vars (opts st')))) = false).
Proof.
  intros Hrun. split; [exact (askAdjustResources_frame _ _ _ _ Hrun)|].
  unfold cidrGiven. unfold askAdjustResources in Hrun. run_inv Hrun.
  all: repeat match goal with
       | Hz : askAZs _ = _ |- _ =>
           let Hev := fresh "Hev" in
           pose proof (askAZs_events _ _ _ _ Hz) as [_ Hev];
           apply askAZs_given in Hz as (? & ?)
       end.
  all: repeat match goal with
       | He : String.eqb _ _ = true |- _ => apply String.eqb_eq in He
       | He : String.eqb _ _ = false |- _ => apply String.eqb_neq in He
       end.
  all: chain_opts; unfold_setters; simpl in *.
  all: repeat split; intros; try congruence; try discriminate; try contradiction.
  all: repeat match goal with
       | Hg : ?b = false -> _, Hb : ?b = false |- _ => specialize (Hg Hb)
       | Hg : _ /\ _ |- _ => destruct Hg
       end; subst; simpl in *; try congruence; try reflexivity.
  all: try (intros Hin; rewrite ?in_app_iff in Hin; simpl in Hin;
            repeat match goal with
                   | Hx : _ \/ _ |- _ => destruct Hx as [Hx|Hx]
                   | Hx : False |- _ => destruct Hx
                   | Hx : EvPromptGet _ _ _ = EvPromptGet _ _ _ |- _ =>
                       inversion Hx; clear Hx
                   | Hx : In (EvPromptGet _ _ _) _, Hev : forall m h a, ~ In _ _ |- _ =>
                       exact (Hev _ _ _ Hx)
                   end; try discriminate; try congruence).
Qed.

(** X21. askImportResources does not ask for a VPC that was passed, and it
    checks the DNS support of the VPC before any subnet is selected: when
    the check fails or finds the support disabled, the method returns an
    error and no subnet was asked for.  When it returns no error, the VPC
    that ends up in the options is the one whose DNS support was found
    enabled, the private subnets are there, and subnets that had to be
    selected are not exactly one public subnet and are at least two private
    ones. *)
Theorem askImportResources_checks_DNS (st st' : state W) (r : option error)
  (l : list Event) :
  askImportResources st = (r, st', l) ->
  (ID (importVPC (vars (opts st))) <> "" ->
   forallb (fun ev => negb (isSelectVPC ev)) l = true
   /\ ID (importVPC (vars (opts st'))) = ID (importVPC (vars (opts st))))
  /\ (forall vpcID answer,
        In (EvHasDNSSupport vpcID answer) l ->
        answer <> Ok true ->
        (exists err, r = Some err)
        /\ forallb (fun ev => negb (isSelectSubnets ev)) l = true)
  /\ (r = None ->
      In (EvHasDNSSupport (ID (importVPC (vars (opts st')))) (Ok true)) l
      /\ isNil (PrivateSubnetIDs (importVPC (vars (opts st')))) = false
      /\ (isNil (PublicSubnetIDs (importVPC (vars (opts st)))) = true ->
          len (PublicSubnetIDs (importVPC (vars (opts st')))) <> 1)
      /\ (isNil (PrivateSubnetIDs (importVPC (vars (opts st)))) = true ->
          2 <= len (PrivateSubnetIDs (importVPC (vars (opts st')))))).
Proof.
  unfold askImportResources. intros Hrun. run_inv Hrun.
  all: repeat match goal with
       | He : String.eqb _ _ = true |- _ => apply String.eqb_eq in He
       | He : String.eqb _ _ = false |- _ => apply String.eqb_neq in He
       | Hn : negb _ = true |- _ => apply negb_true_iff in Hn
       | Hn : negb _ = false |- _ => apply negb_false_iff in Hn
       | Hc : (_ =? 1) = false |- _ => apply Nat.eqb_neq in Hc
       | Hc : (_ <? 2) = false |- _ => apply Nat.ltb_ge in Hc
       end.
  all: subst; chain_opts; unfold_setters; simpl in *.
  all: split; [intros Hid; try contradiction; split; reflexivity|].
  all: split;
       [ intros vpcID answer Hin Hbad; in_cases Hin; try contradiction;
         (split; [eexists; reflexivity | reflexivity]) |].
  all: intros Hres; try discriminate Hres.
  all: split; [find_in|].
  all: split;
       [ first [ assumption
               | match goal with
                 | |- isNil ?s = false => destruct s; simpl in *; [reflexivity | lia]
                 end ] |].
  all: split; intros Hnil; first [assumption | congruence].
Qed.

(** X22. askCustomizedResources asks nothing under the default
    configuration, and it does not ask which configuration to use when
    import or adjust fields were passed.  Otherwise it asks once, offering
    the default, the adjustment and the import in this order; an answer
    other than the adjustment and the import is taken as the default:
    nothing more is asked and nothing is changed. *)
Theorem askCustomizedResources_choice (st st' : state W) (r : option error)
  (l : list Event) :
  askCustomizedResources st = (r, st', l) ->
  (defaultConfig (vars (opts st)) = true -> r = None /\ l = [] /\ st' = st)
  /\ (importVPCVars_isSet (importVPC (vars (opts st)))
      || adjustVPCVars_isSet (adjustVPC (vars (opts st))) = true ->
      forallb (fun ev => negb (isSelectOne ev)) l = true)
  /\ (defaultConfig (vars (opts st)) = false ->
      importVPCVars_isSet (importVPC (vars (opts st))) = false ->
      adjustVPCVars_isSet (adjustVPC (vars (opts st))) = false ->
      exists answer rest,
        l = EvPromptSelectOne envInitDefaultEnvConfirmPrompt ""
              [envInitDefaultConfigSelectOption; envInitAdjustEnvResourcesSelectOption;
               envInitImportEnvResourcesSelectOption] answer :: rest
        /\ forallb (fun ev => negb (isSelectOne ev)) rest = true
        /\ match answer with
           | Err err =>
               r = Some (Errorf_w "select adjusting or importing resources: %w" [] err)
               /\ rest = []
           | Ok choice =>
               choice <> envInitImportEnvResourcesSelectOption ->
               choice <> envInitAdjustEnvResourcesSelectOption ->
               r = None /\ rest = [] /\ opts st' = opts st
           end).
Proof.
  unfold askCustomizedResources. intros Hrun. run_inv Hrun.
  all: repeat match goal with
       | Hi : askImportResources _ = _ |- _ => apply askImportResources_events in Hi
       | Ha : askAdjustResources _ = _ |- _ => apply askAdjustResources_events in Ha
       | He : String.eqb _ _ = true |- _ => apply String.eqb_eq in He
       | He : String.eqb _ _ = false |- _ => apply String.eqb_neq in He
       end.
  all: split; [intros Hd; try congruence; auto|].
  all: split; [intros Hset; rewrite ?app_nil_r; simpl;
               first [ assumption | reflexivity
                     | rewrite Heqb0, Heqb1 in Hset; discriminate Hset ] |].
  all: intros Hd Hi Ha; try congruence.
  all: eexists _, _; (split; [reflexivity|]); rewrite ?app_nil_r.
  all: split; [first [assumption | reflexivity]|].
  all: try (split; reflexivity).
  all: intros Hni Hna; try contradiction.
  all: repeat split; congruence.
Qed.

End Questions.

End ask_questions.

(** ** Package cli: the steps of Execute *)
Module execute_steps.

Import cli run_props validate_props deploy_props ask_props.

#[local] Arguments fmt.Sprintf : simpl never.

(** Finds an event in a log that is written out up to the logs of the
    methods called. *)
Ltac find_event :=
  simpl;
  first [ left; reflexivity
        | right; find_event
        | apply in_or_app; right; find_event ].

Section Steps.

Context {W : Type} `{Clients W}.

(** X23. The two steps of Execute that show a spinner stop it whatever
    the answer.  delegateDNSFromApp does nothing for the account of the
    application itself; for another account it starts the spinner, delegates
    once and stops the spinner, and returns the answer of the delegation as
    it is.  addToStackset starts the spinner, adds the environment to the
    application once with the options it was given and stops the spinner; an
    error of the addition comes back wrapped with the names of the
    environment and of the application. *)
Theorem spinner_always_stopped :
  (forall (app : config.Application) (accountID : string) (st st' : state W)
          (r : option error) (l : list Event),
     delegateDNSFromApp app accountID st = (r, st', l) ->
     opts st' = opts st
     /\ (accountID = config.Application_AccountID app -> r = None /\ l = [] /\ st' = st)
     /\ (accountID <> config.Application_AccountID app ->
         exists start stop,
           l = [ EvProgStart start;
                 EvDelegateDNSPermissions app accountID r;
                 EvProgStop stop ]))
  /\ (forall (o : deploycfn.AddEnvToAppOpts) (st st' : state W) (r : option error)
             (l : list Event),
        addToStackset o st = (r, st', l) ->
        opts st' = opts st
        /\ exists answer start stop,
             l = [EvProgStart start; EvAddEnvToApp o answer; EvProgStop stop]
             /\ r = match answer with
                    | None => None
                    | Some err =>
                        Some (Errorf_w "deploy env %s to application %s: %w"
                                [ deploycfn.EnvName o;
                                  config.Application_Name (deploycfn.App o) ] err)
                    end).
Proof.
  split.
  - intros app accountID st st' r l Hrun.
    unfold delegateDNSFromApp in Hrun. run_inv Hrun.
    all: repeat match goal with
         | He : String.eqb _ _ = true |- _ => apply String.eqb_eq in He
         | He : String.eqb _ _ = false |- _ => apply String.eqb_neq in He
         end.
    all: split; [congruence|].
    all: split; [intros Hsame; try contradiction; auto|].
    all: intros Hother; try contradiction; eexists _, _; reflexivity.
  - intros o st st' r l Hrun.
    unfold addToStackset in Hrun. run_inv Hrun.
    all: split; [congruence|].
    all: eexists _, _, _; split; reflexivity.
Qed.

(** What is done for one role: its tags are listed, and it is deleted when
    the listing shows the tag of environments. *)
Definition roleHandled (roleName : string) (log : list Event) : Prop :=
  exists res,
    (roleTagged res = false /\ log = [EvListRoleTags roleName res])
    \/ (roleTagged res = true
        /\ exists d, log = [EvListRoleTags roleName res; EvDeleteRole roleName d]).

Lemma two_roles_log (r1 r2 : string) (st st' : state W) (u : unit) (l : list Event) :
  for_range [r1; r2] tryDeletingRole st = (u, st', l) ->
  exists l1 l2, l = l1 ++ l2 /\ roleHandled r1 l1 /\ roleHandled r2 l2.
Proof.
  intros Hrun. unfold for_range in Hrun. run_inv Hrun.
  apply tryDeletingRole_run in Hrun0 as (_ & Hl1).
  apply tryDeletingRole_run in Hrun as (_ & Hl2).
  rewrite app_nil_r. eexists _, _. split; [reflexivity|]. split; assumption.
Qed.

(** X24. cleanUpDanglingRoles asks once whether the stack of the
    environment exists.  When that cannot be told, the error comes back
    wrapped and no role is touched; when the stack exists, no role is
    touched.  When it does not, tryDeletingEnvRoles goes through the
    execution role and then the manager role: it lists the tags of each
    once and attempts to delete a role only right after a listing that
    shows the tag of environments; a listing or a deletion that fails stops
    nothing, and no error is returned. *)
Theorem cleanUpDanglingRoles_best_effort (app env : string) (st st' : state W)
  (r : option error) (l : list Event) :
  cleanUpDanglingRoles app env st = (r, st', l) ->
  exists answer rest,
    l = EvCfnExists (NameForEnv app env) answer :: rest
    /\ match answer with
       | Err err =>
           r = Some (Errorf_w "check if stack %s exists: %w" [NameForEnv app env] err)
           /\ rest = []
       | Ok true => r = None /\ rest = []
       | Ok false =>
           r = None
           /\ exists l1 l2,
                rest = l1 ++ l2
                /\ roleHandled (fmt.Sprintf "%s-CFNExecutionRole" [NameForEnv app env]) l1
                /\ roleHandled (fmt.Sprintf "%s-EnvManagerRole" [NameForEnv app env]) l2
       end.
Proof.
  unfold cleanUpDanglingRoles. intros Hrun. run_inv Hrun.
  all: eexists _, _; (split; [reflexivity|]); cbv beta iota.
  - split; reflexivity.
  - rewrite app_nil_r. split; [reflexivity|].
    exact (two_roles_log _ _ _ _ _ _ Hrun).
  - split; reflexivity.
Qed.

(** X25. Execute returns no error exactly when the record of the
    environment was handed to the store and the store took it.  A record
    is handed to the store only after a deployment of the stack that
    succeeded or found the stack already there. *)
Theorem Execute_succeeds_iff_stored (st st' : state W) (res : option error)
  (l : list Event) :
  Execute st = (res, st', l) ->
  (res = None <-> exists env, In (EvStoreCreateEnvironment env None) l)
  /\ (forall env d,
        In (EvStoreCreateEnvironment env d) l ->
        exists input answer,
          In (EvDeployAndRenderEnvironment input answer) l
          /\ (answer = None
              \/ exists err, answer = Some err
                             /\ errors.As_StackAlreadyExists err = true)).
Proof.
  intros Hrun. apply Execute_run in Hrun as (_ & [[Hl Hres]|Hshape]).
  { split.
    - split; [intros E; contradiction|].
      intros (env & Hin). rewrite forallb_forall in Hl. specialize (Hl _ Hin).
      discriminate.
    - intros env d Hin. rewrite forallb_forall in Hl. specialize (Hl _ Hin).
      discriminate. }
  destruct Hshape as (pre & app & urls & st1 & st2 & rd & ld & post
                      & -> & Hpre & Hd & Ho & Hpost).
  apply deployEnv_run in Hd as (_ & Hsteps & Hdeploy).
  assert (Hin_post : forall env d,
             In (EvStoreCreateEnvironment env d) (pre ++ ld ++ post) ->
             In (EvStoreCreateEnvironment env d) post).
  { intros env d Hin. apply in_app_or in Hin as [Hin|Hin].
    { rewrite forallb_forall in Hpre. specialize (Hpre _ Hin). discriminate. }
    apply in_app_or in Hin as [Hin|Hin]; [|exact Hin].
    rewrite forallb_forall in Hsteps. specialize (Hsteps _ Hin). discriminate. }
  unfold recordPersistence in Hpost. split.
  - split.
    + intros ->. destruct rd as [err|]; [destruct Hpost as [E _]; discriminate E|].
      destruct Hpost as (answer & rest & -> & Hrest).
      destruct answer as [env|err]; [|destruct Hrest as [E _]; contradiction].
      destruct Hrest as (d & tail & -> & _ & _ & Hbad).
      destruct d as [err|]; [destruct Hbad as [E _]; [discriminate|contradiction]|].
      exists (stamped (vars (opts st)) env). rewrite !in_app_iff. right. right.
      right. left. reflexivity.
    + intros (env & Hin). apply Hin_post in Hin.
      destruct rd as [err|]; [destruct Hpost as [_ ->]; destruct Hin|].
      destruct Hpost as (answer & rest & -> & Hrest).
      destruct Hin as [Hin|Hin]; [discriminate Hin|].
      destruct answer as [env'|err]; [|destruct Hrest as [_ ->]; destruct Hin].
      destruct Hrest as (d & tail & -> & Htail & Hok & _).
      destruct Hin as [Hin|Hin].
      * inversion Hin; subst. apply Hok. reflexivity.
      * rewrite forallb_forall in Htail. specialize (Htail _ Hin). discriminate.
  - intros env d Hin. apply Hin_post in Hin.
    destruct rd as [err|]; [destruct Hpost as [_ ->]; destruct Hin|].
    destruct Hdeploy as [[_ Hrd]|Hshape]; [contradiction|].
    destruct Hshape as (pre0 & input & answer & post0 & -> & _ & _ & _ & Hans).
    exists input, answer. split.
    + rewrite !in_app_iff. right. left. right. left. reflexivity.
    + destruct answer as [err|]; [|left; reflexivity].
      right. exists err. split; [reflexivity|].
      destruct (errors.As_StackAlreadyExists err); [reflexivity|].
      destruct Hans as [E _]. discriminate E.
Qed.

Lemma cleanup_not_deploy (l : list Event) (input : deploy.CreateEnvironmentInput)
  (answer : option error) :
  forallb isRoleCleanup l = true -> ~ In (EvDeployAndRenderEnvironment input answer) l.
Proof.
  intros Hl Hin. rewrite forallb_forall in Hl. specialize (Hl _ Hin). discriminate.
Qed.

(** The input that deployEnv hands to the deployer. *)
Definition deployInput (o : initEnvVars) (app : config.Application)
  (urls : gmap string string) (caller : identity.Caller) : deploy.CreateEnvironmentInput :=
  {| deploy.Name := name o;
     deploy.App :=
       {| deploy.AppInformation_Name := appName o;
          deploy.DNSName := config.Application_Domain app;
          deploy.AccountPrincipalARN := identity.RootUserARN caller |};
     deploy.Prod := isProduction o;
     deploy.AdditionalTags := config.Application_Tags app;
     deploy.CustomResourcesURLs := urls;
     deploy.AdjustVPCConfig := adjustVPCConfig o;
     deploy.ImportVPCConfig := importVPCConfig o;
     deploy.Version := LatestEnvTemplateVersion |}.

Lemma deployEnv_input (app : config.Application) (urls : gmap string string)
  (st st' : state W) (res : option error) (l : list Event)
  (input : deploy.CreateEnvironmentInput) (answer : option error) :
  deployEnv app urls st = (res, st', l) ->
  In (EvDeployAndRenderEnvironment input answer) l ->
  exists caller rest,
    l = EvIdentityGet (Ok caller) :: rest
    /\ input = deployInput (vars (opts st)) app urls caller.
Proof.
  unfold deployEnv. intros Hrun Hin. run_inv Hrun.
  all: try match goal with Hc : cleanUpDanglingRoles _ _ _ = _ |- _ =>
         apply cleanUpDanglingRoles_run in Hc
           as (_ & ans & rest & -> & Hrest & _) end.
  all: try match goal with Ht : tryDeletingEnvRoles _ _ _ = _ |- _ =>
         apply tryDeletingEnvRoles_run in Ht as (_ & Hpost & _) end.
  all: simpl in Hin; rewrite ?in_app_iff in Hin; simpl in Hin.
  all: repeat match goal with
       | Hx : _ \/ _ |- _ => destruct Hx as [Hx|Hx]
       | Hx : False |- _ => destruct Hx
       | Hx : In _ (_ ++ _) |- _ => apply in_app_or in Hx
       | Hx : In _ (_ :: _) |- _ => simpl in Hx
       | Hx : In _ [] |- _ => destruct Hx
       | Hx : In (EvDeployAndRenderEnvironment _ _) ?x, Hc : forallb isRoleCleanup ?x = true
         |- _ => destruct (cleanup_not_deploy _ _ _ Hc Hx)
       | Hx : _ = EvDeployAndRenderEnvironment _ _ |- _ =>
           first [discriminate Hx | inversion Hx; subst; clear Hx]
       end.
  all: eexists _, _; split; reflexivity.
Qed.

(** X26. Whenever Execute reaches the deployment of the stack, every
    earlier step has succeeded and the deployer is given what those steps
    produced: the application that the store returned, which was linked to
    the account of the environment and to the region of the session; the
    addresses that the upload of the custom resources returned, the upload
    having gone to the bucket of the application in that region; the ARN of
    the caller; the name, the production flag and the latest template
    version; and the same import and adjust configurations that are later
    written into the record. *)
Theorem Execute_deploy_input (st st' : state W) (res : option error) (l : list Event)
  (input : deploy.CreateEnvironmentInput) (answer : option error) :
  Execute st = (res, st', l) ->
  In (EvDeployAndRenderEnvironment input answer) l ->
  exists app envCaller bucket urls caller,
    In (EvStoreGetApplication (appName (vars (opts st))) (Ok app)) l
    /\ In (EvEnvIdentityGet (Ok envCaller)) l
    /\ In (EvAddEnvToApp
             {| deploycfn.App := app;
                deploycfn.EnvName := name (vars (opts st));
                deploycfn.EnvRegion := StringValue (sess_Config_Region (opts st));
                deploycfn.EnvAccountID := identity.Account envCaller |} None) l
    /\ In (EvGetAppResourcesByRegion app (StringValue (sess_Config_Region (opts st)))
             (Ok bucket)) l
    /\ In (EvNewS3 (StringValue (sess_Config_Region (opts st))) None) l
    /\ In (EvUploadEnvironmentCustomResources bucket (Ok urls)) l
    /\ In (EvIdentityGet (Ok caller)) l
    /\ input = deployInput (vars (opts st)) app urls caller.
Proof.
  unfold Execute, addToStackset. intros Hrun Hin. run_inv Hrun.
  all: repeat match goal with
       | Hd : delegateDNSFromApp _ _ _ = _ |- _ =>
           apply delegateDNSFromApp_run in Hd as [? ?]
       end.
  all: simpl in Hin; rewrite ?in_app_iff in Hin; simpl in Hin;
       rewrite ?in_app_iff in Hin; simpl in Hin.
  all: repeat match goal with
       | Hx : _ \/ _ |- _ => destruct Hx as [Hx|Hx]
       | Hx : False |- _ => destruct Hx
       | Hx : In _ (_ ++ _) |- _ => apply in_app_or in Hx
       | Hx : In _ (_ :: _) |- _ => simpl in Hx
       | Hx : In _ [] |- _ => destruct Hx
       | Hx : In (EvDeployAndRenderEnvironment _ _) ?x,
         Hb : forallb isBeforeDeploy ?x = true |- _ =>
           exfalso; rewrite forallb_forall in Hb; specialize (Hb _ Hx); discriminate Hb
       | Hx : _ = EvDeployAndRenderEnvironment _ _ |- _ => discriminate Hx
       end.
  all: match goal with
       | Hd : deployEnv _ _ _ = _, Hx : In (EvDeployAndRenderEnvironment _ _) _ |- _ =>
           destruct (deployEnv_input _ _ _ _ _ _ _ _ Hd Hx) as (caller & rest & -> & ->)
       end.
  all: match goal with
       | Hd : deployEnv _ _ ?s = _ |- _ =>
           let Eo := fresh "Eo" in
           assert (Eo : opts s = opts st) by congruence; rewrite Eo; clear Hin
       end.
  all: eexists _, _, _, _, caller.
  all: repeat (split; [find_event|]).
  all: reflexivity.
Qed.

End Steps.

End execute_steps.

(** ** Package cli: the questions of Ask *)
Module ask_flow_props.

Import cli cli_ask run_props validate_props ask_props.

#[local] Arguments fmt.Sprintf : simpl never.

Section RunAsk.

Context {W : Type}.

Lemma retA_inv {A : Type} (a b : A) (st st' : state W) (l : list AskEvent) :
  retA a st = (b, st', l) -> b = a /\ st' = st /\ l = [].
Proof. unfold retA. intros E. inversion E. auto. Qed.

Lemma bindA_inv {A B : Type} (m : MA W A) (k : A -> MA W B) (st st2 : state W)
  (b : B) (l : list AskEvent) :
  bindA m k st = (b, st2, l) ->
  exists a st1 l1 l2, m st = (a, st1, l1) /\ k a st1 = (b, st2, l2) /\ l = l1 ++ l2.
Proof.
  unfold bindA. destruct (m st) as [[a st1] l1]. destruct (k a st1) as [[b' st2'] l2] eqn:Hk.
  intros E. inversion E; subst. exists a, st1, l1, l2. auto.
Qed.

Lemma callA_inv {R : Type} (h : W -> R * W) (ev : R -> AskEvent) (st st' : state W)
  (r : R) (l : list AskEvent) :
  callA h ev st = (r, st', l) ->
  opts st' = opts st /\ l = [ev r] /\ h (world st) = (r, world st').
Proof.
  unfold callA. destruct (h (world st)) as [r' w]. intros E. inversion E; subst. auto.
Qed.

Lemma lift_inv {A : Type} (m : M W A) (st st' : state W) (a : A) (l : list AskEvent) :
  lift m st = (a, st', l) -> exists l0, m st = (a, st', l0) /\ l = map EvCli l0.
Proof.
  unfold lift. destruct (m st) as [[a' st1] l0]. intros E. inversion E; subst. eauto.
Qed.

End RunAsk.

(** Runs a method of Ask backwards from its outcome, as [run_inv] does for
    the methods of module cli. *)
Ltac run_invA H :=
  cbv beta zeta in H;
  lazymatch type of H with
  | bindA _ _ _ = _ =>
      let a := fresh "a" in let st := fresh "st" in
      let l1 := fresh "l" in let l2 := fresh "l" in
      let H1 := fresh "Hrun" in let H2 := fresh "Hrun" in
      apply bindA_inv in H; destruct H as (a & st & l1 & l2 & H1 & H2 & ?);
      subst; run_invA H1; run_invA H2
  | retA _ _ = _ => apply retA_inv in H; destruct H as (? & ? & ?); subst
  | callA _ _ _ = _ =>
      let Ho := fresh "Ho" in let Hh := fresh "Hcall" in
      apply callA_inv in H; destruct H as (Ho & ? & Hh); subst
  | lift _ _ = _ =>
      let l0 := fresh "l" in let H0 := fresh "Hrun" in
      apply lift_inv in H; destruct H as (l0 & H0 & ?); subst; run_inv H0
  | (match ?x with _ => _ end) _ = _ => destruct x eqn:?; run_invA H
  | (if ?b then _ else _) _ = _ => destruct b eqn:?; run_invA H
  | _ => idtac
  end.

Ltac name_tests :=
  repeat match goal with
         | Hn : negb _ = true |- _ => apply negb_true_iff in Hn
         | Hn : negb _ = false |- _ => apply negb_false_iff in Hn
         | He : String.eqb _ _ = true |- _ => apply String.eqb_eq in He
         | He : String.eqb _ _ = false |- _ => apply String.eqb_neq in He
         end.

Ltac source_answer :=
  split; [reflexivity|];
  let E := fresh "E" in
  intros ? E; first [discriminate E | inversion E; subst; reflexivity].

Section Flow.

Context {W : Type} `{Clients W} `{AskClients W}.

(** X27. askEnvSession takes the session from one source only: from the
    named profile when a profile is passed; else from the temporary
    credentials when the access key and the secret key are both passed;
    else from the selection of credentials.  When the source answers with a
    session, that session replaces the one of the command and nothing else
    changes; when it fails, nothing changes, and the error comes back
    wrapped, except for the temporary credentials, whose error comes back
    as it is. *)
Theorem askEnvSession_precedence (st st' : state W) (r : option error)
  (l : list AskEvent) :
  askEnvSession st = (r, st', l) ->
  vars (opts st') = vars (opts st)
  /\ exists answer,
       (profile (vars (opts st)) <> "" ->
        l = [EvFromProfile (profile (vars (opts st))) answer]
        /\ forall err, answer = Err err ->
             r = Some (Errorf_w "create session from profile %s: %w"
                         [profile (vars (opts st))] err))
       /\ (profile (vars (opts st)) = "" ->
           AccessKeyID (tempCreds (vars (opts st))) <> "" ->
           SecretAccessKey (tempCreds (vars (opts st))) <> "" ->
           l = [EvFromStaticCreds (AccessKeyID (tempCreds (vars (opts st))))
                  (SecretAccessKey (tempCreds (vars (opts st))))
                  (SessionToken (tempCreds (vars (opts st)))) answer]
           /\ forall err, answer = Err err -> r = Some err)
       /\ (profile (vars (opts st)) = "" ->
           (AccessKeyID (tempCreds (vars (opts st))) = ""
            \/ SecretAccessKey (tempCreds (vars (opts st))) = "") ->
           l = [EvSelectCreds
                  (fmt.Sprintf fmtEnvInitCredsPrompt
                     [HighlightUserInput (name (vars (opts st)))])
                  envInitCredsHelpPrompt answer]
           /\ forall err, answer = Err err ->
                r = Some (Errorf_w "select creds: %w" [] err))
       /\ match answer with
          | Ok sess =>
              r = None /\ sess_Config_Region (opts st') = Config_Region sess
          | Err _ => r <> None /\ opts st' = opts st
          end.
Proof.
  unfold askEnvSession, tempCredsVars_isSet. intros Hrun. run_invA Hrun.
  all: try match goal with
       | Hc : _ && _ = true |- _ => apply andb_true_iff in Hc as [? ?]
       | Hc : _ && _ = false |- _ => apply andb_false_iff in Hc as [?|?]
       end.
  all: name_tests.
  all: chain_opts.
  all: split; [reflexivity|].
  all: match goal with
       | Hc : _ = (?a, _) |- _ => exists a
       end.
  all: split; [intros Hp; first [contradiction | source_answer]|].
  all: split; [intros Hp Hk Hs; first [contradiction | source_answer]|].
  all: split; [intros Hp [Hk|Hs]; first [contradiction | source_answer]|].
  all: split; first [reflexivity | discriminate | congruence].
Qed.

(** X28. askEnvRegion settles the region of the session by precedence: the
    region that was passed; else the region that the session already has;
    else, and only then, the answer to the question for the region.  It
    changes nothing but the region of the session, and when it returns no
    error the session has a region. *)
Theorem askEnvRegion_precedence (st st' : state W) (r : option error)
  (l : list AskEvent) :
  askEnvRegion st = (r, st', l) ->
  vars (opts st') = vars (opts st)
  /\ (r = None -> sess_Config_Region (opts st') <> None)
  /\ (region (vars (opts st)) <> "" ->
      r = None /\ l = []
      /\ sess_Config_Region (opts st') = Some (region (vars (opts st))))
  /\ (region (vars (opts st)) = "" ->
      StringValue (sess_Config_Region (opts st)) <> "" ->
      r = None /\ l = []
      /\ sess_Config_Region (opts st') = sess_Config_Region (opts st))
  /\ (region (vars (opts st)) = "" ->
      StringValue (sess_Config_Region (opts st)) = "" ->
      exists answer,
        l = [EvCli (EvPromptGet envInitRegionPrompt "" answer)]
        /\ match answer with
           | Ok v => r = None /\ sess_Config_Region (opts st') = Some v
           | Err err =>
               r = Some (Errorf_w "get environment region: %w" [] err)
               /\ opts st' = opts st
           end).
Proof.
  unfold askEnvRegion. intros Hrun. run_invA Hrun.
  all: name_tests.
  all: chain_opts; simpl.
  all: destruct (String.eqb_spec (region (vars (opts st))) "") as [Hflag|Hflag];
       simpl in *.
  all: destruct (sess_Config_Region (opts st)) as [v|] eqn:Hsess; simpl in *.
  all: split; [reflexivity|].
  all: split; [intros E; discriminate|].
  all: split; [intros Hr; first [contradiction | congruence | auto]|].
  all: split; [intros Hr Hs; first [contradiction | congruence | auto]|].
  all: intros Hr Hs; first [contradiction | congruence | idtac].
  all: eexists; split; [reflexivity|]; split; reflexivity.
Qed.

Lemma askCustomizedResources_default_quiet (st st' : state W) (r : option error)
  (l : list Event) :
  askCustomizedResources st = (r, st', l) ->
  defaultConfig (vars (opts st)) = true -> r = None /\ l = [] /\ st' = st.
Proof.
  unfold askCustomizedResources. intros Hrun Hd. run_inv Hrun.
  all: first [congruence | auto].
Qed.

(** X29. askEnvName asks nothing, and checks nothing, when a name was
    passed.  Otherwise it asks for the name once; the answer becomes the
    name of the environment, and the store is then asked for an environment
    of that name in the application: no error is returned exactly when the
    store answers that there is none. *)
Theorem askEnvName_checks_duplicate (st st' : state W) (r : option error)
  (l : list AskEvent) :
  askEnvName st = (r, st', l) ->
  (name (vars (opts st)) <> "" -> r = None /\ l = [] /\ st' = st)
  /\ (name (vars (opts st)) = "" ->
      exists answer rest,
        l = EvCli (EvPromptGet envInitNamePrompt envInitNameHelpPrompt answer) :: rest
        /\ match answer with
           | Err err =>
               r = Some (Errorf_w "get environment name: %w" [] err)
               /\ rest = [] /\ opts st' = opts st
           | Ok envName =>
               opts st' = set_name (opts st) envName
               /\ exists found tail,
                    rest = EvCli (EvStoreGetEnvironment (appName (vars (opts st)))
                                    envName found) :: map EvCli tail
                    /\ (r = None <-> exists err, found = Err err
                                     /\ errors.As_NoSuchEnvironment err = true)
           end).
Proof.
  unfold askEnvName. intros Hrun. run_invA Hrun.
  all: try match goal with Hd : validateDuplicateEnv _ = _ |- _ =>
         apply validate_checks.validateDuplicateEnv_call in Hd
           as (Hod & found & tail & -> & _ & Hnone) end.
  all: name_tests.
  all: split; [intros Hn; first [contradiction | auto]|].
  all: intros Hn; first [contradiction | idtac].
  all: eexists _, _; (split; [reflexivity|]); cbv beta iota.
  - split; [congruence|]. rewrite Hput. simpl. rewrite Ho.
    exists found, tail. split; [reflexivity | exact Hnone].
  - split; [reflexivity|]. split; [reflexivity | assumption].
Qed.

Lemma askCustomizedResources_keeps (st st' : state W) (r : option error)
  (l : list Event) :
  askCustomizedResources st = (r, st', l) ->
  exists i a, opts st' = set_adjustVPC (set_importVPC (opts st) i) a.
Proof.
  unfold askCustomizedResources. intros Hrun. run_inv Hrun.
  all: repeat match goal with
       | Hi : askImportResources _ = _ |- _ => apply askImportResources_frame in Hi
       | Ha : askAdjustResources _ = _ |- _ => apply askAdjustResources_frame in Ha
       end.
  all: unfold importOnly, adjustOnly in *.
  all: repeat match goal with
       | Hx : opts ?s = opts _ |- _ => rewrite Hx in *; clear Hx
       end.
  all: match goal with
       | |- exists i a, opts ?s = _ =>
           exists (importVPC (vars (opts s))), (adjustVPC (vars (opts s)))
       end.
  all: repeat match goal with
       | Hx : opts _ = _ |- _ => rewrite Hx; clear Hx
       end.
  all: destruct (opts st) as [[] ?]; reflexivity.
Qed.

(** X30. Ask changes neither the profile, the temporary credentials, the
    region flag, nor the production and default-configuration flags, and it
    keeps an application name and an environment name that were passed.
    With no application passed it begins by asking for one, and stops with
    the wrapped error when that fails.  When it returns no error the session
    has a region.  With the
    application, the name, a profile and a region passed and the default
    configuration asked for, Ask asks nothing: its one call creates the
    session from the profile, and the region passed becomes the region of
    that session. *)
Theorem Ask_keeps_what_was_passed (st st' : state W) (r : option error)
  (l : list AskEvent) :
  Ask st = (r, st', l) ->
  (profile (vars (opts st')) = profile (vars (opts st))
   /\ tempCreds (vars (opts st')) = tempCreds (vars (opts st))
   /\ region (vars (opts st')) = region (vars (opts st))
   /\ isProduction (vars (opts st')) = isProduction (vars (opts st))
   /\ defaultConfig (vars (opts st')) = defaultConfig (vars (opts st)))
  /\ (appName (vars (opts st)) <> "" ->
      appName (vars (opts st')) = appName (vars (opts st)))
  /\ (name (vars (opts st)) <> "" -> name (vars (opts st')) = name (vars (opts st)))
  /\ (appName (vars (opts st)) = "" ->
      exists answer rest,
        l = EvSelectApplication envInitAppNamePrompt envInitAppNameHelpPrompt answer
              :: rest
        /\ forall err, answer = Err err ->
             r = Some (Errorf_w "ask for application: %w" [] err)
             /\ rest = [] /\ opts st' = opts st)
  /\ (r = None -> sess_Config_Region (opts st') <> None)
  /\ (appName (vars (opts st)) <> "" ->
      name (vars (opts st)) <> "" ->
      profile (vars (opts st)) <> "" ->
      region (vars (opts st)) <> "" ->
      defaultConfig (vars (opts st)) = true ->
      exists answer,
        l = [EvFromProfile (profile (vars (opts st))) answer]
        /\ match answer with
           | Ok sess =>
               r = None /\ vars (opts st') = vars (opts st)
               /\ sess_Config_Region (opts st') = Some (region (vars (opts st)))
           | Err err =>
               r = Some (Errorf_w "create session from profile %s: %w"
                           [profile (vars (opts st))] err)
               /\ opts st' = opts st
           end).
Proof.
  unfold Ask, askAppName, askEnvName, askEnvSession, askEnvRegion.
  intros Hrun. run_invA Hrun.
  all: try match goal with Hd : validateDuplicateEnv _ = _ |- _ =>
         apply validate_checks.validateDuplicateEnv_call in Hd as (Hod & _) end.
  all: try match goal with Hc : askCustomizedResources ?s = (?r0, ?s', ?l0) |- _ =>
         assert (Hd : defaultConfig (vars (opts s)) = true ->
                      r0 = None /\ l0 = [] /\ opts s' = opts s)
           by (intros Hx;
               destruct (askCustomizedResources_default_quiet _ _ _ _ Hc Hx)
                 as (? & ? & ->); auto);
         apply askCustomizedResources_keeps in Hc as (ci & ca & Hk) end.
  all: name_tests.
  all: repeat match goal with
       | Hx : opts ?s = _ |- _ => rewrite Hx in *; clear Hx
       end.
  all: unfold set_appName, set_name, set_sess, set_sess_Config_Region,
         set_importVPC, set_adjustVPC in *; simpl in *.
  all: split; [repeat split; reflexivity|].
  all: split; [intros Hx; first [contradiction | reflexivity]|].
  all: split; [intros Hx; first [contradiction | reflexivity]|].
  all: split;
       [ intros Hx;
         first [ contradiction
               | eexists _, _; split; [reflexivity|];
                 let E := fresh "E" in
                 intros ? E;
                 first [ discriminate E
                       | inversion E; subst; repeat split; reflexivity ] ] |].
  all: split; [intros Hx; first [discriminate Hx | discriminate]|].
  all: intros Hx1 Hx2 Hx3 Hx4 Hx5; try contradiction.
  all: try (match goal with
            | Hf : (if negb (String.eqb ?x "") then _ else _) = "" |- _ =>
                destruct (String.eqb_spec x ""); [contradiction|];
                simpl in Hf; contradiction
            end).
  all: try (eexists; split; [reflexivity|]; split; reflexivity).
  all: destruct (Hd Hx5) as (-> & -> & Eo); simpl.
  all: eexists; (split; [reflexivity|]); cbv beta iota.
  all: destruct (String.eqb_spec (region (vars (opts st))) ""); [contradiction|].
  all: simpl in *; inversion Eo; repeat split; congruence.
Qed.

End Flow.

End ask_flow_props.

(** ** Further runs against the scripted collaborators *)
Module scenario_runs.

Import cli cli_ask run_props validate_props deploy_props ask_props scenario.
Import validate_checks ask_questions execute_steps ask_flow_props.

(** Collaborators of Ask that answer with the application demo and with a
    session in us-west-2. *)
Definition scriptedAsk : AskClients Script :=
  {| on_selApp_Application := fun _ _ w => (Ok "demo", w);
     on_sessProvider_FromProfile := fun _ w =>
       (Ok {| Config_Region := Some "us-west-2" |}, w);
     on_sessProvider_FromStaticCreds := fun _ _ _ w =>
       (Ok {| Config_Region := Some "us-west-2" |}, w);
     on_selCreds_Creds := fun _ _ w =>
       (Ok {| Config_Region := Some "us-west-2" |}, w) |}.

#[local] Existing Instance scripted.
#[local] Existing Instance scriptedAsk.

(** The zones are to be adjusted and none was passed. *)
Definition adjustRun : state Script :=
  {| opts := flags "test" false noImport
               {| CIDR := {| IPNet_String := "10.1.0.0/16" |}; AZs := None;
                  PublicSubnetCIDRs := None; PrivateSubnetCIDRs := None |};
     world := script false None false twoSubnets twoSubnets |}.

Lemma validateDuplicateEnv_outcomes_witness :
  fst (fst (@validateDuplicateEnv _ scripted defaultRun)) = None.
Proof.
  destruct (@validateDuplicateEnv _ scripted defaultRun) as [[r st'] l] eqn:Hrun.
  destruct (@validateDuplicateEnv_outcomes _ scripted _ _ _ _ Hrun)
    as (_ & answer & Hcall & _ & Hnone).
  simpl. apply Hnone. simpl in Hcall. inversion Hcall.
  eexists. split; reflexivity.
Defined.

Lemma Validate_passes_witness :
  @validateCustomizedResources _ scripted (vars (opts defaultRun)) = None
  /\ @validateCredentials _ scripted (vars (opts defaultRun)) = None.
Proof.
  destruct (@Validate _ scripted defaultRun) as [[r st'] l] eqn:Hrun.
  assert (Hr : r = None).
  { pose proof Hrun as Hc. vm_compute in Hc. inversion Hc. reflexivity. }
  destruct (proj2 (@Validate_passes _ scripted _ _ _ _ Hrun) Hr) as (Hv & Hc & _).
  split; assumption.
Defined.

Lemma askAZs_outcomes_witness :
  exists answer rest, snd (@askAZs _ scripted adjustRun) = EvListAZs answer :: rest.
Proof.
  destruct (@askAZs _ scripted adjustRun) as [[r st'] l] eqn:Hrun.
  destruct (@askAZs_outcomes _ scripted _ _ _ _ Hrun) as (_ & _ & Hlist).
  destruct (Hlist eq_refl) as (answer & rest & Hl & _).
  exists answer, rest. exact Hl.
Defined.

Lemma askAdjustResources_asks_missing_witness :
  CIDR (adjustVPC (vars (opts (snd (fst (@askAdjustResources _ scripted adjustRun))))))
  = {| IPNet_String := "10.1.0.0/16" |}.
Proof.
  destruct (@askAdjustResources _ scripted adjustRun) as [[r st'] l] eqn:Hrun.
  destruct (@askAdjustResources_asks_missing _ scripted _ _ _ _ Hrun)
    as (_ & Hcidr & _).
  destruct Hcidr as [Hkept _]; [discriminate|]. exact Hkept.
Defined.

Lemma askImportResources_checks_DNS_witness :
  ID (importVPC (vars (opts (snd (fst (@askImportResources _ scripted onePublicSubnet))))))
  = "vpc-0a1b".
Proof.
  destruct (@askImportResources _ scripted onePublicSubnet) as [[r st'] l] eqn:Hrun.
  destruct (@askImportResources_checks_DNS _ scripted _ _ _ _ Hrun) as (Hid & _).
  destruct Hid as [_ Hkept]; [discriminate|]. exact Hkept.
Defined.

Lemma askCustomizedResources_choice_witness :
  snd (@askCustomizedResources _ scripted defaultRun) = [].
Proof.
  destruct (@askCustomizedResources _ scripted defaultRun) as [[r st'] l] eqn:Hrun.
  destruct (@askCustomizedResources_choice _ scripted _ _ _ _ Hrun) as (Hdefault & _).
  destruct (Hdefault eq_refl) as (_ & Hl & _). exact Hl.
Defined.

Lemma spinner_always_stopped_witness :
  snd (@delegateDNSFromApp _ scripted config_props.demoApp "123456789012" defaultRun) = [].
Proof.
  destruct (@delegateDNSFromApp _ scripted config_props.demoApp "123456789012" defaultRun)
    as [[r st'] l] eqn:Hrun.
  destruct (proj1 (@spinner_always_stopped _ scripted) _ _ _ _ _ _ Hrun) as (_ & Hsame & _).
  destruct (Hsame eq_refl) as (_ & Hl & _). exact Hl.
Defined.

Lemma cleanUpDanglingRoles_best_effort_witness :
  exists answer rest,
    snd (@cleanUpDanglingRoles _ scripted "demo" "test" defaultRun)
    = EvCfnExists "demo-test" answer :: rest.
Proof.
  destruct (@cleanUpDanglingRoles _ scripted "demo" "test" defaultRun)
    as [[r st'] l] eqn:Hrun.
  destruct (@cleanUpDanglingRoles_best_effort _ scripted _ _ _ _ _ _ Hrun)
    as (answer & rest & Hl & _).
  exists answer, rest. exact Hl.
Defined.

Lemma Execute_succeeds_iff_stored_witness :
  fst (fst (@Execute _ scripted defaultRun)) = None.
Proof.
  destruct (@Execute _ scripted defaultRun) as [[res st'] l] eqn:Hrun.
  assert (Hin : In (EvStoreCreateEnvironment (deployedEnv "demo" "test") None) l).
  { pose proof Hrun as Hc. vm_compute in Hc. inversion Hc.
    repeat first [left; reflexivity | right]. }
  simpl. apply (proj1 (@Execute_succeeds_iff_stored _ scripted _ _ _ _ Hrun)).
  eexists. exact Hin.
Defined.

Lemma Execute_deploy_input_witness :
  exists urls,
    In (EvUploadEnvironmentCustomResources "stackset-demo-bucket" (Ok urls))
       (snd (@Execute _ scripted defaultRun)).
Proof.
  destruct (@Execute _ scripted defaultRun) as [[res st'] l] eqn:Hrun.
  assert (Hin : exists input, In (EvDeployAndRenderEnvironment input None) l).
  { pose proof Hrun as Hc. vm_compute in Hc. inversion Hc.
    eexists. repeat first [left; reflexivity | right]. }
  destruct Hin as [input Hin].
  destruct (@Execute_deploy_input _ scripted _ _ _ _ _ _ Hrun Hin)
    as (app & envCaller & bucket & urls & caller & _ & _ & _ & Hb & _ & Hu & _).
  assert (Eb : bucket = "stackset-demo-bucket").
  { pose proof Hrun as Hc. vm_compute in Hc. inversion Hc as [[Hr Hs Hl]].
    rewrite <- Hl in Hb. simpl in Hb.
    repeat (destruct Hb as [Hb|Hb]; [try discriminate Hb|]);
      [inversion Hb; reflexivity | destruct Hb]. }
  subst bucket. exists urls. exact Hu.
Defined.

Lemma askEnvSession_precedence_witness :
  vars (opts (snd (fst (askEnvSession defaultRun))))
  = vars (opts defaultRun).
Proof.
  destruct (askEnvSession defaultRun) as [[r st'] l] eqn:Hrun.
  exact (proj1 (askEnvSession_precedence _ _ _ _ Hrun)).
Defined.

Lemma askEnvRegion_precedence_witness :
  sess_Config_Region (opts (snd (fst (askEnvRegion defaultRun))))
  = Some "us-west-2".
Proof.
  destruct (askEnvRegion defaultRun) as [[r st'] l] eqn:Hrun.
  destruct (askEnvRegion_precedence _ _ _ _ Hrun)
    as (_ & _ & _ & Hsess & _).
  destruct (Hsess eq_refl) as (_ & _ & Hkept); [discriminate|]. exact Hkept.
Defined.

Lemma askEnvName_checks_duplicate_witness :
  snd (askEnvName defaultRun) = [].
Proof.
  destruct (askEnvName defaultRun) as [[r st'] l] eqn:Hrun.
  destruct (askEnvName_checks_duplicate _ _ _ _ Hrun)
    as (Hgiven & _).
  destruct Hgiven as (_ & Hl & _); [discriminate|]. exact Hl.
Defined.

Lemma Ask_keeps_what_was_passed_witness :
  name (vars (opts (snd (fst (Ask defaultRun))))) = "test".
Proof.
  destruct (Ask defaultRun) as [[r st'] l] eqn:Hrun.
  destruct (Ask_keeps_what_was_passed _ _ _ _ Hrun)
    as (_ & _ & Hname & _).
  apply Hname. discriminate.
Defined.

End scenario_runs.
